(** * Meteora position monitor and rebalancer: a shallow embedding

    The repository holds two versions of the bot in
    [src/meteora-monitor-bot.ts]:

    - the class [MeteoraMonitor] (lines 45-131), which only watches the
      positions and notifies the operator;
    - the module-level functions (lines 210-566), which in addition
      rebalance a position that left its range.

    Both are [async] JavaScript.  An [async] function is embedded as a
    state-and-exception monad over a [World]: the world holds the two
    module-level variables ([isRebalancing], [positionStatuses]) and a
    trace of every call made to an external collaborator, together with
    the answer received.  The answers come from an environment [env],
    a function of a logical clock, so that the same call made at two
    different moments may be answered differently.  Every [await] is a
    suspension point: a [hook] says what the other tasks of the event
    loop do to the world while the function is suspended. *)

From Stdlib Require Import ZArith Lia Bool.
From stdpp Require Import gmap strings list.

Local Open Scope string_scope.
Local Open Scope list_scope.
Local Open Scope Z_scope.

(** ** Data model *)

(** [LbPosition], restricted to the fields that the bot reads. *)
Record Position := {
  publicKey : string;
  lowerBinId : Z;
  upperBinId : Z;
  totalXAmount : Z;
  totalYAmount : Z;
  positionBinData : list Z  (* the [binId] of every bin of the position *)
}.

(** The value of the map [positionStatuses].  The class version also
    stores [positionKey], a copy of the key of the entry that is never
    read back; it is left out. *)
Record PositionStatus := {
  isInRange : bool;
  lastNotified : bool
}.

(** What a [throw] carries.  The code looks at a caught value in three
    ways: [instanceof Error], [.message], and interpolation in a
    template.  A thrown value is an [Error] object with its [message];
    or [null] or [undefined], of which no property can be read; or any
    other value (an object that is no [Error], a string, a number),
    with its [message] property when it has one. *)
Inductive JsThrown :=
| JsError (message : string)
| JsOther (message : option string)
| JsNull
| JsUndefined.

(** How a call ends. *)
Inductive Outcome (A : Type) :=
| Returned (a : A)
| Thrown (e : JsThrown).
Arguments Returned {A} a.
Arguments Thrown {A} e.

(** The result of [dlmm.getActiveBin()].  The price is a decimal string
    that the bot turns into a float and scales (line 434); the floats
    are not modelled, [priceScaled] is directly the integer
    [Math.floor(Number(price) * 1e6)], and [None] stands for an
    undefined price. *)
Record ActiveBin := {
  binId : Z;
  priceScaled : option Z
}.

Record Route := {
  fromAmount : Z;
  toAmount : Z
}.

(** The result of [executeRoute], of which the bot reads the amounts
    and the transaction of the first step; an executed route is taken to
    have a first step. *)
Record ExecutedRoute := {
  executedFromAmount : Z;
  executedToAmount : Z
}.

(** The two tokens of the pool, [dlmm.tokenX] and [dlmm.tokenY]. *)
Inductive Token :=
| TokenX
| TokenY.

(** Transactions are opaque objects; a number names them. *)
Definition Transaction := nat.

(** [dlmm.removeLiquidity] answers with one transaction or an array. *)
Inductive RemoveLiquidityTxs :=
| OneTx (tx : Transaction)
| ManyTxs (txs : list Transaction).

(** The signers of [sendAndConfirmTransaction]: [[user]] when liquidity
    is removed, [[user, newPosition]] when a position is created. *)
Inductive Signers :=
| UserOnly
| UserAndNewPosition (newPosition : string).

(** ** Notifications

    One constructor for each message template of the source. *)

Inductive Distance :=
| BinsBelow (n : Z)
| BinsAbove (n : Z).

Inductive Message :=
| MsgOutOfRange (positionKey : string) (activeBinId lowerBin upperBin : Z)
    (distance : Distance) (totalX totalY : Z)
| MsgBackInRange (positionKey : string) (activeBinId : Z)
| MsgCheckError (errorMessage : string)
| MsgSkipping
| MsgStarting
| MsgRemoved (positionKey : string) (txHash : string)
| MsgRemoveFailed (positionKey : string) (error : JsThrown)
| MsgExecutingSwap (route : Route) (swapYToX : bool)
| MsgSwapCompleted (executed : ExecutedRoute) (swapYToX : bool)
| MsgSwapFailed (errorMessage : string)
| MsgPositionCreated (newPosition txHash : string)
    (minBinId maxBinId xAmount yAmount : Z)
| MsgCreateFailed (errorMessage : string)
| MsgCompleted
| MsgRebalanceFailed (errorMessage : string).

(** ** The trace of calls to the collaborators *)

Inductive Event :=
| EvSend (m : Message)
| EvGetPositions (r : Outcome (list Position))
| EvGetActiveBin (r : Outcome ActiveBin)
| EvGetTokenAccounts (mint : Token) (r : Outcome (list string))
| EvGetMint (mint : Token) (r : Outcome Z)
| EvGetBalance (r : Outcome Z)
| EvGetAccountInfo (account : string) (r : Outcome (option Z))
| EvRemoveLiquidity (position : string) (fromBinId toBinId : option Z)
    (r : Outcome RemoveLiquidityTxs)
| EvSendAndConfirm (tx : Transaction) (signers : Signers) (r : Outcome string)
| EvGetRoutes (amount : Z) (swapYToX : bool) (r : Outcome (list Route))
| EvExecuteRoute (route : Route) (r : Outcome ExecutedRoute)
| EvSleep (ms : Z)
| EvInitPosition (positionPubKey : string) (totalX totalY : Z)
    (minBinId maxBinId slippage : Z) (r : Outcome Transaction).

(** What the collaborators answer at one moment, for every call that the
    bot can make.  The wallet of the user is the only owner that the bot
    asks about; the token accounts are asked for by mint, the mints by
    token, and the data of a token account by the key of the account
    (the answer is the [amount] that [AccountLayout.decode] finds in the
    data, [None] when the account does not exist). *)
Record Responses := {
  r_getPositions : Outcome (list Position);
  r_getActiveBin : Outcome ActiveBin;
  r_getTokenAccounts : Token -> Outcome (list string);
  r_getMint : Token -> Outcome Z;
  r_getBalance : Outcome Z;
  r_getAccountInfo : string -> Outcome (option Z);
  r_removeLiquidity : Outcome RemoveLiquidityTxs;
  r_sendAndConfirm : Outcome string;
  r_getRoutes : Outcome (list Route);
  r_executeRoute : Outcome ExecutedRoute;
  r_initPosition : Outcome Transaction;
  r_generateKeypair : string
}.

(** ** The world *)

Record World := {
  isRebalancing : bool;
  positionStatuses : gmap string PositionStatus;
  clock : nat;        (* number of answers consumed so far *)
  suspensions : nat;  (* owned by the hook: suspension points passed *)
  trace : list Event
}.

Definition log (ev : Event) (w : World) : World :=
  {| isRebalancing := isRebalancing w;
     positionStatuses := positionStatuses w;
     clock := clock w;
     suspensions := suspensions w;
     trace := trace w ++ [ev] |}.

Definition tick (w : World) : World :=
  {| isRebalancing := isRebalancing w;
     positionStatuses := positionStatuses w;
     clock := S (clock w);
     suspensions := suspensions w;
     trace := trace w |}.

Definition setRebalancing (b : bool) (w : World) : World :=
  {| isRebalancing := b;
     positionStatuses := positionStatuses w;
     clock := clock w;
     suspensions := suspensions w;
     trace := trace w |}.

Definition setStatuses (m : gmap string PositionStatus) (w : World) : World :=
  {| isRebalancing := isRebalancing w;
     positionStatuses := m;
     clock := clock w;
     suspensions := suspensions w;
     trace := trace w |}.

Definition passSuspension (w : World) : World :=
  {| isRebalancing := isRebalancing w;
     positionStatuses := positionStatuses w;
     clock := clock w;
     suspensions := S (suspensions w);
     trace := trace w |}.

(** The world of a freshly started process. *)
Definition initialWorld : World :=
  {| isRebalancing := false;
     positionStatuses := ∅;
     clock := 0;
     suspensions := 0;
     trace := [] |}.

(** ** The monad of [async] functions *)

Definition M (A : Type) : Type := World -> World * Outcome A.

Definition ret {A} (a : A) : M A := fun w => (w, Returned a).

Definition throw {A} (e : JsThrown) : M A := fun w => (w, Thrown e).

(** An expression that is evaluated on the spot and may throw. *)
Definition eval {A} (r : Outcome A) : M A := fun w => (w, r).

Definition bind {A B} (m : M A) (k : A -> M B) : M B :=
  fun w =>
    match m w with
    | (w', Returned a) => k a w'
    | (w', Thrown e) => (w', Thrown e)
    end.

Notation "x <- m ;; k" := (bind m (fun x => k))
  (at level 100, m at next level, right associativity).
Notation "m ;; k" := (bind m (fun _ => k))
  (at level 100, right associativity).

(** [try { m } catch (error) { handler error }] *)
Definition tryCatch {A} (m : M A) (handler : JsThrown -> M A) : M A :=
  fun w =>
    match m w with
    | (w', Returned a) => (w', Returned a)
    | (w', Thrown e) => handler e w'
    end.

(** [try { m } finally { final }], for a [final] block that cannot throw. *)
Definition tryFinally {A} (m : M A) (final : World -> World) : M A :=
  fun w =>
    match m w with
    | (w', r) => (final w', r)
    end.

(** [for (const x of xs) { body x }] *)
Fixpoint forOf {A} (xs : list A) (body : A -> M unit) : M unit :=
  match xs with
  | [] => ret tt
  | x :: xs' => body x ;; forOf xs' body
  end.

(** The world and the outcome of a run. *)
Definition worldOf {A} (run : World * Outcome A) : World := fst run.
Definition outcomeOf {A} (run : World * Outcome A) : Outcome A := snd run.

(** No other task runs during a suspension. *)
Definition idle (w : World) : World := w.

Section Runtime.

Variable env : nat -> Responses.
Variable hook : World -> World.

(** [await call(...)]: the function is suspended, the other tasks run,
    then the answer of the moment is received and recorded. *)
Definition await {A} (answer : Responses -> Outcome A)
    (record : Outcome A -> Event) : M A :=
  fun w =>
    let w1 := hook w in
    let r := answer (env (clock w1)) in
    (log (record r) (tick w1), r).

(** [await bot.telegram.sendMessage(chatId, m)].  The notification
    channel is taken as reliable: the call always returns. *)
Definition sendMessage (m : Message) : M unit :=
  fun w => (log (EvSend m) (hook w), Returned tt).

(** [await new Promise(resolve => setTimeout(resolve, ms))] *)
Definition sleep (ms : Z) : M unit :=
  fun w => (log (EvSleep ms) (hook w), Returned tt).

(** [Keypair.generate()], synchronous: the key comes from the
    environment, nothing is suspended. *)
Definition generateKeypair : M string :=
  fun w => (w, Returned (r_generateKeypair (env (clock w)))).

End Runtime.

(** ** Code shared by the two versions *)

(** [generateOutOfRangeMessage] (lines 102-115 and 495-508, the same
    text). *)
Definition generateOutOfRangeMessage (position : Position)
    (activeBinId lowerBin upperBin : Z) : Message :=
  let positionKey := publicKey position in
  let distance :=
    if activeBinId <? lowerBin
    then BinsBelow (lowerBin - activeBinId)
    else BinsAbove (activeBinId - upperBin) in
  MsgOutOfRange positionKey activeBinId lowerBin upperBin distance
    (totalXAmount position) (totalYAmount position).

(** The object that stands for a position seen for the first time
    (lines 73-77 and 522-525). *)
Definition unseenStatus : PositionStatus :=
  {| isInRange := true; lastNotified := false |}.

(** [error instanceof Error ? error.message : 'Unknown error occurred'] *)
Definition checkErrorMessage (error : JsThrown) : string :=
  match error with
  | JsError message => message
  | JsOther _ | JsNull | JsUndefined => "Unknown error occurred"
  end.

(** ** The monitor without rebalancing: class [MeteoraMonitor] *)

Module MeteoraMonitor.
Section Monitor.

Variable env : nat -> Responses.
Variable hook : World -> World.

(** The body of the [for] loop of [checkPositions] (lines 66-94), run
    for one position.  The source reads the status object before the
    [await] and writes its two fields and the map entry after it,
    with no suspension between the writes; whether the object is
    shared with the map or fresh, the entry that results is the one
    written here. *)
Definition checkPosition (activeBinId : Z) (position : Position) : M unit :=
  let lowerBin := lowerBinId position in
  let upperBin := upperBinId position in
  let inRange := (lowerBin <=? activeBinId) && (activeBinId <=? upperBin) in
  let positionKey := publicKey position in
  fun w =>
    let status := default unseenStatus (positionStatuses w !! positionKey) in
    (notified <-
       (if negb inRange && negb (lastNotified status) then
          sendMessage hook
            (generateOutOfRangeMessage position activeBinId lowerBin upperBin) ;;
          ret true
        else if inRange && lastNotified status then
          sendMessage hook (MsgBackInRange positionKey activeBinId) ;;
          ret false
        else ret (lastNotified status)) ;;
     fun w' =>
       (setStatuses
          (<[positionKey := {| isInRange := inRange; lastNotified := notified |}]>
             (positionStatuses w')) w',
        Returned tt)) w.

(** [checkPositions] (lines 60-100). *)
Definition checkPositions : M unit :=
  tryCatch
    (positions <- await env hook r_getPositions EvGetPositions ;;
     activeBin <- await env hook r_getActiveBin EvGetActiveBin ;;
     let activeBinId := binId activeBin in
     forOf positions (checkPosition activeBinId))
    (fun error => sendMessage hook (MsgCheckError (checkErrorMessage error))).

End Monitor.
End MeteoraMonitor.

(** ** The monitor with rebalancing: the module-level functions *)

(** [error.message], for a caught value typed [any].  Reading a property
    of [null] or of [undefined] throws a [TypeError], with the text that
    Node gives it. *)
Definition messageOf (error : JsThrown) : Outcome (option string) :=
  match error with
  | JsError message => Returned (Some message)
  | JsOther message => Returned message
  | JsNull =>
      Thrown (JsError "Cannot read properties of null (reading 'message')")
  | JsUndefined =>
      Thrown (JsError "Cannot read properties of undefined (reading 'message')")
  end.

(** [error.message || 'Unknown error']: a missing message and the empty
    string are falsy. *)
Definition messageOrUnknown (error : JsThrown) : Outcome string :=
  match messageOf error with
  | Returned None => Returned "Unknown error"
  | Returned (Some EmptyString) => Returned "Unknown error"
  | Returned (Some message) => Returned message
  | Thrown typeError => Thrown typeError
  end.

(** [new BN(number)] for a JavaScript number that holds an integer:
    bn.js asserts that its magnitude is below [2^53]. *)
Definition BN_ofNumber (number : Z) : Outcome Z :=
  if Z.abs number <? 2 ^ 53
  then Returned number
  else Thrown (JsError "Assertion failed").

(** [BN.div] rounds towards zero. *)
Definition BN_div (a b : Z) : Z := a ÷ b.

Record TokenBalances := {
  xBalance : Z;
  yBalance : Z;
  xDecimals : Z;
  yDecimals : Z
}.

(** The decision taken at lines 436-456 of [rebalancePosition], with the
    names of the source: what each side is worth, which side is sold and
    how much of it. *)
Record SwapPlan := {
  xValue : Z;
  yValue : Z;
  totalValue : Z;
  targetValue : Z;
  swapAmount : Z;
  swapYToX : bool;
  minSwapThreshold : Z;
  valueToCheck : Z
}.

Definition planSwap (xBalance yBalance priceBN : Z) : SwapPlan :=
  let xValue := xBalance in
  let yValue := BN_div (yBalance * priceBN) 1000000 in
  let totalValue := xValue + yValue in
  let targetValue := BN_div totalValue 2 in
  let '(swapAmount, swapYToX) :=
    if xValue >? yValue
    then (BN_div xBalance 2, false)
    else (BN_div yBalance 2, true) in
  let minSwapThreshold := BN_div totalValue 100 in
  let valueToCheck := if swapYToX then yValue else xValue in
  {| xValue := xValue; yValue := yValue; totalValue := totalValue;
     targetValue := targetValue; swapAmount := swapAmount;
     swapYToX := swapYToX; minSwapThreshold := minSwapThreshold;
     valueToCheck := valueToCheck |}.

(** The condition of line 458. *)
Definition shouldSwap (plan : SwapPlan) : bool :=
  (swapAmount plan >? 0) && (valueToCheck plan >? minSwapThreshold plan).

(** [new BN(0.07 * 1e9)]: the product is the double 70000000 exactly. *)
Definition reservedSol : Z := 70000000.

(** Lines 471-473. *)
Definition solToDeposit (finalYBalance : Z) : Z :=
  if finalYBalance >? reservedSol then finalYBalance - reservedSol else 0.

Section Rebalancer.

Variable env : nat -> Responses.
Variable hook : World -> World.

(** [getTokenBalances] (lines 236-259).  The amount of a token account
    is a [bigint], which [new BN] takes whatever its size; the native
    balance is a number. *)
Definition getTokenBalances : M TokenBalances :=
  xAccount <-
    await env hook (fun answers => r_getTokenAccounts answers TokenX)
      (EvGetTokenAccounts TokenX) ;;
  xMint <-
    await env hook (fun answers => r_getMint answers TokenX) (EvGetMint TokenX) ;;
  solBalance <- await env hook r_getBalance EvGetBalance ;;
  yMint <-
    await env hook (fun answers => r_getMint answers TokenY) (EvGetMint TokenY) ;;
  xBalance <-
    match xAccount with
    | first :: _ =>
        xAccountInfo <-
          await env hook (fun answers => r_getAccountInfo answers first)
            (EvGetAccountInfo first) ;;
        match xAccountInfo with
        | Some amount => ret amount
        | None => ret 0
        end
    | [] => ret 0
    end ;;
  yBalance <- eval (BN_ofNumber solBalance) ;;
  ret {| xBalance := xBalance; yBalance := yBalance;
         xDecimals := xMint; yDecimals := yMint |}.

(** [swap] (lines 261-326). *)
Definition swap (amount : Z) (swapYToX : bool) : M unit :=
  tryCatch
    (routes <- await env hook r_getRoutes (EvGetRoutes amount swapYToX) ;;
     match routes with
     | [] => throw (JsError "No routes found for the swap")
     | bestRoute :: _ =>
         sendMessage hook (MsgExecutingSwap bestRoute swapYToX) ;;
         executedRoute <- await env hook r_executeRoute (EvExecuteRoute bestRoute) ;;
         sendMessage hook (MsgSwapCompleted executedRoute swapYToX)
     end)
    (fun error =>
       errorMessage <- eval (messageOrUnknown error) ;;
       sendMessage hook (MsgSwapFailed errorMessage) ;;
       throw error).

(** [createNewPosition] (lines 328-373).  [xAmount || new BN(0)] and
    [yAmount || new BN(100 * 10 ** 6)] are their left operand: a [BN]
    is an object, and every object is truthy. *)
Definition createNewPosition (newPosition : string) (xAmount yAmount : Z)
    : M unit :=
  let totalIntervalRange := 5 in
  activeBin <- await env hook r_getActiveBin EvGetActiveBin ;;
  let maxBinId := binId activeBin + totalIntervalRange in
  let minBinId := binId activeBin - totalIntervalRange in
  let totalXAmount := xAmount in
  let totalYAmount := yAmount in
  let slippage := 50 in
  createPositionTx <-
    await env hook r_initPosition
      (EvInitPosition newPosition totalXAmount totalYAmount
         minBinId maxBinId slippage) ;;
  tryCatch
    (txHash <-
       await env hook r_sendAndConfirm
         (EvSendAndConfirm createPositionTx (UserAndNewPosition newPosition)) ;;
     sendMessage hook
       (MsgPositionCreated newPosition txHash minBinId maxBinId xAmount yAmount))
    (fun error =>
       errorMessage <- eval (messageOrUnknown error) ;;
       sendMessage hook (MsgCreateFailed errorMessage) ;;
       throw error).

(** [removePositionLiquidity] (lines 375-410). *)
Definition removePositionLiquidity (position : Position) : M unit :=
  let binIdsToRemove := positionBinData position in
  removeLiquidityTxs <-
    await env hook r_removeLiquidity
      (EvRemoveLiquidity (publicKey position)
         (head binIdsToRemove) (last binIdsToRemove)) ;;
  let transactions :=
    match removeLiquidityTxs with
    | ManyTxs txs => txs
    | OneTx tx => [tx]
    end in
  tryCatch
    (forOf transactions (fun tx =>
       removeBalanceLiquidityTxHash <-
         await env hook r_sendAndConfirm (EvSendAndConfirm tx UserOnly) ;;
       sendMessage hook
         (MsgRemoved (publicKey position) removeBalanceLiquidityTxHash)))
    (fun error =>
       sendMessage hook (MsgRemoveFailed (publicKey position) error)).

(** The guarded call of [swap] (lines 458-460). *)
Definition swapIfSignificant (plan : SwapPlan) : M unit :=
  if shouldSwap plan
  then swap (swapAmount plan) (swapYToX plan)
  else ret tt.

(** The [try] block of [rebalancePosition] (lines 420-484).  The scaled
    price goes through [new BN] (line 434). *)
Definition rebalanceTry (position : Position) : M unit :=
  sendMessage hook MsgStarting ;;
  removePositionLiquidity position ;;
  balances <- getTokenBalances ;;
  activeBin <- await env hook r_getActiveBin EvGetActiveBin ;;
  match priceScaled activeBin with
  | None => throw (JsError "Could not get active bin price")
  | Some scaled =>
      priceBN <- eval (BN_ofNumber scaled) ;;
      let plan := planSwap (xBalance balances) (yBalance balances) priceBN in
      swapIfSignificant plan ;;
      sleep hook 50000 ;;
      final <- getTokenBalances ;;
      newPosition <- generateKeypair env ;;
      createNewPosition newPosition (xBalance final)
        (solToDeposit (yBalance final)) ;;
      sendMessage hook MsgCompleted
  end.

(** The [catch] block of [rebalancePosition] (lines 486-489). *)
Definition rebalanceCatch (error : JsThrown) : M unit :=
  errorMessage <- eval (messageOrUnknown error) ;;
  sendMessage hook (MsgRebalanceFailed errorMessage) ;;
  throw error.

(** [rebalancePosition] (lines 412-493).  The flag is tested and set
    with no suspension in between. *)
Definition rebalancePosition (position : Position) : M unit :=
  fun w =>
    if isRebalancing w then
      sendMessage hook MsgSkipping w
    else
      tryFinally
        (tryCatch (rebalanceTry position) rebalanceCatch)
        (setRebalancing false)
        (setRebalancing true w).

(** The body of the [for] loop of [checkPositions] (lines 516-543),
    run for one position.  As in the class version, the status is read
    before the first [await] and written after the last. *)
Definition checkPosition (activeBinId : Z) (position : Position) : M unit :=
  let lowerBin := lowerBinId position in
  let upperBin := upperBinId position in
  let inRange := (lowerBin <=? activeBinId) && (activeBinId <=? upperBin) in
  let positionKey := publicKey position in
  fun w =>
    let status := default unseenStatus (positionStatuses w !! positionKey) in
    (notified <-
       (if negb inRange && negb (lastNotified status) then
          sendMessage hook
            (generateOutOfRangeMessage position activeBinId lowerBin upperBin) ;;
          rebalancePosition position ;;
          ret true
        else if inRange && lastNotified status then
          sendMessage hook (MsgBackInRange positionKey activeBinId) ;;
          ret false
        else ret (lastNotified status)) ;;
     fun w' =>
       (setStatuses
          (<[positionKey := {| isInRange := inRange; lastNotified := notified |}]>
             (positionStatuses w')) w',
        Returned tt)) w.

(** [checkPositions] (lines 510-549). *)
Definition checkPositions : M unit :=
  tryCatch
    (positions <- await env hook r_getPositions EvGetPositions ;;
     activeBin <- await env hook r_getActiveBin EvGetActiveBin ;;
     let activeBinId := binId activeBin in
     forOf positions (checkPosition activeBinId))
    (fun error => sendMessage hook (MsgCheckError (checkErrorMessage error))).

End Rebalancer.

(** ** A second trigger during a rebalance

    The hook of a scheduler that lets one other task call
    [rebalancePosition] for [position'] at the suspension point number
    [k] of the observed task, and nothing else.  The hook counts the
    suspension points it is called at. *)
Definition triggerAt (env : nat -> Responses) (k : nat) (position' : Position)
    : World -> World :=
  fun w =>
    passSuspension
      (if Nat.eqb (suspensions w) k
       then worldOf (rebalancePosition env idle position' w)
       else w).

(** The trace [t1] is the trace [t2] with one notification that a
    rebalance was skipped inserted somewhere. *)
Definition skipInserted (t1 t2 : list Event) : Prop :=
  exists before after,
    t2 = before ++ after /\ t1 = before ++ EvSend MsgSkipping :: after.

(** How the world [w1] of a rebalance that runs under [triggerAt env k]
    compares, while the rebalance holds the lock, with the world [w2]
    of the same rebalance running alone: the same but for the count of
    suspensions and, once the trigger has come, for one notification. *)
Definition shadows (k : nat) (w1 w2 : World) : Prop :=
  isRebalancing w1 = true /\
  isRebalancing w2 = true /\
  positionStatuses w1 = positionStatuses w2 /\
  clock w1 = clock w2 /\
  ((suspensions w1 <= k)%nat /\ trace w1 = trace w2 \/
   (k < suspensions w1)%nat /\ skipInserted (trace w1) (trace w2)).

(** Two computations that take worlds related by [R] to worlds related
    by [R], with the same outcome. *)
Definition related {A} (R : World -> World -> Prop) (m1 m2 : M A) : Prop :=
  forall w1 w2,
    R w1 w2 ->
    R (worldOf (m1 w1)) (worldOf (m2 w2)) /\
    outcomeOf (m1 w1) = outcomeOf (m2 w2).

(** ** Observing runs *)

(** Containment of the active bin in the range of a position, as
    [checkPositions] computes it. *)
Definition inRangeAt (activeBinId : Z) (position : Position) : bool :=
  (lowerBinId position <=? activeBinId) && (activeBinId <=? upperBinId position).

Definition isOutAlert (key : string) (ev : Event) : bool :=
  match ev with
  | EvSend (MsgOutOfRange positionKey _ _ _ _ _ _) => String.eqb positionKey key
  | _ => false
  end.

Definition isBackAlert (key : string) (ev : Event) : bool :=
  match ev with
  | EvSend (MsgBackInRange positionKey _) => String.eqb positionKey key
  | _ => false
  end.

Definition isSkip (ev : Event) : bool :=
  match ev with
  | EvSend MsgSkipping => true
  | _ => false
  end.

Fixpoint countEvents (f : Event -> bool) (t : list Event) : nat :=
  match t with
  | [] => 0%nat
  | ev :: t' => ((if f ev then 1 else 0) + countEvents f t')%nat
  end.

(** Number of out-of-range alerts, and of back-in-range alerts, sent for
    the position [key] in a trace. *)
Definition outAlerts (key : string) (t : list Event) : nat :=
  countEvents (isOutAlert key) t.

Definition backAlerts (key : string) (t : list Event) : nat :=
  countEvents (isBackAlert key) t.

(** An observation is one run of the loop body of [checkPositions]: a
    position as the pool reports it, and the active bin of that poll. *)
Definition Observation : Type := Z * Position.

Definition observedKey (o : Observation) : string := publicKey (snd o).
Definition observedInRange (o : Observation) : bool := inRangeAt (fst o) (snd o).

(** The world after a sequence of observations.  An observation that
    throws ends its cycle; the next cycle observes again. *)
Fixpoint observeAll (body : Z -> Position -> M unit) (obs : list Observation)
    (w : World) : World :=
  match obs with
  | [] => w
  | o :: obs' => observeAll body obs' (worldOf (body (fst o) (snd o) w))
  end.

Definition isThrown {A} (r : Outcome A) : bool :=
  match r with
  | Thrown _ => true
  | Returned _ => false
  end.

(** Number of observations of [key] in the sequence that throw. *)
Fixpoint thrownObservations (key : string) (body : Z -> Position -> M unit)
    (obs : list Observation) (w : World) : nat :=
  match obs with
  | [] => 0%nat
  | o :: obs' =>
      let run := body (fst o) (snd o) w in
      ((if isThrown (outcomeOf run) && String.eqb (observedKey o) key
        then 1 else 0)
       + thrownObservations key body obs' (worldOf run))%nat
  end.

(** Every observation of [key] in the sequence finds it out of range
    (in range). *)
Definition outOfRangeStreak (key : string) (obs : list Observation) : Prop :=
  Forall (fun o => observedKey o = key -> observedInRange o = false) obs.

Definition inRangeStreak (key : string) (obs : list Observation) : Prop :=
  Forall (fun o => observedKey o = key -> observedInRange o = true) obs.

(** The worlds that a process reaches by running monitoring cycles, each
    against collaborators that answer as they please. *)
Inductive reachable (cycle : (nat -> Responses) -> M unit) : World -> Prop :=
| reachable_start : reachable cycle initialWorld
| reachable_cycle env w :
    reachable cycle w -> reachable cycle (worldOf (cycle env w)).

(** Whether the position [key] counts as notified in a world: the
    [lastNotified] of its entry, or of the default object when it has
    none. *)
Definition notifiedAt (key : string) (w : World) : bool :=
  lastNotified (default unseenStatus (positionStatuses w !! key)).

(** What one observation [o] changes for the position [key], from the
    world [w] to the world [w'], when the observation ends by throwing
    ([thrown = true]) or by returning. *)
Definition observationEffect (key : string) (o : Observation) (w w' : World)
    (thrown : bool) : Prop :=
  if String.eqb (observedKey o) key then
    if observedInRange o then
      thrown = false /\
      outAlerts key (trace w') = outAlerts key (trace w) /\
      backAlerts key (trace w') =
        (backAlerts key (trace w) + (if notifiedAt key w then 1 else 0))%nat /\
      notifiedAt key w' = false
    else
      outAlerts key (trace w') =
        (outAlerts key (trace w) + (if notifiedAt key w then 0 else 1))%nat /\
      backAlerts key (trace w') = backAlerts key (trace w) /\
      (if thrown
       then notifiedAt key w = false /\ notifiedAt key w' = false
       else notifiedAt key w' = true)
  else
    outAlerts key (trace w') = outAlerts key (trace w) /\
    backAlerts key (trace w') = backAlerts key (trace w) /\
    notifiedAt key w' = notifiedAt key w.

(** No entry of the map is out of range and not notified. *)
Definition noSilentOutOfRange (statuses : gmap string PositionStatus) : Prop :=
  forall key status,
    statuses !! key = Some status ->
    isInRange status = false -> lastNotified status = true.

(** [w'] is [w] after some calls to collaborators, all of them of the
    kind [P]: the trace grew by events of that kind, answers were
    consumed, and the module-level variables are as they were. *)
Definition extends (P : Event -> Prop) (w w' : World) : Prop :=
  isRebalancing w' = isRebalancing w /\
  positionStatuses w' = positionStatuses w /\
  suspensions w' = suspensions w /\
  (clock w <= clock w')%nat /\
  exists evs, trace w' = trace w ++ evs /\ Forall P evs.

(** Every run of [m] extends the world by events of the kind [P]. *)
Definition emits {A} (P : Event -> Prop) (m : M A) : Prop :=
  forall w, extends P w (worldOf (m w)).

(** Kinds of events. *)

Definition anyEvent (ev : Event) : Prop := True.

Definition withdrawEvent (ev : Event) : Prop :=
  match ev with
  | EvRemoveLiquidity _ _ _ _ => True
  | EvSendAndConfirm _ UserOnly _ => True
  | EvSend (MsgRemoved _ _) => True
  | EvSend (MsgRemoveFailed _ _) => True
  | _ => False
  end.

Definition balanceEvent (ev : Event) : Prop :=
  match ev with
  | EvGetTokenAccounts _ _ | EvGetMint _ _ | EvGetBalance _
  | EvGetAccountInfo _ _ => True
  | _ => False
  end.

Definition swapEvent (ev : Event) : Prop :=
  match ev with
  | EvGetRoutes _ _ _ | EvExecuteRoute _ _ => True
  | EvSend (MsgExecutingSwap _ _) => True
  | EvSend (MsgSwapCompleted _ _) => True
  | EvSend (MsgSwapFailed _) => True
  | _ => False
  end.

(** What a rebalance may emit: anything but the messages and the query
    that belong to [checkPositions]. *)
Definition pipelineEvent (ev : Event) : Prop :=
  match ev with
  | EvSend (MsgOutOfRange _ _ _ _ _ _ _) => False
  | EvSend (MsgBackInRange _ _) => False
  | EvSend (MsgCheckError _) => False
  | EvGetPositions _ => False
  | _ => True
  end.

(** A failure of the swap step: no answer to the route query, no route,
    or a route whose execution fails. *)
Definition swapFailure (ev : Event) : Prop :=
  match ev with
  | EvGetRoutes _ _ (Thrown _) => True
  | EvGetRoutes _ _ (Returned []) => True
  | EvExecuteRoute _ (Thrown _) => True
  | _ => False
  end.

(** A failure of a transaction of the deposit step: the transaction
    cannot be built, or its submission fails. *)
Definition depositFailure (ev : Event) : Prop :=
  match ev with
  | EvInitPosition _ _ _ _ _ _ (Thrown _) => True
  | EvSendAndConfirm _ (UserAndNewPosition _) (Thrown _) => True
  | _ => False
  end.

Definition isDeposit (ev : Event) : Prop :=
  match ev with
  | EvInitPosition _ _ _ _ _ _ _ => True
  | EvSendAndConfirm _ (UserAndNewPosition _) _ => True
  | _ => False
  end.

Definition noSwapFailure (ev : Event) : Prop := ~ swapFailure ev.

Definition notWithdraw (ev : Event) : Prop := ~ withdrawEvent ev.

Definition notDeposit (ev : Event) : Prop := ~ isDeposit ev.

Definition noStepFailure (ev : Event) : Prop :=
  ~ swapFailure ev /\ ~ depositFailure ev.

(** Of the withdraw, balance and planning steps: neither a deposit nor a
    failure of the swap or deposit step. *)
Definition earlyEvent (ev : Event) : Prop :=
  ~ swapFailure ev /\ ~ depositFailure ev /\ ~ isDeposit ev.

(** Whenever [m] returns, it has emitted events of the kind [N] only. *)
Definition returnsWith {A} (N : Event -> Prop) (m : M A) : Prop :=
  forall w w' a,
    m w = (w', Returned a) ->
    exists evs, trace w' = trace w ++ evs /\ Forall N evs.

(** In every run of [m], a failure of the swap step is followed by no
    deposit. *)
Definition depositsOnlyAfterSwap {A} (m : M A) : Prop :=
  forall w,
    exists evs,
      trace (worldOf (m w)) = trace w ++ evs /\
      (Exists swapFailure evs -> Forall notDeposit evs).

Definition isSubmission (tx : Transaction) (ev : Event) : bool :=
  match ev with
  | EvSendAndConfirm tx' _ _ => Nat.eqb tx' tx
  | _ => false
  end.

(** The events of the withdraw step for transactions whose submission
    succeeds with the given hashes. *)
Definition removedEvents (key : string) (done : list (Transaction * string))
    : list Event :=
  flat_map (fun '(tx, txHash) =>
      [EvSendAndConfirm tx UserOnly (Returned txHash);
       EvSend (MsgRemoved key txHash)]) done.

(** ** Concrete data for the examples *)

(** The position of scenarios 1 to 3 of the specification: range
    [100, 110]. *)
Definition scenarioPosition : Position :=
  {| publicKey := "P"; lowerBinId := 100; upperBinId := 110;
     totalXAmount := 7; totalYAmount := 9; positionBinData := [100; 110] |}.

(** Collaborators that always succeed, with the active bin where it is
    said. *)
Definition calmAt (activeBinId : Z) : Responses :=
  {| r_getPositions := Returned [scenarioPosition];
     r_getActiveBin :=
       Returned {| binId := activeBinId; priceScaled := Some 2000000 |};
     r_getTokenAccounts := fun _ => Returned ["account"];
     r_getMint := fun _ => Returned 6;
     r_getBalance := Returned 1000000000;
     r_getAccountInfo := fun _ => Returned (Some 500);
     r_removeLiquidity := Returned (ManyTxs [1%nat; 2%nat]);
     r_sendAndConfirm := Returned "signature";
     r_getRoutes := Returned [ {| fromAmount := 500000000; toAmount := 990 |} ];
     r_executeRoute :=
       Returned {| executedFromAmount := 500000000; executedToAmount := 989 |};
     r_initPosition := Returned 3%nat;
     r_generateKeypair := "N" |}.

Definition calm : nat -> Responses := fun _ => calmAt 115.

(** The same, except that the pool refuses to prepare the removal of
    liquidity. *)
Definition noRemoval : nat -> Responses :=
  fun _ =>
    {| r_getPositions := Returned [scenarioPosition];
       r_getActiveBin :=
         Returned {| binId := 115; priceScaled := Some 2000000 |};
       r_getTokenAccounts := fun _ => Returned ["account"];
       r_getMint := fun _ => Returned 6;
       r_getBalance := Returned 1000000000;
       r_getAccountInfo := fun _ => Returned (Some 500);
       r_removeLiquidity := Thrown (JsError "pool unavailable");
       r_sendAndConfirm := Returned "signature";
       r_getRoutes := Returned [ {| fromAmount := 500000000; toAmount := 990 |} ];
       r_executeRoute :=
         Returned {| executedFromAmount := 500000000; executedToAmount := 989 |};
       r_initPosition := Returned 3%nat;
       r_generateKeypair := "N" |}.

(** The same as [calm], except that no transaction is ever confirmed. *)
Definition noConfirmation : nat -> Responses :=
  fun _ =>
    {| r_getPositions := Returned [scenarioPosition];
       r_getActiveBin :=
         Returned {| binId := 115; priceScaled := Some 2000000 |};
       r_getTokenAccounts := fun _ => Returned ["account"];
       r_getMint := fun _ => Returned 6;
       r_getBalance := Returned 1000000000;
       r_getAccountInfo := fun _ => Returned (Some 500);
       r_removeLiquidity := Returned (ManyTxs [1%nat; 2%nat]);
       r_sendAndConfirm := Thrown (JsError "block height exceeded");
       r_getRoutes := Returned [ {| fromAmount := 500000000; toAmount := 990 |} ];
       r_executeRoute :=
         Returned {| executedFromAmount := 500000000; executedToAmount := 989 |};
       r_initPosition := Returned 3%nat;
       r_generateKeypair := "N" |}.

(** The same as [calm], except that the answer number 1 is that of
    [noConfirmation]: in a rebalance started at clock 0, the first
    transaction of the withdraw step is not confirmed, and every later
    one is. *)
Definition firstSubmissionFails : nat -> Responses :=
  fun t => if Nat.eqb t 1 then noConfirmation t else calm t.

(** The same as [calm], except that the pool cannot be queried. *)
Definition noPositions : nat -> Responses :=
  fun _ =>
    {| r_getPositions := Thrown (JsError "429 Too Many Requests");
       r_getActiveBin :=
         Returned {| binId := 115; priceScaled := Some 2000000 |};
       r_getTokenAccounts := fun _ => Returned ["account"];
       r_getMint := fun _ => Returned 6;
       r_getBalance := Returned 1000000000;
       r_getAccountInfo := fun _ => Returned (Some 500);
       r_removeLiquidity := Returned (ManyTxs [1%nat; 2%nat]);
       r_sendAndConfirm := Returned "signature";
       r_getRoutes := Returned [ {| fromAmount := 500000000; toAmount := 990 |} ];
       r_executeRoute :=
         Returned {| executedFromAmount := 500000000; executedToAmount := 989 |};
       r_initPosition := Returned 3%nat;
       r_generateKeypair := "N" |}.

(** The same as [calm], except that the query of the positions is
    rejected with a plain object, not an [Error], that describes the
    failure in its [message]. *)
Definition plainRejection : nat -> Responses :=
  fun _ =>
    {| r_getPositions := Thrown (JsOther (Some "429 Too Many Requests"));
       r_getActiveBin :=
         Returned {| binId := 115; priceScaled := Some 2000000 |};
       r_getTokenAccounts := fun _ => Returned ["account"];
       r_getMint := fun _ => Returned 6;
       r_getBalance := Returned 1000000000;
       r_getAccountInfo := fun _ => Returned (Some 500);
       r_removeLiquidity := Returned (ManyTxs [1%nat; 2%nat]);
       r_sendAndConfirm := Returned "signature";
       r_getRoutes := Returned [ {| fromAmount := 500000000; toAmount := 990 |} ];
       r_executeRoute :=
         Returned {| executedFromAmount := 500000000; executedToAmount := 989 |};
       r_initPosition := Returned 3%nat;
       r_generateKeypair := "N" |}.

(** ** The status command

    The handler of [bot.command('status', ...)] (lines 148-163 and
    582-597, the same text).  The text that it builds line by line and
    hands to [ctx.reply] is kept as a record: the active bin, and for
    every position its key, its classification and its range.  The
    reply is not awaited; it is the result of the handler here. *)

Record StatusEntry := {
  entryKey : string;
  entryInRange : bool;
  entryLower : Z;
  entryUpper : Z
}.

Record StatusReport := {
  reportActiveBin : Z;
  reportEntries : list StatusEntry
}.

Definition statusCommand (env : nat -> Responses) (hook : World -> World)
    : M StatusReport :=
  positions <- await env hook r_getPositions EvGetPositions ;;
  activeBin <- await env hook r_getActiveBin EvGetActiveBin ;;
  ret {| reportActiveBin := binId activeBin;
         reportEntries :=
           map (fun position =>
                  {| entryKey := publicKey position;
                     entryInRange :=
                       (lowerBinId position <=? binId activeBin)
                       && (binId activeBin <=? upperBinId position);
                     entryLower := lowerBinId position;
                     entryUpper := upperBinId position |})
               positions |}.

(** ** More ways to observe runs *)

(** The error that a call to a collaborator ended with, if it did. *)
Definition outcomeError {A} (r : Outcome A) : option JsThrown :=
  match r with
  | Thrown e => Some e
  | Returned _ => None
  end.

Definition eventError (ev : Event) : option JsThrown :=
  match ev with
  | EvSend _ | EvSleep _ => None
  | EvGetPositions r => outcomeError r
  | EvGetActiveBin r => outcomeError r
  | EvGetTokenAccounts _ r => outcomeError r
  | EvGetMint _ r => outcomeError r
  | EvGetBalance r => outcomeError r
  | EvGetAccountInfo _ r => outcomeError r
  | EvRemoveLiquidity _ _ _ r => outcomeError r
  | EvSendAndConfirm _ _ r => outcomeError r
  | EvGetRoutes _ _ r => outcomeError r
  | EvExecuteRoute _ r => outcomeError r
  | EvInitPosition _ _ _ _ _ _ r => outcomeError r
  end.

Definition isCheckError (ev : Event) : bool :=
  match ev with
  | EvSend (MsgCheckError _) => true
  | _ => false
  end.

Definition isSwapFailed (ev : Event) : bool :=
  match ev with
  | EvSend (MsgSwapFailed _) => true
  | _ => false
  end.

Definition isExecuteRoute (ev : Event) : bool :=
  match ev with
  | EvExecuteRoute _ _ => true
  | _ => false
  end.

(** The two messages that end a rebalance. *)
Definition terminalMessage (ev : Event) : Prop :=
  match ev with
  | EvSend MsgCompleted => True
  | EvSend (MsgRebalanceFailed _) => True
  | _ => False
  end.

Definition notTerminal (ev : Event) : Prop := ~ terminalMessage ev.

Definition isActiveBinQuery (ev : Event) : Prop :=
  match ev with
  | EvGetActiveBin _ => True
  | _ => False
  end.

Definition notActiveBinQuery (ev : Event) : Prop := ~ isActiveBinQuery ev.

(** In every entry of the map the two flags are opposite. *)
Definition flagsOpposed (statuses : gmap string PositionStatus) : Prop :=
  forall key status,
    statuses !! key = Some status ->
    lastNotified status = negb (isInRange status).

(** The entry that an observation leaves, in the class version and, when
    it returns, in the rebalancing version. *)
Definition observedStatus (inRange : bool) : PositionStatus :=
  {| isInRange := inRange; lastNotified := negb inRange |}.

(** Every observation of the sequence finds its position recorded as it
    observes it. *)
Definition settled (obs : list Observation) (w : World) : Prop :=
  Forall (fun o =>
            positionStatuses w !! observedKey o
            = Some (observedStatus (observedInRange o))) obs.

(** What a rebalance has emitted when it ends: events that are not
    terminal messages, then [MsgCompleted] if it returns, and nothing
    more if it throws. *)
Definition endsWithCompleted {A} (m : M A) : Prop :=
  forall w,
    exists evs,
      Forall notTerminal evs /\
      match m w with
      | (w', Returned _) => trace w' = trace w ++ evs ++ [EvSend MsgCompleted]
      | (w', Thrown _) => trace w' = trace w ++ evs
      end.

(** Collaborators as in [calm], except that the native balance cannot be
    read. *)
Definition noBalance : nat -> Responses :=
  fun _ =>
    {| r_getPositions := Returned [scenarioPosition];
       r_getActiveBin :=
         Returned {| binId := 115; priceScaled := Some 2000000 |};
       r_getTokenAccounts := fun _ => Returned ["account"];
       r_getMint := fun _ => Returned 6;
       r_getBalance := Thrown (JsError "fetch failed");
       r_getAccountInfo := fun _ => Returned (Some 500);
       r_removeLiquidity := Returned (ManyTxs [1%nat; 2%nat]);
       r_sendAndConfirm := Returned "signature";
       r_getRoutes := Returned [ {| fromAmount := 500000000; toAmount := 990 |} ];
       r_executeRoute :=
         Returned {| executedFromAmount := 500000000; executedToAmount := 989 |};
       r_initPosition := Returned 3%nat;
       r_generateKeypair := "N" |}.

(** Collaborators as in [calm], except that the pool reports the active
    bin without a price. *)
Definition noPrice : nat -> Responses :=
  fun _ =>
    {| r_getPositions := Returned [scenarioPosition];
       r_getActiveBin := Returned {| binId := 115; priceScaled := None |};
       r_getTokenAccounts := fun _ => Returned ["account"];
       r_getMint := fun _ => Returned 6;
       r_getBalance := Returned 1000000000;
       r_getAccountInfo := fun _ => Returned (Some 500);
       r_removeLiquidity := Returned (ManyTxs [1%nat; 2%nat]);
       r_sendAndConfirm := Returned "signature";
       r_getRoutes := Returned [ {| fromAmount := 500000000; toAmount := 990 |} ];
       r_executeRoute :=
         Returned {| executedFromAmount := 500000000; executedToAmount := 989 |};
       r_initPosition := Returned 3%nat;
       r_generateKeypair := "N" |}.

(** * Properties *)

(** ** Running the monad *)

Lemma bind_run {A B} (m : M A) (k : A -> M B) (w : World) :
  bind m k w =
  match m w with
  | (w', Returned a) => k a w'
  | (w', Thrown e) => (w', Thrown e)
  end.
Proof. reflexivity. Qed.

Lemma bind_Returned_inv {A B} (m : M A) (k : A -> M B) w w' b :
  bind m k w = (w', Returned b) ->
  exists a w1, m w = (w1, Returned a) /\ k a w1 = (w', Returned b).
Proof.
  unfold bind. destruct (m w) as [w1 [a | e]]; intros H.
  - exists a, w1. split; [reflexivity | exact H].
  - discriminate H.
Qed.

Lemma bind_Thrown_inv {A B} (m : M A) (k : A -> M B) w w' e :
  bind m k w = (w', Thrown e) ->
  m w = (w', Thrown e) \/
  exists a w1, m w = (w1, Returned a) /\ k a w1 = (w', Thrown e).
Proof.
  unfold bind. destruct (m w) as [w1 [a | e1]]; intros H.
  - right. exists a, w1. split; [reflexivity | exact H].
  - left. injection H as -> ->. reflexivity.
Qed.

Lemma tryCatch_Returned_inv {A} (m : M A) (handler : JsThrown -> M A) w w' a :
  tryCatch m handler w = (w', Returned a) ->
  m w = (w', Returned a) \/
  exists e w1, m w = (w1, Thrown e) /\ handler e w1 = (w', Returned a).
Proof.
  unfold tryCatch. destruct (m w) as [w1 [a1 | e]]; intros H.
  - left. exact H.
  - right. exists e, w1. split; [reflexivity | exact H].
Qed.

Lemma await_run {A} env (answer : Responses -> Outcome A)
    (record : Outcome A -> Event) w :
  await env idle answer record w =
  (log (record (answer (env (clock w)))) (tick w), answer (env (clock w))).
Proof. reflexivity. Qed.

Lemma sendMessage_run (m : Message) w :
  sendMessage idle m w = (log (EvSend m) w, Returned tt).
Proof. reflexivity. Qed.

Lemma sleep_run (ms : Z) w : sleep idle ms w = (log (EvSleep ms) w, Returned tt).
Proof. reflexivity. Qed.

Lemma eval_run {A} (r : Outcome A) w : eval r w = (w, r).
Proof. reflexivity. Qed.

Lemma forOf_cons {A} (x : A) (xs : list A) (body : A -> M unit) :
  forOf (x :: xs) body = (body x ;; forOf xs body).
Proof. reflexivity. Qed.

(** ** Counting events *)

Lemma countEvents_app f (t1 t2 : list Event) :
  countEvents f (t1 ++ t2) = (countEvents f t1 + countEvents f t2)%nat.
Proof.
  induction t1 as [| ev t1 IH]; simpl; [reflexivity |].
  rewrite IH. lia.
Qed.

Lemma countEvents_none f (P : Event -> Prop) (t : list Event) :
  (forall ev, P ev -> f ev = false) -> Forall P t -> countEvents f t = 0%nat.
Proof.
  intros Hf Ht. induction Ht as [| ev t Hev _ IH]; simpl; [reflexivity |].
  rewrite (Hf ev Hev), IH. reflexivity.
Qed.

Lemma pipelineEvent_not_out key ev : pipelineEvent ev -> isOutAlert key ev = false.
Proof. destruct ev as [[] | | | | | | | | | | | |]; simpl; tauto. Qed.

Lemma pipelineEvent_not_back key ev : pipelineEvent ev -> isBackAlert key ev = false.
Proof. destruct ev as [[] | | | | | | | | | | | |]; simpl; tauto. Qed.

(** ** Extending the world *)

Lemma extends_refl P w : extends P w w.
Proof.
  repeat split; try lia. exists []. split; [symmetry; apply app_nil_r | constructor].
Qed.

Lemma extends_trans P w1 w2 w3 :
  extends P w1 w2 -> extends P w2 w3 -> extends P w1 w3.
Proof.
  intros (Hr1 & Hs1 & Hu1 & Hc1 & evs1 & Ht1 & Hp1)
         (Hr2 & Hs2 & Hu2 & Hc2 & evs2 & Ht2 & Hp2).
  repeat split; try congruence; try lia.
  exists (evs1 ++ evs2). split.
  - rewrite Ht2, Ht1. symmetry. apply app_assoc.
  - apply Forall_app. split; assumption.
Qed.

Lemma extends_weaken (P Q : Event -> Prop) w w' :
  (forall ev, P ev -> Q ev) -> extends P w w' -> extends Q w w'.
Proof.
  intros HPQ (Hr & Hs & Hu & Hc & evs & Ht & Hp).
  repeat split; try assumption.
  exists evs. split; [assumption |].
  eapply Forall_impl; eassumption.
Qed.

Lemma extends_log (P : Event -> Prop) ev w : P ev -> extends P w (log ev w).
Proof.
  intros Hev. repeat split; simpl; try lia.
  exists [ev]. split; [reflexivity | repeat constructor; assumption].
Qed.

Lemma extends_tick P w : extends P w (tick w).
Proof.
  repeat split; simpl; try lia.
  exists []. split; [symmetry; apply app_nil_r | constructor].
Qed.

Lemma extends_outAlerts key w w' :
  extends pipelineEvent w w' -> outAlerts key (trace w') = outAlerts key (trace w).
Proof.
  intros (_ & _ & _ & _ & evs & Ht & Hp). unfold outAlerts.
  rewrite Ht, countEvents_app.
  rewrite (countEvents_none _ pipelineEvent evs); [lia | | assumption].
  intros ev. apply pipelineEvent_not_out.
Qed.

Lemma extends_backAlerts key w w' :
  extends pipelineEvent w w' -> backAlerts key (trace w') = backAlerts key (trace w).
Proof.
  intros (_ & _ & _ & _ & evs & Ht & Hp). unfold backAlerts.
  rewrite Ht, countEvents_app.
  rewrite (countEvents_none _ pipelineEvent evs); [lia | | assumption].
  intros ev. apply pipelineEvent_not_back.
Qed.

(** ** What a run emits, construct by construct *)

Section Emits.

Variable env : nat -> Responses.
Variable P : Event -> Prop.

Lemma emits_ret {A} (a : A) : emits P (ret a).
Proof. intros w. apply extends_refl. Qed.

Lemma emits_throw {A} (e : JsThrown) : emits P (@throw A e).
Proof. intros w. apply extends_refl. Qed.

Lemma emits_eval {A} (r : Outcome A) : emits P (eval r).
Proof. intros w. apply extends_refl. Qed.

Lemma emits_bind {A B} (m : M A) (k : A -> M B) :
  emits P m -> (forall a, emits P (k a)) -> emits P (bind m k).
Proof.
  intros Hm Hk w. unfold worldOf. rewrite bind_run.
  specialize (Hm w). unfold worldOf in Hm.
  destruct (m w) as [w1 [a | e]]; simpl in Hm.
  - eapply extends_trans; [exact Hm | apply Hk].
  - exact Hm.
Qed.

Lemma emits_tryCatch {A} (m : M A) (handler : JsThrown -> M A) :
  emits P m -> (forall e, emits P (handler e)) -> emits P (tryCatch m handler).
Proof.
  intros Hm Hh w. unfold worldOf, tryCatch.
  specialize (Hm w). unfold worldOf in Hm.
  destruct (m w) as [w1 [a | e]]; simpl in Hm.
  - exact Hm.
  - eapply extends_trans; [exact Hm | apply Hh].
Qed.

Lemma emits_forOf {A} (xs : list A) (body : A -> M unit) :
  (forall x, emits P (body x)) -> emits P (forOf xs body).
Proof.
  intros Hbody. induction xs as [| x xs IH].
  - apply emits_ret.
  - rewrite forOf_cons. apply emits_bind; [apply Hbody | intros _; exact IH].
Qed.

Lemma emits_await {A} (answer : Responses -> Outcome A)
    (record : Outcome A -> Event) :
  (forall r, P (record r)) -> emits P (await env idle answer record).
Proof.
  intros Hrec w. unfold worldOf, await, idle. simpl.
  eapply extends_trans; [apply extends_tick | apply extends_log, Hrec].
Qed.

Lemma emits_sendMessage (m : Message) :
  P (EvSend m) -> emits P (sendMessage idle m).
Proof. intros Hm w. apply extends_log, Hm. Qed.

Lemma emits_sleep (ms : Z) : P (EvSleep ms) -> emits P (sleep idle ms).
Proof. intros Hm w. apply extends_log, Hm. Qed.

Lemma emits_generateKeypair : emits P (generateKeypair env).
Proof. intros w. apply extends_refl. Qed.

End Emits.

Lemma emits_weaken {A} (P Q : Event -> Prop) (m : M A) :
  (forall ev, P ev -> Q ev) -> emits P m -> emits Q m.
Proof. intros HPQ Hm w. eapply extends_weaken; [exact HPQ | apply Hm]. Qed.

(** One step of the proof that a function emits events of one kind. *)
Ltac event_kind :=
  first
    [ exact I
    | solve [ unfold noSwapFailure, notDeposit, notWithdraw, noStepFailure,
                earlyEvent;
              simpl; tauto ] ].

Ltac emits_step :=
  match goal with
  | |- emits _ (bind _ _) => apply emits_bind; [| intros ?]
  | |- emits _ (tryCatch _ _) => apply emits_tryCatch; [| intros ?]
  | |- emits _ (forOf _ _) => apply emits_forOf; intros ?
  | |- emits _ (await _ _ _ _) => apply emits_await; intros ?; event_kind
  | |- emits _ (sendMessage _ _) => apply emits_sendMessage; event_kind
  | |- emits _ (sleep _ _) => apply emits_sleep; event_kind
  | |- emits _ (generateKeypair _) => apply emits_generateKeypair
  | |- emits _ (ret _) => apply emits_ret
  | |- emits _ (throw _) => apply emits_throw
  | |- emits _ (eval _) => apply emits_eval
  | |- emits _ (match ?x with _ => _ end) => destruct x
  end.

Ltac emits_all := repeat emits_step.

Lemma getTokenBalances_emits env : emits balanceEvent (getTokenBalances env idle).
Proof. unfold getTokenBalances. emits_all. Qed.

Lemma removePositionLiquidity_emits env position :
  emits withdrawEvent (removePositionLiquidity env idle position).
Proof. unfold removePositionLiquidity. emits_all. Qed.

Lemma swap_emits env amount direction :
  emits swapEvent (swap env idle amount direction).
Proof. unfold swap. emits_all. Qed.

Lemma swapIfSignificant_emits env plan :
  emits swapEvent (swapIfSignificant env idle plan).
Proof.
  unfold swapIfSignificant. destruct (shouldSwap plan);
    [apply swap_emits | apply emits_ret].
Qed.

Lemma createNewPosition_emits env newPosition xAmount yAmount :
  emits pipelineEvent (createNewPosition env idle newPosition xAmount yAmount).
Proof. unfold createNewPosition. emits_all. Qed.

Lemma balanceEvent_pipeline ev : balanceEvent ev -> pipelineEvent ev.
Proof. destruct ev as [[] | | | | | | | | | | | |]; simpl; tauto. Qed.

Lemma withdrawEvent_pipeline ev : withdrawEvent ev -> pipelineEvent ev.
Proof. destruct ev as [[] | | | | | | | | | | | |]; simpl; tauto. Qed.

Lemma swapEvent_pipeline ev : swapEvent ev -> pipelineEvent ev.
Proof. destruct ev as [[] | | | | | | | | | | | |]; simpl; tauto. Qed.

Lemma rebalanceTry_emits env position :
  emits pipelineEvent (rebalanceTry env idle position).
Proof.
  unfold rebalanceTry.
  repeat first
    [ eapply emits_weaken;
      [| first [ apply getTokenBalances_emits
               | apply removePositionLiquidity_emits
               | apply swapIfSignificant_emits ] ];
      [ first [ exact balanceEvent_pipeline
              | exact withdrawEvent_pipeline
              | exact swapEvent_pipeline ] ]
    | apply createNewPosition_emits
    | emits_step ].
Qed.

Lemma rebalanceCatch_emits error : emits pipelineEvent (rebalanceCatch idle error).
Proof. unfold rebalanceCatch. emits_all. Qed.

(** A rebalance leaves the map of statuses alone and, run to its end
    with no other task interfering, leaves the flag as it found it. *)
Lemma rebalancePosition_emits env position :
  emits pipelineEvent (rebalancePosition env idle position).
Proof.
  intros w. unfold worldOf, rebalancePosition.
  destruct (isRebalancing w) eqn:Hflag.
  - apply (emits_sendMessage pipelineEvent MsgSkipping I w).
  - unfold tryFinally.
    pose proof (emits_tryCatch pipelineEvent _ _
                  (rebalanceTry_emits env position) rebalanceCatch_emits
                  (setRebalancing true w)) as H.
    unfold worldOf in H.
    destruct (tryCatch (rebalanceTry env idle position) (rebalanceCatch idle)
                (setRebalancing true w)) as [w1 r].
    simpl in *. destruct H as (Hr & Hs & Hu & Hc & evs & Ht & Hp).
    repeat split; simpl; try assumption; try congruence.
    exists evs. split; assumption.
Qed.

(** ** The rebalance planner *)

Lemma planSwap_fields (xQuantity yQuantity priceBN : Z) :
  let plan := planSwap xQuantity yQuantity priceBN in
  xValue plan = xQuantity /\
  yValue plan = (yQuantity * priceBN) ÷ 1000000 /\
  totalValue plan = xValue plan + yValue plan /\
  minSwapThreshold plan = totalValue plan ÷ 100 /\
  valueToCheck plan = (if swapYToX plan then yValue plan else xValue plan) /\
  swapYToX plan = negb (xValue plan >? yValue plan) /\
  swapAmount plan = (if swapYToX plan then yQuantity ÷ 2 else xQuantity ÷ 2).
Proof.
  unfold planSwap, BN_div.
  destruct (xQuantity >? (yQuantity * priceBN) ÷ 1000000) eqn:Hgt;
    simpl; rewrite ?Hgt; repeat split; reflexivity.
Qed.

Lemma planSwap_amount_nonneg (xQuantity yQuantity priceBN : Z) :
  0 <= xQuantity -> 0 <= yQuantity ->
  0 <= swapAmount (planSwap xQuantity yQuantity priceBN).
Proof.
  intros Hx Hy.
  destruct (planSwap_fields xQuantity yQuantity priceBN)
    as (_ & _ & _ & _ & _ & _ & ->).
  destruct (swapYToX _); apply Z.quot_pos; lia.
Qed.

(** Scenario 4 of the specification: X worth 1000, Y worth 400. *)
Example planSwap_scenario4 :
  let plan := planSwap 1000 200 2000000 in
  xValue plan = 1000 /\ yValue plan = 400 /\ totalValue plan = 1400 /\
  minSwapThreshold plan = 14 /\ swapYToX plan = false /\
  swapAmount plan = 500 /\ shouldSwap plan = true.
Proof. repeat split. Qed.

(** Scenario 5 of the specification: both sides worth 10, then 1. *)
Example planSwap_scenario5 :
  shouldSwap (planSwap 10 10 1000000) = true /\
  swapAmount (planSwap 10 10 1000000) = 5 /\
  shouldSwap (planSwap 1 1 1000000) = false /\
  swapAmount (planSwap 1 1 1000000) = 0.
Proof. repeat split. Qed.

(** ** The swap, run

    What [swap] does, answer by answer; [failed] is its [catch] block. *)
Lemma swap_run env amount direction w :
  swap env idle amount direction w =
  let failed error w1 :=
    match messageOrUnknown error with
    | Returned errorMessage =>
        (log (EvSend (MsgSwapFailed errorMessage)) w1, Thrown error)
    | Thrown typeError => (w1, Thrown typeError)
    end in
  match r_getRoutes (env (clock w)) with
  | Thrown error =>
      failed error (log (EvGetRoutes amount direction (Thrown error)) (tick w))
  | Returned [] =>
      failed (JsError "No routes found for the swap")
        (log (EvGetRoutes amount direction (Returned [])) (tick w))
  | Returned (bestRoute :: others) =>
      let w1 :=
        log (EvSend (MsgExecutingSwap bestRoute direction))
          (log (EvGetRoutes amount direction (Returned (bestRoute :: others)))
             (tick w)) in
      match r_executeRoute (env (S (clock w))) with
      | Thrown error =>
          failed error (log (EvExecuteRoute bestRoute (Thrown error)) (tick w1))
      | Returned executedRoute =>
          (log (EvSend (MsgSwapCompleted executedRoute direction))
             (log (EvExecuteRoute bestRoute (Returned executedRoute)) (tick w1)),
           Returned tt)
      end
  end.
Proof.
  unfold swap, tryCatch. rewrite bind_run, await_run.
  destruct (r_getRoutes (env (clock w))) as [[| bestRoute others] | error];
    cbv zeta.
  - unfold throw at 1. rewrite bind_run, eval_run.
    destruct (messageOrUnknown _); reflexivity.
  - rewrite bind_run, sendMessage_run, bind_run, await_run. simpl clock.
    destruct (r_executeRoute (env (S (clock w)))) as [executedRoute | error].
    + rewrite sendMessage_run. reflexivity.
    + rewrite bind_run, eval_run.
      destruct (messageOrUnknown error); reflexivity.
  - rewrite bind_run, eval_run. destruct (messageOrUnknown error); reflexivity.
Qed.

(** C5.  For balances that are not negative, the planner skips the swap
    exactly when the value of the side to sell is at most a hundredth
    of the total value (integer division) or the amount to sell is
    zero, where the values, the side and the amount are those that the
    balances and the price give: X is worth its quantity, Y its
    quantity times the scaled price over [10^6], the side worth more is
    sold (Y on a tie), for half of its quantity.  When it skips, the
    swap step does nothing at all; otherwise the step is the call of
    [swap] with that amount and that direction, which begins by asking
    the swap service for routes for them. *)
Theorem swap_skipped_iff_below_threshold (xQuantity yQuantity priceBN : Z) :
  0 <= xQuantity -> 0 <= yQuantity ->
  let xWorth := xQuantity in
  let yWorth := (yQuantity * priceBN) ÷ 1000000 in
  let totalWorth := xWorth + yWorth in
  let sellsY := negb (xWorth >? yWorth) in
  let sellSideValue := if sellsY then yWorth else xWorth in
  let sellAmount := if sellsY then yQuantity ÷ 2 else xQuantity ÷ 2 in
  let skipped := sellSideValue <= totalWorth ÷ 100 \/ sellAmount = 0 in
  let plan := planSwap xQuantity yQuantity priceBN in
  (shouldSwap plan = false <-> skipped) /\
  (forall env hook w,
     skipped -> swapIfSignificant env hook plan w = (w, Returned tt)) /\
  (forall env hook w,
     ~ skipped ->
     swapIfSignificant env hook plan w = swap env hook sellAmount sellsY w) /\
  (forall env w,
     ~ skipped ->
     exists r evs,
       trace (worldOf (swapIfSignificant env idle plan w)) =
       trace w ++ EvGetRoutes sellAmount sellsY r :: evs).
Proof.
  intros Hx Hy xWorth yWorth totalWorth sellsY sellSideValue sellAmount
    skipped plan.
  pose proof (planSwap_amount_nonneg xQuantity yQuantity priceBN Hx Hy) as Hamount.
  destruct (planSwap_fields xQuantity yQuantity priceBN)
    as (HxValue & HyValue & Htotal & Hthreshold & Hcheck & Hdirection & Hsell).
  fold plan in Hamount, HxValue, HyValue, Htotal, Hthreshold, Hcheck,
    Hdirection, Hsell.
  assert (swapYToX plan = sellsY) as Hside
    by (rewrite Hdirection, HxValue, HyValue; reflexivity).
  assert (swapAmount plan = sellAmount) as Hquantity
    by (rewrite Hsell, Hside; reflexivity).
  assert (valueToCheck plan = sellSideValue) as Hvalue
    by (rewrite Hcheck, Hside, HxValue, HyValue; reflexivity).
  assert (minSwapThreshold plan = totalWorth ÷ 100) as Hhundredth
    by (rewrite Hthreshold, Htotal, HxValue, HyValue; reflexivity).
  assert (shouldSwap plan = false <-> skipped) as Hiff.
  { unfold shouldSwap, skipped.
    rewrite Hhundredth, Hvalue, <- Hquantity.
    rewrite andb_false_iff, !Z.gtb_ltb, !Z.ltb_ge. lia. }
  split; [exact Hiff |]. split; [| split].
  - intros env hook w Hskip. apply Hiff in Hskip.
    unfold swapIfSignificant. rewrite Hskip. reflexivity.
  - intros env hook w Hswap.
    assert (shouldSwap plan = true) as Hdo
      by (destruct (shouldSwap plan); [reflexivity | tauto]).
    unfold swapIfSignificant. rewrite Hdo, Hquantity, Hside. reflexivity.
  - intros env w Hswap.
    assert (shouldSwap plan = true) as Hdo
      by (destruct (shouldSwap plan); [reflexivity | tauto]).
    unfold swapIfSignificant, worldOf. rewrite Hdo, Hquantity, Hside, swap_run.
    cbv zeta.
    destruct (r_getRoutes (env (clock w))) as [[| bestRoute others] | error];
      try destruct (r_executeRoute _); try destruct (messageOrUnknown _);
      simpl; do 2 eexists; rewrite <- ?app_assoc; simpl; reflexivity.
Qed.

Lemma swap_skipped_iff_below_threshold_witness :
  (0 <= 1000 /\ 0 <= 200) /\
  (shouldSwap (planSwap 1000 200 2000000) = false <->
   1000 <= (1000 + (200 * 2000000) ÷ 1000000) ÷ 100 \/ 1000 ÷ 2 = 0) /\
  swapIfSignificant calm idle (planSwap 1000 200 2000000) initialWorld
  = swap calm idle (1000 ÷ 2) false initialWorld.
Proof.
  split; [lia |].
  pose proof (swap_skipped_iff_below_threshold 1000 200 2000000) as H.
  cbv zeta in H.
  destruct H as (Hiff & _ & Hswap & _); [lia | lia |].
  split; [exact Hiff |].
  apply (Hswap calm idle initialWorld).
  intros [Hlow | Hzero]; [revert Hlow | revert Hzero]; vm_compute;
    [intros Hlow; apply Hlow; reflexivity | discriminate].
Defined.

(** C6.  The planner sells the side that is worth more and halves its
    quantity: asset X, [xQuantity / 2], when [xValue > yValue]; asset Y,
    [yQuantity / 2], otherwise, ties included.  The value of Y is
    [yQuantity * priceBN / 10^6] in integers, [priceBN] being the price
    scaled by [10^6] and floored. *)
Theorem planSwap_sells_half_of_larger_side (xQuantity yQuantity priceBN : Z) :
  let plan := planSwap xQuantity yQuantity priceBN in
  xValue plan = xQuantity /\
  yValue plan = (yQuantity * priceBN) ÷ 1000000 /\
  (xValue plan > yValue plan ->
     swapYToX plan = false /\ swapAmount plan = xQuantity ÷ 2) /\
  (xValue plan <= yValue plan ->
     swapYToX plan = true /\ swapAmount plan = yQuantity ÷ 2).
Proof.
  intros plan.
  destruct (planSwap_fields xQuantity yQuantity priceBN)
    as (Hx & Hy & _ & _ & _ & Hdir & Hamount).
  fold plan in Hx, Hy, Hdir, Hamount.
  split; [exact Hx |]. split; [exact Hy |].
  rewrite Hamount, Hdir. split; intros Hcmp.
  - assert ((xValue plan >? yValue plan) = true) as -> by (apply Z.gtb_lt; lia).
    split; reflexivity.
  - assert ((xValue plan >? yValue plan) = false) as ->
      by (rewrite Z.gtb_ltb; apply Z.ltb_ge; lia).
    split; reflexivity.
Qed.

(** ** The rebalance lock *)

(** C3.  A call of [rebalancePosition] that finds the flag down leaves
    it down when it completes, whether it returns or throws, whatever
    the collaborators answer and whatever the other tasks do during its
    suspensions. *)
Theorem rebalancePosition_releases_lock env hook position w w'
    (outcome : Outcome unit) :
  isRebalancing w = false ->
  rebalancePosition env hook position w = (w', outcome) ->
  isRebalancing w' = false.
Proof.
  intros Hflag Hrun. unfold rebalancePosition in Hrun. rewrite Hflag in Hrun.
  unfold tryFinally in Hrun.
  destruct (tryCatch (rebalanceTry env hook position) (rebalanceCatch hook)
              (setRebalancing true w)) as [w1 r].
  injection Hrun as <- _. reflexivity.
Qed.

Lemma rebalancePosition_releases_lock_witness :
  isRebalancing initialWorld = false /\
  isRebalancing
    (worldOf (rebalancePosition noConfirmation idle scenarioPosition initialWorld))
  = false.
Proof.
  split; [reflexivity |].
  apply (rebalancePosition_releases_lock noConfirmation idle scenarioPosition
           initialWorld _
           (outcomeOf (rebalancePosition noConfirmation idle scenarioPosition
                         initialWorld)));
    [reflexivity | apply surjective_pairing].
Defined.

(** ** A monitoring cycle whose first queries fail *)

(** What [checkPositions] does when the list of positions cannot be
    read: the error is caught and reported. *)
Lemma cycle_without_positions env w e
    (body : Z -> Position -> M unit) :
  r_getPositions (env (clock w)) = Thrown e ->
  tryCatch
    (positions <- await env idle r_getPositions EvGetPositions ;;
     activeBin <- await env idle r_getActiveBin EvGetActiveBin ;;
     forOf positions (body (binId activeBin)))
    (fun error => sendMessage idle (MsgCheckError (checkErrorMessage error))) w
  = (log (EvSend (MsgCheckError (checkErrorMessage e)))
       (log (EvGetPositions (Thrown e)) (tick w)),
     Returned tt).
Proof.
  intros Hpos. unfold tryCatch, bind, await, sendMessage, idle.
  simpl. rewrite Hpos. reflexivity.
Qed.

(** The same when the active bin cannot be read. *)
Lemma cycle_without_activeBin env w positions e
    (body : Z -> Position -> M unit) :
  r_getPositions (env (clock w)) = Returned positions ->
  r_getActiveBin (env (S (clock w))) = Thrown e ->
  tryCatch
    (positions <- await env idle r_getPositions EvGetPositions ;;
     activeBin <- await env idle r_getActiveBin EvGetActiveBin ;;
     forOf positions (body (binId activeBin)))
    (fun error => sendMessage idle (MsgCheckError (checkErrorMessage error))) w
  = (log (EvSend (MsgCheckError (checkErrorMessage e)))
       (log (EvGetActiveBin (Thrown e))
          (tick (log (EvGetPositions (Returned positions)) (tick w)))),
     Returned tt).
Proof.
  intros Hpos Hbin. unfold tryCatch, bind, await, sendMessage, idle.
  simpl. rewrite Hpos. simpl. rewrite Hbin. reflexivity.
Qed.

(** C8, as the specification states it, fails for a failure that is
    not an [Error] object.  The query of the positions is rejected with
    a plain object whose [message] describes the failure; in both
    versions the notification carries the fixed text "Unknown error
    occurred", and the description is lost. *)
Lemma query_failure_description_counterexample :
  let failure := JsOther (Some "429 Too Many Requests") in
  r_getPositions (plainRejection (clock initialWorld)) = Thrown failure /\
  trace (worldOf (MeteoraMonitor.checkPositions plainRejection idle initialWorld))
  = [EvGetPositions (Thrown failure);
     EvSend (MsgCheckError "Unknown error occurred")] /\
  trace (worldOf (checkPositions plainRejection idle initialWorld))
  = [EvGetPositions (Thrown failure);
     EvSend (MsgCheckError "Unknown error occurred")].
Proof. repeat split. Qed.

(** C8, amended.  When the query of the positions, or the query of the
    active bin that follows it, fails at the start of a cycle, the
    cycle ends there: in both versions [checkPositions] returns, the
    only message sent is one error notification, and the map of
    statuses (and the rebalance flag) is what it was.  The notification
    carries the [message] of the failure when the failure is an [Error]
    object, and the fixed text "Unknown error occurred" otherwise. *)
Theorem query_failure_aborts_cycle env w e :
  r_getPositions (env (clock w)) = Thrown e \/
  ((exists positions, r_getPositions (env (clock w)) = Returned positions) /\
   r_getActiveBin (env (S (clock w))) = Thrown e) ->
  let description :=
    match e with
    | JsError message => message
    | JsOther _ | JsNull | JsUndefined => "Unknown error occurred"
    end in
  let aborted (run : World * Outcome unit) :=
    outcomeOf run = Returned tt /\
    positionStatuses (worldOf run) = positionStatuses w /\
    isRebalancing (worldOf run) = isRebalancing w /\
    trace (worldOf run) =
      trace w
      ++ match r_getPositions (env (clock w)) with
         | Thrown _ => [EvGetPositions (Thrown e)]
         | Returned positions =>
             [EvGetPositions (Returned positions); EvGetActiveBin (Thrown e)]
         end
      ++ [EvSend (MsgCheckError description)] in
  aborted (MeteoraMonitor.checkPositions env idle w) /\
  aborted (checkPositions env idle w).
Proof.
  intros Hfail description aborted. unfold aborted.
  assert (checkErrorMessage e = description) as Htext
    by (destruct e; reflexivity).
  unfold MeteoraMonitor.checkPositions, checkPositions.
  destruct Hfail as [Hpos | [[positions Hpos] Hbin]].
  - rewrite !(cycle_without_positions env w e _ Hpos), Hpos, Htext. simpl.
    rewrite <- !app_assoc. repeat split; reflexivity.
  - rewrite !(cycle_without_activeBin env w positions e _ Hpos Hbin), Hpos, Htext.
    simpl. rewrite <- !app_assoc. repeat split; reflexivity.
Qed.

Lemma query_failure_aborts_cycle_witness :
  r_getPositions (noPositions (clock initialWorld))
    = Thrown (JsError "429 Too Many Requests") /\
  outcomeOf (checkPositions noPositions idle initialWorld) = Returned tt /\
  positionStatuses (worldOf (checkPositions noPositions idle initialWorld))
    = positionStatuses initialWorld /\
  trace (worldOf (checkPositions noPositions idle initialWorld))
  = [EvGetPositions (Thrown (JsError "429 Too Many Requests"));
     EvSend (MsgCheckError "429 Too Many Requests")].
Proof.
  split; [reflexivity |].
  pose proof (query_failure_aborts_cycle noPositions initialWorld
                (JsError "429 Too Many Requests") (or_introl eq_refl)) as H.
  destruct H as [_ (Hout & Hmap & _ & Htrace)].
  split; [exact Hout |]. split; [exact Hmap | exact Htrace].
Defined.

(** ** One observation of a position *)

Lemma outAlerts_snoc key ev (t : list Event) :
  outAlerts key (t ++ [ev]) =
  (outAlerts key t + (if isOutAlert key ev then 1 else 0))%nat.
Proof. unfold outAlerts. rewrite countEvents_app. simpl. lia. Qed.

Lemma backAlerts_snoc key ev (t : list Event) :
  backAlerts key (t ++ [ev]) =
  (backAlerts key t + (if isBackAlert key ev then 1 else 0))%nat.
Proof. unfold backAlerts. rewrite countEvents_app. simpl. lia. Qed.

Lemma notifiedAt_insert key key' status statuses w :
  notifiedAt key (setStatuses (<[key' := status]> statuses) w) =
  if String.eqb key' key
  then lastNotified status
  else lastNotified (default unseenStatus (statuses !! key)).
Proof.
  unfold notifiedAt. simpl. rewrite lookup_insert.
  destruct (String.eqb_spec key' key) as [-> | Hne].
  - rewrite decide_True by reflexivity. reflexivity.
  - rewrite decide_False by assumption. reflexivity.
Qed.

(** The class version, run for one position. *)
Lemma monitor_checkPosition_run activeBinId position w :
  let key := publicKey position in
  let inRange := inRangeAt activeBinId position in
  let status := default unseenStatus (positionStatuses w !! key) in
  MeteoraMonitor.checkPosition idle activeBinId position w =
  if negb inRange && negb (lastNotified status) then
    (setStatuses
       (<[key := {| isInRange := inRange; lastNotified := true |}]>
          (positionStatuses w))
       (log (EvSend (generateOutOfRangeMessage position activeBinId
                       (lowerBinId position) (upperBinId position))) w),
     Returned tt)
  else if inRange && lastNotified status then
    (setStatuses
       (<[key := {| isInRange := inRange; lastNotified := false |}]>
          (positionStatuses w))
       (log (EvSend (MsgBackInRange key activeBinId)) w),
     Returned tt)
  else
    (setStatuses
       (<[key := {| isInRange := inRange; lastNotified := lastNotified status |}]>
          (positionStatuses w)) w,
     Returned tt).
Proof.
  intros key inRange status.
  unfold MeteoraMonitor.checkPosition. fold key. fold (inRangeAt activeBinId position).
  fold inRange. cbv zeta. fold status.
  destruct inRange, (lastNotified status); reflexivity.
Qed.

(** The rebalancing version, run for one position. *)
Lemma checkPosition_run env activeBinId position w :
  let key := publicKey position in
  let inRange := inRangeAt activeBinId position in
  let status := default unseenStatus (positionStatuses w !! key) in
  checkPosition env idle activeBinId position w =
  if negb inRange && negb (lastNotified status) then
    match
      rebalancePosition env idle position
        (log (EvSend (generateOutOfRangeMessage position activeBinId
                        (lowerBinId position) (upperBinId position))) w)
    with
    | (w1, Returned _) =>
        (setStatuses
           (<[key := {| isInRange := inRange; lastNotified := true |}]>
              (positionStatuses w1)) w1,
         Returned tt)
    | (w1, Thrown e) => (w1, Thrown e)
    end
  else if inRange && lastNotified status then
    (setStatuses
       (<[key := {| isInRange := inRange; lastNotified := false |}]>
          (positionStatuses w))
       (log (EvSend (MsgBackInRange key activeBinId)) w),
     Returned tt)
  else
    (setStatuses
       (<[key := {| isInRange := inRange; lastNotified := lastNotified status |}]>
          (positionStatuses w)) w,
     Returned tt).
Proof.
  intros key inRange status.
  unfold checkPosition. fold key. fold (inRangeAt activeBinId position).
  fold inRange. cbv zeta. fold status.
  destruct inRange, (lastNotified status); try reflexivity.
  simpl. rewrite !bind_run, sendMessage_run. cbv beta iota.
  rewrite bind_run.
  destruct (rebalancePosition env idle position _) as [w1 [[] | e]];
    reflexivity.
Qed.

Lemma isOutAlert_generated key position activeBinId lowerBin upperBin :
  isOutAlert key
    (EvSend (generateOutOfRangeMessage position activeBinId lowerBin upperBin))
  = String.eqb (publicKey position) key.
Proof. reflexivity. Qed.

Lemma isBackAlert_generated key position activeBinId lowerBin upperBin :
  isBackAlert key
    (EvSend (generateOutOfRangeMessage position activeBinId lowerBin upperBin))
  = false.
Proof. reflexivity. Qed.

(** The effect of one observation, class version: it never throws. *)
Lemma monitor_observationEffect key (o : Observation) w :
  let run := MeteoraMonitor.checkPosition idle (fst o) (snd o) w in
  outcomeOf run = Returned tt /\
  observationEffect key o w (worldOf run) false.
Proof.
  destruct o as [activeBinId position]. simpl.
  rewrite monitor_checkPosition_run.
  unfold observationEffect, observedKey, observedInRange. simpl.
  fold (notifiedAt (publicKey position) w).
  destruct (String.eqb_spec (publicKey position) key) as [<- | Hne].
  - destruct (inRangeAt activeBinId position),
      (notifiedAt (publicKey position) w) eqn:Hn; simpl;
      rewrite ?outAlerts_snoc, ?backAlerts_snoc, ?notifiedAt_insert,
        ?isOutAlert_generated, ?isBackAlert_generated, ?String.eqb_refl;
      simpl; rewrite ?String.eqb_refl;
      repeat split; try lia; try reflexivity; try assumption.
  - apply String.eqb_neq in Hne.
    destruct (inRangeAt activeBinId position),
      (notifiedAt (publicKey position) w); simpl;
      rewrite ?outAlerts_snoc, ?backAlerts_snoc, ?notifiedAt_insert,
        ?isOutAlert_generated, ?isBackAlert_generated, ?Hne;
      simpl; rewrite ?Hne; repeat split; lia.
Qed.
Lemma notifiedAt_same_statuses key w w' :
  positionStatuses w' = positionStatuses w -> notifiedAt key w' = notifiedAt key w.
Proof. unfold notifiedAt. intros ->. reflexivity. Qed.

Lemma observationEffect_checkPosition env key (o : Observation) w :
  let run := checkPosition env idle (fst o) (snd o) w in
  observationEffect key o w (worldOf run) (isThrown (outcomeOf run)).
Proof.
  destruct o as [activeBinId position]. simpl.
  rewrite checkPosition_run.
  unfold observationEffect, observedKey, observedInRange. simpl.
  fold (notifiedAt (publicKey position) w).
  set (alert := EvSend (generateOutOfRangeMessage position activeBinId
                          (lowerBinId position) (upperBinId position))).
  pose proof (rebalancePosition_emits env position (log alert w)) as Hext.
  unfold worldOf in Hext.
  destruct (rebalancePosition env idle position (log alert w)) as [w1 r].
  simpl in Hext.
  pose proof (extends_outAlerts key _ _ Hext) as Hout.
  pose proof (extends_backAlerts key _ _ Hext) as Hback.
  destruct Hext as (_ & Hst & _).
  simpl in Hout, Hback, Hst.
  rewrite outAlerts_snoc in Hout. rewrite backAlerts_snoc in Hback.
  subst alert. rewrite isOutAlert_generated in Hout.
  rewrite isBackAlert_generated in Hback.
  pose proof (notifiedAt_same_statuses key _ _ Hst) as Hnot.
  destruct (String.eqb_spec (publicKey position) key) as [<- | Hne].
  - destruct (inRangeAt activeBinId position),
      (notifiedAt (publicKey position) w) eqn:Hn; simpl;
      try destruct r as [[] | e]; simpl;
      rewrite ?outAlerts_snoc, ?backAlerts_snoc, ?notifiedAt_insert,
        ?String.eqb_refl;
      simpl; rewrite ?String.eqb_refl;
      repeat split; try lia; try reflexivity; try assumption.
  - apply String.eqb_neq in Hne.
    destruct (inRangeAt activeBinId position),
      (notifiedAt (publicKey position) w); simpl;
      try destruct r as [[] | e]; simpl;
      rewrite ?outAlerts_snoc, ?backAlerts_snoc, ?notifiedAt_insert, ?Hne;
      simpl; rewrite ?Hne, ?Hst;
      repeat split; try lia; try reflexivity; try exact Hnot.
Qed.

(** ** The first observation of a position that is out of range *)

(** C1, as the specification states it, fails on scenario 2: range
    [100, 110], active bin 115, nothing known of the position.  Both
    versions send the out-of-range alert on the first poll, and none on
    the second. *)
Lemma first_observation_lag_counterexample :
  let first := worldOf (MeteoraMonitor.checkPositions calm idle initialWorld) in
  let second := worldOf (MeteoraMonitor.checkPositions calm idle first) in
  let first' := worldOf (checkPositions calm idle initialWorld) in
  let second' := worldOf (checkPositions calm idle first') in
  positionStatuses initialWorld !! "P" = None /\
  inRangeAt 115 scenarioPosition = false /\
  outAlerts "P" (trace initialWorld) = 0%nat /\
  outAlerts "P" (trace first) = 1%nat /\
  outAlerts "P" (trace second) = 1%nat /\
  outAlerts "P" (trace first') = 1%nat /\
  outAlerts "P" (trace second') = 1%nat.
Proof. vm_compute. repeat split. Qed.

(** Scenarios 1 and 3 of the specification.  With the active bin at 105
    the position is in range and nothing is sent; when the active bin
    comes back to 105 after the alert of scenario 2, one back-in-range
    alert is sent and the position is no longer notified. *)
Example in_range_scenarios :
  let inRange := fun _ : nat => calmAt 105 in
  let quiet := worldOf (MeteoraMonitor.checkPositions inRange idle initialWorld) in
  let alerted := worldOf (MeteoraMonitor.checkPositions calm idle initialWorld) in
  let back := worldOf (MeteoraMonitor.checkPositions inRange idle alerted) in
  let back' := worldOf (MeteoraMonitor.checkPositions inRange idle back) in
  outAlerts "P" (trace quiet) = 0%nat /\
  positionStatuses quiet !! "P"
    = Some {| isInRange := true; lastNotified := false |} /\
  backAlerts "P" (trace alerted) = 0%nat /\
  backAlerts "P" (trace back) = 1%nat /\
  positionStatuses back !! "P"
    = Some {| isInRange := true; lastNotified := false |} /\
  backAlerts "P" (trace back') = 1%nat.
Proof. vm_compute. repeat split. Qed.

(** C1, amended.  A position that has no entry in the map and is out of
    range at its first observation gets one out-of-range alert at that
    very observation, and its entry is stored out of range and notified
    (in the rebalancing version, once the rebalance that the alert
    starts has returned).  At the next observation, if the position is
    still out of range, no out-of-range alert is sent and the entry
    stays notified. *)
Theorem first_observation_alerts_at_once env activeBinId position w :
  positionStatuses w !! publicKey position = None ->
  inRangeAt activeBinId position = false ->
  let key := publicKey position in
  let notifiedOut := {| isInRange := false; lastNotified := true |} in
  let first := MeteoraMonitor.checkPosition idle activeBinId position w in
  let first' := checkPosition env idle activeBinId position w in
  (outcomeOf first = Returned tt /\
   outAlerts key (trace (worldOf first)) = S (outAlerts key (trace w)) /\
   positionStatuses (worldOf first) !! key = Some notifiedOut) /\
  (outAlerts key (trace (worldOf first')) = S (outAlerts key (trace w)) /\
   (outcomeOf first' = Returned tt ->
    positionStatuses (worldOf first') !! key = Some notifiedOut)) /\
  (forall env2 activeBinId2 position2 w2,
     publicKey position2 = key ->
     inRangeAt activeBinId2 position2 = false ->
     positionStatuses w2 !! key = Some notifiedOut ->
     let second := MeteoraMonitor.checkPosition idle activeBinId2 position2 w2 in
     let second' := checkPosition env2 idle activeBinId2 position2 w2 in
     (outcomeOf second = Returned tt /\
      outAlerts key (trace (worldOf second)) = outAlerts key (trace w2) /\
      positionStatuses (worldOf second) !! key = Some notifiedOut) /\
     (outcomeOf second' = Returned tt /\
      outAlerts key (trace (worldOf second')) = outAlerts key (trace w2) /\
      positionStatuses (worldOf second') !! key = Some notifiedOut)).
Proof.
  intros Hnew Hout key notifiedOut first first'.
  subst key notifiedOut first first'.
  split; [| split].
  - rewrite monitor_checkPosition_run. cbv zeta.
    rewrite Hnew, Hout. simpl.
    rewrite outAlerts_snoc, isOutAlert_generated.
    rewrite String.eqb_refl, lookup_insert_eq.
    repeat split; lia.
  - rewrite checkPosition_run. cbv zeta.
    rewrite Hnew, Hout. simpl.
    set (alert := EvSend (generateOutOfRangeMessage position activeBinId
                            (lowerBinId position) (upperBinId position))).
    pose proof (rebalancePosition_emits env position (log alert w)) as Hext.
    unfold worldOf in Hext.
    destruct (rebalancePosition env idle position (log alert w)) as [w1 r].
    simpl in Hext.
    pose proof (extends_outAlerts (publicKey position) _ _ Hext) as Hcount.
    simpl in Hcount. rewrite outAlerts_snoc in Hcount.
    subst alert. rewrite isOutAlert_generated in Hcount.
    rewrite String.eqb_refl in Hcount.
    destruct r as [[] | e]; simpl.
    + split; [lia |]. intros _. apply lookup_insert_eq.
    + split; [lia | discriminate].
  - intros env2 activeBinId2 position2 w2 Hkey Hout2 Hentry second second'.
    subst second second'.
    rewrite monitor_checkPosition_run, checkPosition_run. cbv zeta.
    rewrite Hkey, Hentry, Hout2. simpl.
    rewrite lookup_insert_eq. repeat split; reflexivity.
Qed.

Lemma first_observation_alerts_at_once_witness :
  (positionStatuses initialWorld !! publicKey scenarioPosition = None /\
   inRangeAt 115 scenarioPosition = false) /\
  outAlerts (publicKey scenarioPosition)
    (trace (worldOf (checkPosition calm idle 115 scenarioPosition initialWorld)))
  = S (outAlerts (publicKey scenarioPosition) (trace initialWorld)).
Proof.
  split; [split; reflexivity |].
  pose proof (first_observation_alerts_at_once calm 115 scenarioPosition
                initialWorld eq_refl eq_refl) as H.
  destruct H as (_ & (Hcount & _) & _). exact Hcount.
Defined.

(** ** A cycle is a sequence of observations *)

(** The observations that a cycle makes when it has read the positions
    and the active bin. *)
Lemma forOf_observes (body : Z -> Position -> M unit) activeBinId
    (positions : list Position) w :
  exists n,
    (n <= length positions)%nat /\
    worldOf (forOf positions (body activeBinId) w) =
      observeAll body (map (pair activeBinId) (take n positions)) w /\
    (isThrown (outcomeOf (forOf positions (body activeBinId) w)) = false ->
     n = length positions).
Proof.
  revert w. induction positions as [| position positions IH]; intros w.
  - exists 0%nat. repeat split. simpl. lia.
  - rewrite forOf_cons. unfold worldOf, outcomeOf. rewrite bind_run.
    destruct (body activeBinId position w) as [w1 [[] | e]] eqn:Hbody.
    + destruct (IH w1) as (n & Hn & Hworld & Hall).
      exists (S n). simpl. rewrite Hbody. simpl.
      split; [lia |]. split; [exact Hworld |].
      intros Hret. rewrite (Hall Hret). reflexivity.
    + exists 1%nat. simpl. rewrite Hbody. simpl.
      split; [lia |]. split; [reflexivity | discriminate].
Qed.

(** A cycle of the class version observes every position that the pool
    reports, in order. *)
Lemma monitor_cycle_observes env w positions activeBin :
  r_getPositions (env (clock w)) = Returned positions ->
  r_getActiveBin (env (S (clock w))) = Returned activeBin ->
  worldOf (MeteoraMonitor.checkPositions env idle w) =
  observeAll (MeteoraMonitor.checkPosition idle)
    (map (pair (binId activeBin)) positions)
    (log (EvGetActiveBin (Returned activeBin))
       (tick (log (EvGetPositions (Returned positions)) (tick w)))).
Proof.
  intros Hpos Hbin. unfold MeteoraMonitor.checkPositions, worldOf, tryCatch.
  rewrite bind_run, await_run, Hpos, bind_run, await_run. simpl clock.
  rewrite Hbin. cbv zeta.
  match goal with
  | |- context [forOf positions ?body ?w0] =>
      destruct (forOf_observes (MeteoraMonitor.checkPosition idle)
                  (binId activeBin) positions w0) as (n & _ & Hworld & Hall);
      assert (outcomeOf (forOf positions body w0) = Returned tt) as Hret
  end.
  { clear. match goal with |- outcomeOf (forOf _ _ ?w0) = _ => generalize w0 end.
    induction positions as [| position positions IH]; intros w0; [reflexivity |].
    rewrite forOf_cons. unfold outcomeOf. rewrite bind_run.
    destruct (monitor_observationEffect "" (binId activeBin, position) w0)
      as [Hout _]. simpl in Hout. unfold outcomeOf in Hout.
    destruct (MeteoraMonitor.checkPosition idle (binId activeBin) position w0)
      as [w1 r]. simpl in Hout. subst r. apply IH. }
  rewrite Hret in Hall. specialize (Hall eq_refl). subst n.
  rewrite firstn_all in Hworld. unfold worldOf, outcomeOf in *.
  destruct (forOf positions _ _) as [w1 r]. simpl in *. subst r. exact Hworld.
Qed.

(** A cycle of the rebalancing version observes the positions in order,
    up to the first observation that throws; it reports that error and
    ends. *)
Lemma cycle_observes env w positions activeBin :
  r_getPositions (env (clock w)) = Returned positions ->
  r_getActiveBin (env (S (clock w))) = Returned activeBin ->
  exists n,
    (n <= length positions)%nat /\
    let observed :=
      observeAll (checkPosition env idle)
        (map (pair (binId activeBin)) (take n positions))
        (log (EvGetActiveBin (Returned activeBin))
           (tick (log (EvGetPositions (Returned positions)) (tick w)))) in
    worldOf (checkPositions env idle w) = observed \/
    exists error,
      worldOf (checkPositions env idle w) =
      log (EvSend (MsgCheckError (checkErrorMessage error))) observed.
Proof.
  intros Hpos Hbin. unfold checkPositions, worldOf, tryCatch.
  rewrite bind_run, await_run, Hpos, bind_run, await_run. simpl clock.
  rewrite Hbin. cbv zeta.
  match goal with
  | |- context [forOf positions _ ?w0] =>
      destruct (forOf_observes (checkPosition env idle)
                  (binId activeBin) positions w0) as (n & Hn & Hworld & _)
  end.
  exists n. split; [exact Hn |]. unfold worldOf in Hworld.
  destruct (forOf positions _ _) as [w1 [[] | error]]; simpl in Hworld.
  - left. exact Hworld.
  - right. exists error. rewrite sendMessage_run. simpl. rewrite Hworld.
    reflexivity.
Qed.

(** ** Sequences of observations *)

Section Streaks.

Variable body : Z -> Position -> M unit.

Hypothesis body_effect : forall key (o : Observation) w,
  observationEffect key o w
    (worldOf (body (fst o) (snd o) w))
    (isThrown (outcomeOf (body (fst o) (snd o) w))).

Lemma outAlerts_in_streak key (obs : list Observation) w :
  outOfRangeStreak key obs ->
  (outAlerts key (trace (observeAll body obs w))
   <= outAlerts key (trace w)
      + (if notifiedAt key w then 0 else 1)
      + thrownObservations key body obs w)%nat.
Proof.
  intros Hstreak. revert w.
  induction Hstreak as [| o obs Ho _ IH]; intros w; simpl; [lia |].
  specialize (IH (worldOf (body (fst o) (snd o) w))).
  pose proof (body_effect key o w) as Heff. unfold observationEffect in Heff.
  destruct (String.eqb_spec (observedKey o) key) as [Hkey | Hne].
  - rewrite (Ho Hkey) in Heff.
    destruct Heff as (Hout & _ & Hnot).
    destruct (isThrown _); simpl.
    + destruct Hnot as [Hn Hn']. rewrite Hn in *. rewrite Hn' in IH. lia.
    + rewrite Hnot in IH. lia.
  - destruct Heff as (Hout & _ & Hnot). rewrite Hnot in IH.
    rewrite andb_false_r. lia.
Qed.

Lemma backAlerts_in_streak key (obs : list Observation) w :
  inRangeStreak key obs ->
  (backAlerts key (trace (observeAll body obs w))
   <= backAlerts key (trace w) + (if notifiedAt key w then 1 else 0))%nat.
Proof.
  intros Hstreak. revert w.
  induction Hstreak as [| o obs Ho _ IH]; intros w; simpl; [lia |].
  specialize (IH (worldOf (body (fst o) (snd o) w))).
  pose proof (body_effect key o w) as Heff. unfold observationEffect in Heff.
  destruct (String.eqb_spec (observedKey o) key) as [Hkey | Hne].
  - rewrite (Ho Hkey) in Heff.
    destruct Heff as (_ & _ & Hback & Hnot). rewrite Hnot in IH. lia.
  - destruct Heff as (_ & Hback & Hnot). rewrite Hnot in IH. lia.
Qed.

Lemma notified_only_with_alert key (o : Observation) w :
  let w' := worldOf (body (fst o) (snd o) w) in
  (notifiedAt key w = false -> notifiedAt key w' = true ->
   outAlerts key (trace w') = S (outAlerts key (trace w))) /\
  (notifiedAt key w = true -> notifiedAt key w' = false ->
   backAlerts key (trace w') = S (backAlerts key (trace w))).
Proof.
  intros w'. subst w'.
  pose proof (body_effect key o w) as Heff. unfold observationEffect in Heff.
  destruct (String.eqb (observedKey o) key), (observedInRange o).
  - destruct Heff as (_ & _ & Hback & Hnot).
    split; intros Hn Hn'; [congruence |]. rewrite Hn in Hback. lia.
  - destruct Heff as (Hout & _ & Hnot).
    split; intros Hn Hn'.
    + rewrite Hn in Hout. lia.
    + destruct (isThrown _); [destruct Hnot |]; congruence.
  - destruct Heff as (_ & _ & Hnot). split; congruence.
  - destruct Heff as (_ & _ & Hnot). split; congruence.
Qed.

End Streaks.

Lemma monitor_body_effect key (o : Observation) w :
  observationEffect key o w
    (worldOf (MeteoraMonitor.checkPosition idle (fst o) (snd o) w))
    (isThrown (outcomeOf (MeteoraMonitor.checkPosition idle (fst o) (snd o) w))).
Proof.
  destruct (monitor_observationEffect key o w) as [Hret Heff].
  rewrite Hret. exact Heff.
Qed.

Lemma monitor_never_throws key (obs : list Observation) w :
  thrownObservations key (MeteoraMonitor.checkPosition idle) obs w = 0%nat.
Proof.
  revert w. induction obs as [| o obs IH]; intros w; simpl; [reflexivity |].
  destruct (monitor_observationEffect key o w) as [-> _]. simpl. apply IH.
Qed.

(** C2, as the specification states it, fails in the rebalancing
    version: when the rebalance that follows the alert throws, the
    status is not written, and the next poll of the same streak alerts
    again.  Here the pool refuses the removal of liquidity at both
    polls. *)
Lemma alerts_once_per_streak_counterexample :
  let streak := [(115, scenarioPosition); (115, scenarioPosition)] in
  let first := worldOf (checkPositions noRemoval idle initialWorld) in
  let second := worldOf (checkPositions noRemoval idle first) in
  outOfRangeStreak "P" streak /\
  outAlerts "P"
    (trace (observeAll (checkPosition noRemoval idle) streak initialWorld))
  = 2%nat /\
  outAlerts "P" (trace second) = 2%nat /\
  backAlerts "P" (trace second) = 0%nat.
Proof.
  split; [| vm_compute; repeat split].
  repeat constructor.
Qed.

(** C2, amended.  Over any sequence of observations, and for any
    position: within a streak of out-of-range observations the class
    version sends at most one out-of-range alert, and the rebalancing
    version at most one more than the number of observations of the
    streak that throw (the alert is sent again after each rebalance
    that failed); within a streak of in-range observations both send at
    most one back-in-range alert; and at any observation the position
    becomes notified only if an out-of-range alert is sent, and ceases
    to be only if a back-in-range alert is sent. *)
Theorem alerts_once_per_streak env key (obs : list Observation)
    (o : Observation) w :
  let monitor := MeteoraMonitor.checkPosition idle in
  let rebalancer := checkPosition env idle in
  (outOfRangeStreak key obs ->
     (outAlerts key (trace (observeAll monitor obs w))
      <= outAlerts key (trace w) + 1)%nat /\
     (outAlerts key (trace (observeAll rebalancer obs w))
      <= outAlerts key (trace w) + 1
         + thrownObservations key rebalancer obs w)%nat) /\
  (inRangeStreak key obs ->
     (backAlerts key (trace (observeAll monitor obs w))
      <= backAlerts key (trace w) + 1)%nat /\
     (backAlerts key (trace (observeAll rebalancer obs w))
      <= backAlerts key (trace w) + 1)%nat) /\
  (forall body, body = monitor \/ body = rebalancer ->
     let w' := worldOf (body (fst o) (snd o) w) in
     (notifiedAt key w = false -> notifiedAt key w' = true ->
      outAlerts key (trace w') = S (outAlerts key (trace w))) /\
     (notifiedAt key w = true -> notifiedAt key w' = false ->
      backAlerts key (trace w') = S (backAlerts key (trace w)))).
Proof.
  intros monitor rebalancer.
  assert (Hmon := monitor_body_effect).
  assert (Hreb := observationEffect_checkPosition env).
  split; [| split].
  - intros Hstreak. split.
    + pose proof (outAlerts_in_streak monitor Hmon key obs w Hstreak) as H.
      unfold monitor in H at 2. rewrite monitor_never_throws in H.
      destruct (notifiedAt key w); lia.
    + pose proof (outAlerts_in_streak rebalancer Hreb key obs w Hstreak) as H.
      destruct (notifiedAt key w); lia.
  - intros Hstreak. split.
    + pose proof (backAlerts_in_streak monitor Hmon key obs w Hstreak) as H.
      destruct (notifiedAt key w); lia.
    + pose proof (backAlerts_in_streak rebalancer Hreb key obs w Hstreak) as H.
      destruct (notifiedAt key w); lia.
  - intros body [-> | ->].
    + apply (notified_only_with_alert monitor Hmon).
    + apply (notified_only_with_alert rebalancer Hreb).
Qed.

(** ** An invariant of the map of statuses *)

Lemma forOf_invariant {A} (I : World -> Prop) (xs : list A)
    (body : A -> M unit) :
  (forall x w, I w -> I (worldOf (body x w))) ->
  forall w, I w -> I (worldOf (forOf xs body w)).
Proof.
  intros Hbody. induction xs as [| x xs IH]; intros w Hw; [exact Hw |].
  rewrite forOf_cons. unfold worldOf. rewrite bind_run.
  specialize (Hbody x w Hw). unfold worldOf in Hbody.
  destruct (body x w) as [w1 [[] | e]]; simpl in Hbody.
  - apply IH, Hbody.
  - exact Hbody.
Qed.

(** A property of the map that every observation keeps is kept by the
    whole cycle, however its queries are answered. *)
Lemma cycle_invariant (I : gmap string PositionStatus -> Prop) env
    (body : Z -> Position -> M unit) :
  (forall activeBinId position w,
     I (positionStatuses w) ->
     I (positionStatuses (worldOf (body activeBinId position w)))) ->
  forall w,
    I (positionStatuses w) ->
    I (positionStatuses (worldOf
      (tryCatch
         (positions <- await env idle r_getPositions EvGetPositions ;;
          activeBin <- await env idle r_getActiveBin EvGetActiveBin ;;
          forOf positions (body (binId activeBin)))
         (fun error =>
            sendMessage idle (MsgCheckError (checkErrorMessage error))) w))).
Proof.
  intros Hbody w Hw.
  unfold worldOf, tryCatch, bind, await, sendMessage, idle. simpl.
  destruct (r_getPositions (env (clock w))) as [positions | e]; simpl;
    [| exact Hw].
  destruct (r_getActiveBin (env (S (clock w)))) as [activeBin | e]; simpl;
    [| exact Hw].
  match goal with
  | |- context [forOf positions ?b ?w0] =>
      pose proof (forOf_invariant (fun w => I (positionStatuses w))
                    positions b (Hbody (binId activeBin)) w0 Hw) as Hloop;
      unfold worldOf in Hloop;
      destruct (forOf positions b w0) as [w1 [[] | e]]
  end; exact Hloop.
Qed.

Lemma noSilentOutOfRange_insert key status statuses :
  noSilentOutOfRange statuses ->
  (isInRange status = false -> lastNotified status = true) ->
  noSilentOutOfRange (<[key := status]> statuses).
Proof.
  intros Hinv Hnew key' status'. rewrite lookup_insert.
  destruct (decide (key = key')) as [_ | _].
  - intros [= <-]. exact Hnew.
  - apply Hinv.
Qed.

Lemma monitor_checkPosition_invariant activeBinId position w :
  noSilentOutOfRange (positionStatuses w) ->
  noSilentOutOfRange
    (positionStatuses
       (worldOf (MeteoraMonitor.checkPosition idle activeBinId position w))).
Proof.
  intros Hinv. rewrite monitor_checkPosition_run. cbv zeta.
  destruct (inRangeAt activeBinId position),
    (lastNotified (default unseenStatus (positionStatuses w !! publicKey position)));
    simpl; apply noSilentOutOfRange_insert; simpl; auto; discriminate.
Qed.

Lemma checkPosition_invariant env activeBinId position w :
  noSilentOutOfRange (positionStatuses w) ->
  noSilentOutOfRange
    (positionStatuses (worldOf (checkPosition env idle activeBinId position w))).
Proof.
  intros Hinv. rewrite checkPosition_run. cbv zeta.
  set (alert := EvSend (generateOutOfRangeMessage position activeBinId
                          (lowerBinId position) (upperBinId position))).
  pose proof (rebalancePosition_emits env position (log alert w)) as Hext.
  unfold worldOf in Hext.
  destruct (rebalancePosition env idle position (log alert w)) as [w1 r].
  destruct Hext as (_ & Hst & _). simpl in Hst.
  destruct (inRangeAt activeBinId position),
    (lastNotified (default unseenStatus (positionStatuses w !! publicKey position)));
    simpl; try destruct r as [[] | e]; simpl; rewrite ?Hst;
    try (apply noSilentOutOfRange_insert; simpl; auto; discriminate);
    exact Hinv.
Qed.

(** C10.  In every world that the process reaches by running monitoring
    cycles, of either version, whatever the collaborators answer and
    whichever cycles are cut short by an error, every entry of the map
    that is out of range is notified: no position is ever stored as out
    of range and not notified. *)
Theorem stored_out_of_range_is_notified w :
  reachable (fun env => MeteoraMonitor.checkPositions env idle) w \/
  reachable (fun env => checkPositions env idle) w ->
  noSilentOutOfRange (positionStatuses w) /\
  forall key,
    positionStatuses w !! key
    <> Some {| isInRange := false; lastNotified := false |}.
Proof.
  intros Hreach.
  assert (noSilentOutOfRange (positionStatuses w)) as Hinv.
  { destruct Hreach as [Hreach | Hreach];
      induction Hreach as [| env w _ IH].
    - intros key status. simpl. rewrite lookup_empty. discriminate.
    - apply (cycle_invariant noSilentOutOfRange env
               (MeteoraMonitor.checkPosition idle)
               monitor_checkPosition_invariant w IH).
    - intros key status. simpl. rewrite lookup_empty. discriminate.
    - apply (cycle_invariant noSilentOutOfRange env (checkPosition env idle)
               (checkPosition_invariant env) w IH). }
  split; [exact Hinv |].
  intros key Hentry. specialize (Hinv key _ Hentry eq_refl). discriminate Hinv.
Qed.

Lemma stored_out_of_range_is_notified_witness :
  reachable (fun env => checkPositions env idle)
    (worldOf (checkPositions noRemoval idle
                (worldOf (checkPositions calm idle initialWorld)))) /\
  noSilentOutOfRange
    (positionStatuses
       (worldOf (checkPositions noRemoval idle
                   (worldOf (checkPositions calm idle initialWorld))))).
Proof.
  assert (reachable (fun env => checkPositions env idle)
            (worldOf (checkPositions noRemoval idle
                        (worldOf (checkPositions calm idle initialWorld)))))
    as Hreach.
  { apply (reachable_cycle (fun env => checkPositions env idle) noRemoval).
    apply (reachable_cycle (fun env => checkPositions env idle) calm).
    apply reachable_start. }
  split; [exact Hreach |].
  exact (proj1 (stored_out_of_range_is_notified _ (or_intror Hreach))).
Defined.

(** ** The deposit step *)

(** The [catch] block of [rebalancePosition], run: it reports the error
    and throws it again, unless the error is [null] or [undefined], in
    which case reading its message throws before anything is sent. *)
Lemma rebalanceCatch_run error w :
  rebalanceCatch idle error w =
  match messageOrUnknown error with
  | Returned errorMessage =>
      (log (EvSend (MsgRebalanceFailed errorMessage)) w, Thrown error)
  | Thrown typeError => (w, Thrown typeError)
  end.
Proof.
  unfold rebalanceCatch. rewrite bind_run, eval_run.
  destruct (messageOrUnknown error); reflexivity.
Qed.

Lemma rebalanceCatch_throws error w :
  exists w1 thrown, rebalanceCatch idle error w = (w1, Thrown thrown).
Proof.
  rewrite rebalanceCatch_run.
  destruct (messageOrUnknown error); do 2 eexists; reflexivity.
Qed.

Lemma rebalancePosition_Returned_inv env position w w' :
  isRebalancing w = false ->
  rebalancePosition env idle position w = (w', Returned tt) ->
  exists w1,
    rebalanceTry env idle position (setRebalancing true w) = (w1, Returned tt) /\
    w' = setRebalancing false w1.
Proof.
  intros Hflag Hrun. unfold rebalancePosition in Hrun. rewrite Hflag in Hrun.
  unfold tryFinally, tryCatch in Hrun.
  destruct (rebalanceTry env idle position (setRebalancing true w))
    as [w1 [[] | e]].
  - exists w1. injection Hrun as <-. split; reflexivity.
  - destruct (rebalanceCatch_throws e w1) as (w2 & thrown & Hcatch).
    rewrite Hcatch in Hrun. discriminate Hrun.
Qed.

Lemma createNewPosition_Returned_inv env newPosition xAmount yAmount w w' :
  createNewPosition env idle newPosition xAmount yAmount w = (w', Returned tt) ->
  exists activeBin tx txHash,
    trace w' = trace w ++
      [EvGetActiveBin (Returned activeBin);
       EvInitPosition newPosition xAmount yAmount
         (binId activeBin - 5) (binId activeBin + 5) 50 (Returned tx);
       EvSendAndConfirm tx (UserAndNewPosition newPosition) (Returned txHash);
       EvSend (MsgPositionCreated newPosition txHash
                 (binId activeBin - 5) (binId activeBin + 5) xAmount yAmount)].
Proof.
  unfold createNewPosition, tryCatch, bind, await, sendMessage, throw, idle.
  simpl.
  destruct (r_getActiveBin (env (clock w))) as [activeBin | e]; simpl;
    [| discriminate].
  destruct (r_initPosition (env (S (clock w)))) as [tx | e]; simpl;
    [| discriminate].
  destruct (r_sendAndConfirm (env (S (S (clock w))))) as [txHash | e]; simpl;
    [| unfold eval; destruct (messageOrUnknown e); discriminate].
  intros [= <-]. exists activeBin, tx, txHash. simpl.
  rewrite <- !app_assoc. reflexivity.
Qed.

(** C9.  In every rebalance that succeeds, the balances are read again
    after the settling delay, the active bin is fetched after that, and
    the new position is opened on the range
    [activeBin - 5, activeBin + 5] around that bin, with the whole X
    balance just read and with the native balance just read less the
    reserve of [0.07 * 10^9] units, or zero when the balance does not
    exceed the reserve. *)
Theorem deposit_around_current_bin env position w w' :
  isRebalancing w = false ->
  rebalancePosition env idle position w = (w', Returned tt) ->
  exists settled reread final activeBin newPosition tx txHash,
    last (trace settled) = Some (EvSleep 50000) /\
    getTokenBalances env idle settled = (reread, Returned final) /\
    let xAmount := xBalance final in
    let yAmount :=
      if yBalance final >? 70000000 then yBalance final - 70000000 else 0 in
    let minBinId := binId activeBin - 5 in
    let maxBinId := binId activeBin + 5 in
    trace w' = trace reread ++
      [EvGetActiveBin (Returned activeBin);
       EvInitPosition newPosition xAmount yAmount minBinId maxBinId 50
         (Returned tx);
       EvSendAndConfirm tx (UserAndNewPosition newPosition) (Returned txHash);
       EvSend (MsgPositionCreated newPosition txHash minBinId maxBinId
                 xAmount yAmount);
       EvSend MsgCompleted].
Proof.
  intros Hflag Hrun.
  destruct (rebalancePosition_Returned_inv env position w w' Hflag Hrun)
    as (w1 & Htry & ->).
  unfold rebalanceTry in Htry.
  apply bind_Returned_inv in Htry as (_ & w2 & _ & Htry).
  apply bind_Returned_inv in Htry as (_ & w3 & _ & Htry).
  apply bind_Returned_inv in Htry as (balances & w4 & _ & Htry).
  apply bind_Returned_inv in Htry as (planningBin & w5 & _ & Htry).
  destruct (priceScaled planningBin) as [scaled |]; [| discriminate Htry].
  apply bind_Returned_inv in Htry as (priceBN & w5' & _ & Htry).
  cbv zeta in Htry.
  apply bind_Returned_inv in Htry as (_ & w6 & _ & Htry).
  apply bind_Returned_inv in Htry as ([] & settled & Hsleep & Htry).
  apply bind_Returned_inv in Htry as (final & reread & Hread & Htry).
  apply bind_Returned_inv in Htry as (newPosition & w7 & Hkey & Htry).
  apply bind_Returned_inv in Htry as ([] & w8 & Hcreate & Hdone).
  injection Hsleep as <-. injection Hkey as <- _. injection Hdone as <-.
  apply createNewPosition_Returned_inv in Hcreate
    as (activeBin & tx & txHash & Htrace).
  exists (log (EvSleep 50000) (idle w6)), reread, final, activeBin,
    newPosition, tx, txHash.
  split; [apply last_snoc |]. split; [exact Hread |].
  unfold idle. simpl. rewrite Htrace. rewrite <- app_assoc. reflexivity.
Qed.

Lemma deposit_around_current_bin_witness :
  let w' := worldOf (rebalancePosition calm idle scenarioPosition initialWorld) in
  isRebalancing initialWorld = false /\
  rebalancePosition calm idle scenarioPosition initialWorld = (w', Returned tt) /\
  exists settled reread final activeBin newPosition tx txHash,
    last (trace settled) = Some (EvSleep 50000) /\
    getTokenBalances calm idle settled = (reread, Returned final) /\
    trace w' = trace reread ++
      [EvGetActiveBin (Returned activeBin);
       EvInitPosition newPosition (xBalance final)
         (if yBalance final >? 70000000 then yBalance final - 70000000 else 0)
         (binId activeBin - 5) (binId activeBin + 5) 50 (Returned tx);
       EvSendAndConfirm tx (UserAndNewPosition newPosition) (Returned txHash);
       EvSend (MsgPositionCreated newPosition txHash
                 (binId activeBin - 5) (binId activeBin + 5) (xBalance final)
                 (if yBalance final >? 70000000
                  then yBalance final - 70000000 else 0));
       EvSend MsgCompleted].
Proof.
  intros w'.
  assert (rebalancePosition calm idle scenarioPosition initialWorld
          = (w', Returned tt)) as Hrun by (vm_compute; reflexivity).
  split; [reflexivity |]. split; [exact Hrun |].
  exact (deposit_around_current_bin calm scenarioPosition initialWorld w'
           eq_refl Hrun).
Defined.

(** ** Failures during a rebalance *)

(** The loop of the withdraw step, when the submissions of the
    transactions of [done] succeed and the next one fails. *)
Lemma withdraw_loop_failure env key (done : list (Transaction * string))
    tx rest e w :
  (forall i t txHash,
     done !! i = Some (t, txHash) ->
     r_sendAndConfirm (env (clock w + i)%nat) = Returned txHash) ->
  r_sendAndConfirm (env (clock w + length done)%nat) = Thrown e ->
  exists w',
    forOf (map fst done ++ tx :: rest)
      (fun tx =>
         txHash <- await env idle r_sendAndConfirm (EvSendAndConfirm tx UserOnly) ;;
         sendMessage idle (MsgRemoved key txHash)) w
    = (w', Thrown e) /\
    trace w' =
      trace w ++ removedEvents key done ++ [EvSendAndConfirm tx UserOnly (Thrown e)].
Proof.
  revert w. induction done as [| [t txHash] done IH]; intros w Hdone Hfail.
  - simpl in *. rewrite Nat.add_0_r in Hfail.
    unfold bind, await, idle. simpl. rewrite Hfail.
    eexists. split; reflexivity.
  - simpl map. simpl app. rewrite forOf_cons.
    pose proof (Hdone 0%nat t txHash eq_refl) as Hfirst.
    rewrite Nat.add_0_r in Hfirst.
    unfold bind at 1. unfold bind at 1, await at 1, sendMessage at 1, idle.
    simpl. rewrite Hfirst. simpl.
    match goal with
    | |- context [forOf _ _ ?w1] =>
        destruct (IH w1) as (w' & Hrun & Htrace)
    end.
    + intros i t' txHash' Hi. simpl.
      rewrite <- (Hdone (S i) t' txHash' Hi). f_equal. f_equal. lia.
    + simpl. rewrite <- Hfail. f_equal. f_equal. simpl. lia.
    + exists w'. split; [exact Hrun |].
      rewrite Htrace. simpl. rewrite <- !app_assoc. reflexivity.
Qed.

(** The withdraw step, when the pool prepares one transaction or an
    array, the first ones are confirmed and the next one is not: the
    failure is reported, the transactions that remain are never
    submitted, and the step returns. *)
Lemma withdraw_failure_stops_loop env position prepared
    (done : list (Transaction * string)) tx rest e w :
  r_removeLiquidity (env (clock w)) = Returned prepared ->
  prepared = ManyTxs (map fst done ++ tx :: rest) \/
  (prepared = OneTx tx /\ done = [] /\ rest = []) ->
  (forall i t txHash,
     done !! i = Some (t, txHash) ->
     r_sendAndConfirm (env (S (clock w) + i)%nat) = Returned txHash) ->
  r_sendAndConfirm (env (S (clock w) + length done)%nat) = Thrown e ->
  let run := removePositionLiquidity env idle position w in
  outcomeOf run = Returned tt /\
  trace (worldOf run) =
    trace w
    ++ [EvRemoveLiquidity (publicKey position)
          (head (positionBinData position)) (last (positionBinData position))
          (Returned prepared)]
    ++ removedEvents (publicKey position) done
    ++ [EvSendAndConfirm tx UserOnly (Thrown e);
        EvSend (MsgRemoveFailed (publicKey position) e)].
Proof.
  intros Hremove Hprepared Hdone Hfail run.
  assert (match prepared with
          | ManyTxs txs => txs
          | OneTx single => [single]
          end = map fst done ++ tx :: rest) as Htxs
    by (destruct Hprepared as [-> | (-> & -> & ->)]; reflexivity).
  assert (exists w',
            run = (w', Returned tt) /\
            trace w' =
              trace w
              ++ [EvRemoveLiquidity (publicKey position)
                    (head (positionBinData position))
                    (last (positionBinData position))
                    (Returned prepared)]
              ++ removedEvents (publicKey position) done
              ++ [EvSendAndConfirm tx UserOnly (Thrown e);
                  EvSend (MsgRemoveFailed (publicKey position) e)])
    as (w' & Hrun & Htrace).
  { subst run. unfold removePositionLiquidity.
    rewrite bind_run, await_run, Hremove. cbv zeta. rewrite Htxs.
    unfold tryCatch.
    match goal with
    | |- context [forOf _ _ ?w1] =>
        destruct (withdraw_loop_failure env (publicKey position) done tx rest
                    e w1 Hdone Hfail) as (w1' & Hloop & Htrace)
    end.
    rewrite Hloop, sendMessage_run. eexists. split; [reflexivity |].
    simpl. rewrite Htrace. simpl. rewrite <- !app_assoc. reflexivity. }
  rewrite Hrun. split; [reflexivity | exact Htrace].
Qed.

(** What a computation has emitted when it returns. *)

Lemma returnsWith_emits {A} (P N : Event -> Prop) (m : M A) :
  (forall ev, P ev -> N ev) -> emits P m -> returnsWith N m.
Proof.
  intros HPN Hm w w' a Hrun. specialize (Hm w). rewrite Hrun in Hm.
  destruct Hm as (_ & _ & _ & _ & evs & Ht & Hp).
  exists evs. split; [exact Ht |]. eapply Forall_impl; eassumption.
Qed.

Lemma returnsWith_bind {A B} (N : Event -> Prop) (m : M A) (k : A -> M B) :
  returnsWith N m -> (forall a, returnsWith N (k a)) -> returnsWith N (bind m k).
Proof.
  intros Hm Hk w w' b Hrun.
  apply bind_Returned_inv in Hrun as (a & w1 & Hrun1 & Hrun2).
  destruct (Hm _ _ _ Hrun1) as (evs1 & Ht1 & Hn1).
  destruct (Hk a _ _ _ Hrun2) as (evs2 & Ht2 & Hn2).
  exists (evs1 ++ evs2). split.
  - rewrite Ht2, Ht1. symmetry. apply app_assoc.
  - apply Forall_app. split; assumption.
Qed.

Lemma returnsWith_throw {A} (N : Event -> Prop) (e : JsThrown) :
  returnsWith N (@throw A e).
Proof. intros w w' a Hrun. discriminate Hrun. Qed.

Lemma returnsWith_ret {A} (N : Event -> Prop) (a : A) : returnsWith N (ret a).
Proof.
  intros w w' a' [= <- _]. exists []. split; [symmetry; apply app_nil_r | constructor].
Qed.

Lemma returnsWith_eval {A} (N : Event -> Prop) (r : Outcome A) :
  returnsWith N (eval r).
Proof.
  intros w w' a' [= <- _]. exists []. split; [symmetry; apply app_nil_r | constructor].
Qed.

(** The swap returns only after a route was found and executed. *)
Lemma swap_returnsWith env amount direction :
  returnsWith earlyEvent (swap env idle amount direction).
Proof.
  intros w w' a. rewrite swap_run. cbv zeta.
  destruct (r_getRoutes (env (clock w))) as [[| bestRoute routes] | e];
    try (destruct (messageOrUnknown _); discriminate).
  destruct (r_executeRoute (env (S (clock w)))) as [executed | e];
    try (destruct (messageOrUnknown _); discriminate).
  intros [= <- _]. simpl. eexists. rewrite <- !app_assoc.
  split; [reflexivity |].
  repeat constructor; simpl; tauto.
Qed.

Lemma swapIfSignificant_returnsWith env plan :
  returnsWith earlyEvent (swapIfSignificant env idle plan).
Proof.
  unfold swapIfSignificant. destruct (shouldSwap plan);
    [apply swap_returnsWith | apply returnsWith_ret].
Qed.

(** The new position is created only after its transaction was built
    and confirmed. *)
Lemma createNewPosition_returnsWith env newPosition xAmount yAmount :
  returnsWith noStepFailure
    (createNewPosition env idle newPosition xAmount yAmount).
Proof.
  intros w w' [] Hrun.
  apply createNewPosition_Returned_inv in Hrun as (activeBin & tx & txHash & Ht).
  eexists. split; [exact Ht |].
  repeat constructor; simpl; tauto.
Qed.

Lemma withdrawEvent_early ev : withdrawEvent ev -> earlyEvent ev.
Proof.
  unfold earlyEvent.
  destruct ev as [[] | | | | | | | | ? [] | | | |]; simpl; tauto.
Qed.

Lemma balanceEvent_early ev : balanceEvent ev -> earlyEvent ev.
Proof.
  unfold earlyEvent.
  destruct ev as [[] | | | | | | | | ? [] | | | |]; simpl; tauto.
Qed.

Lemma swapEvent_notDeposit ev : swapEvent ev -> notDeposit ev.
Proof.
  unfold notDeposit.
  destruct ev as [[] | | | | | | | | ? [] | | | |]; simpl; tauto.
Qed.

Lemma earlyEvent_noStepFailure ev : earlyEvent ev -> noStepFailure ev.
Proof. unfold earlyEvent, noStepFailure. tauto. Qed.

Lemma earlyEvent_notDeposit ev : earlyEvent ev -> notDeposit ev.
Proof. unfold earlyEvent, notDeposit. tauto. Qed.

Lemma earlyEvent_noSwapFailure ev : earlyEvent ev -> noSwapFailure ev.
Proof. unfold earlyEvent, noSwapFailure. tauto. Qed.

Lemma balanceEvent_noSwapFailure ev : balanceEvent ev -> noSwapFailure ev.
Proof. intros H. apply earlyEvent_noSwapFailure, balanceEvent_early, H. Qed.

Lemma createNewPosition_noSwapFailure env newPosition xAmount yAmount :
  emits noSwapFailure (createNewPosition env idle newPosition xAmount yAmount).
Proof. unfold createNewPosition. emits_all. Qed.

(** A rebalance that returns met no failure of the swap step and none
    of the deposit step. *)
Lemma rebalanceTry_returnsWith env position :
  returnsWith noStepFailure (rebalanceTry env idle position).
Proof.
  unfold rebalanceTry.
  apply returnsWith_bind; [| intros _].
  { apply (returnsWith_emits noStepFailure); [tauto | emits_all]. }
  apply returnsWith_bind; [| intros _].
  { eapply returnsWith_emits; [| apply removePositionLiquidity_emits].
    intros ev H. apply earlyEvent_noStepFailure, withdrawEvent_early, H. }
  apply returnsWith_bind; [| intros balances].
  { eapply returnsWith_emits; [| apply getTokenBalances_emits].
    intros ev H. apply earlyEvent_noStepFailure, balanceEvent_early, H. }
  apply returnsWith_bind; [| intros activeBin].
  { apply (returnsWith_emits noStepFailure); [tauto | emits_all]. }
  destruct (priceScaled activeBin) as [scaled |]; [| apply returnsWith_throw].
  apply returnsWith_bind; [apply returnsWith_eval | intros priceBN].
  cbv zeta.
  apply returnsWith_bind; [| intros _].
  { intros w w' a Hrun.
    destruct (swapIfSignificant_returnsWith env _ w w' a Hrun) as (evs & Ht & Hn).
    exists evs. split; [exact Ht |].
    eapply Forall_impl; [exact Hn | exact earlyEvent_noStepFailure]. }
  apply returnsWith_bind; [| intros _].
  { apply (returnsWith_emits noStepFailure); [tauto | emits_all]. }
  apply returnsWith_bind; [| intros final].
  { eapply returnsWith_emits; [| apply getTokenBalances_emits].
    intros ev H. apply earlyEvent_noStepFailure, balanceEvent_early, H. }
  apply returnsWith_bind; [| intros newPosition].
  { apply (returnsWith_emits noStepFailure); [tauto | emits_all]. }
  apply returnsWith_bind; [| intros _].
  { apply createNewPosition_returnsWith. }
  apply (returnsWith_emits noStepFailure); [tauto | emits_all].
Qed.

(** Deposits come only after the swap step. *)

Lemma depositsOnlyAfterSwap_late {A} (m : M A) :
  emits noSwapFailure m -> depositsOnlyAfterSwap m.
Proof.
  intros Hm w. destruct (Hm w) as (_ & _ & _ & _ & evs & Ht & Hn).
  exists evs. split; [exact Ht |].
  intros Hex. apply Exists_exists in Hex as (ev & Hin & Hfail).
  rewrite Forall_forall in Hn. destruct (Hn ev Hin Hfail).
Qed.

Lemma depositsOnlyAfterSwap_bind {A B} (m : M A) (k : A -> M B) :
  emits notDeposit m ->
  returnsWith noSwapFailure m ->
  (forall a, depositsOnlyAfterSwap (k a)) ->
  depositsOnlyAfterSwap (bind m k).
Proof.
  intros Hemits Hret Hk w. unfold worldOf. rewrite bind_run.
  destruct (Hemits w) as (_ & _ & _ & _ & evs1 & Ht1 & Hd1).
  unfold worldOf in Ht1.
  destruct (m w) as [w1 [a | e]] eqn:Hrun; simpl in Ht1.
  - destruct (Hret _ _ _ Hrun) as (evs1' & Ht1' & Hs1).
    assert (evs1' = evs1) as -> by (apply (app_inv_head (trace w)); congruence).
    destruct (Hk a w1) as (evs2 & Ht2 & Hd2). unfold worldOf in Ht2.
    exists (evs1 ++ evs2). split.
    + rewrite Ht2, Ht1. symmetry. apply app_assoc.
    + intros Hex. apply Exists_app in Hex as [Hex | Hex].
      * apply Exists_exists in Hex as (ev & Hin & Hfail).
        rewrite Forall_forall in Hs1. destruct (Hs1 ev Hin Hfail).
      * apply Forall_app. split; [exact Hd1 | exact (Hd2 Hex)].
  - exists evs1. split; [exact Ht1 |]. intros _. exact Hd1.
Qed.

Lemma rebalanceTry_depositsOnlyAfterSwap env position :
  depositsOnlyAfterSwap (rebalanceTry env idle position).
Proof.
  unfold rebalanceTry.
  apply depositsOnlyAfterSwap_bind; [| | intros _].
  { emits_all. }
  { apply (returnsWith_emits noSwapFailure); [tauto | emits_all]. }
  apply depositsOnlyAfterSwap_bind; [| | intros _].
  { eapply emits_weaken; [| apply removePositionLiquidity_emits].
    intros ev H. apply earlyEvent_notDeposit, withdrawEvent_early, H. }
  { eapply returnsWith_emits; [| apply removePositionLiquidity_emits].
    intros ev H. apply earlyEvent_noSwapFailure, withdrawEvent_early, H. }
  apply depositsOnlyAfterSwap_bind; [| | intros balances].
  { eapply emits_weaken; [| apply getTokenBalances_emits].
    intros ev H. apply earlyEvent_notDeposit, balanceEvent_early, H. }
  { eapply returnsWith_emits; [| apply getTokenBalances_emits].
    exact balanceEvent_noSwapFailure. }
  apply depositsOnlyAfterSwap_bind; [| | intros activeBin].
  { emits_all. }
  { apply (returnsWith_emits noSwapFailure); [tauto | emits_all]. }
  destruct (priceScaled activeBin) as [scaled |];
    [| apply depositsOnlyAfterSwap_late; emits_all].
  apply depositsOnlyAfterSwap_bind; [| | intros priceBN].
  { emits_all. }
  { apply returnsWith_eval. }
  cbv zeta.
  apply depositsOnlyAfterSwap_bind; [| | intros _].
  { eapply emits_weaken; [| apply swapIfSignificant_emits].
    exact swapEvent_notDeposit. }
  { intros w w' a Hrun.
    destruct (swapIfSignificant_returnsWith env _ w w' a Hrun) as (evs & Ht & Hn).
    exists evs. split; [exact Ht |].
    eapply Forall_impl; [exact Hn | exact earlyEvent_noSwapFailure]. }
  apply depositsOnlyAfterSwap_late.
  repeat first
    [ eapply emits_weaken;
      [| apply getTokenBalances_emits ]; [ exact balanceEvent_noSwapFailure ]
    | apply createNewPosition_noSwapFailure
    | emits_step ].
Qed.

Lemma rebalancePosition_run env position w :
  isRebalancing w = false ->
  rebalancePosition env idle position w =
  match rebalanceTry env idle position (setRebalancing true w) with
  | (w1, Returned a) => (setRebalancing false w1, Returned a)
  | (w1, Thrown e) =>
      match messageOrUnknown e with
      | Returned errorMessage =>
          (setRebalancing false
             (log (EvSend (MsgRebalanceFailed errorMessage)) w1),
           Thrown e)
      | Thrown typeError => (setRebalancing false w1, Thrown typeError)
      end
  end.
Proof.
  intros Hflag. unfold rebalancePosition. rewrite Hflag.
  unfold tryFinally, tryCatch.
  destruct (rebalanceTry env idle position (setRebalancing true w))
    as [w1 [a | e]]; [reflexivity |].
  rewrite rebalanceCatch_run. destruct (messageOrUnknown e); reflexivity.
Qed.

Lemma bind_assoc_run {A B C} (m : M A) (k1 : A -> M B) (k2 : B -> M C) w :
  bind (bind m k1) k2 w = bind m (fun a => bind (k1 a) k2) w.
Proof. unfold bind. destruct (m w) as [w1 [a | e]]; reflexivity. Qed.

Lemma balanceEvent_notWithdraw ev : balanceEvent ev -> notWithdraw ev.
Proof.
  unfold notWithdraw.
  destruct ev as [[] | | | | | | | | ? [] | | | |]; simpl; tauto.
Qed.

Lemma swapEvent_notWithdraw ev : swapEvent ev -> notWithdraw ev.
Proof.
  unfold notWithdraw.
  destruct ev as [[] | | | | | | | | ? [] | | | |]; simpl; tauto.
Qed.

Lemma createNewPosition_notWithdraw env newPosition xAmount yAmount :
  emits notWithdraw (createNewPosition env idle newPosition xAmount yAmount).
Proof. unfold createNewPosition. emits_all. Qed.

(** When the withdraw step returns, the rebalance goes on: its next
    call is the first query of the balances, and it emits no event of
    the withdraw step any more. *)
Lemma rebalanceTry_after_withdraw env position w w2 :
  removePositionLiquidity env idle position (log (EvSend MsgStarting) w)
    = (w2, Returned tt) ->
  exists evs,
    trace (worldOf (rebalanceTry env idle position w)) =
    trace w2
    ++ EvGetTokenAccounts TokenX (r_getTokenAccounts (env (clock w2)) TokenX)
       :: evs /\
    Forall notWithdraw evs.
Proof.
  intros Hwithdraw. unfold rebalanceTry, worldOf.
  rewrite bind_run, sendMessage_run. cbv beta iota.
  rewrite bind_run, Hwithdraw. cbv beta iota.
  unfold getTokenBalances. rewrite bind_assoc_run.
  match goal with
  | |- context [bind (await _ _ _ _) ?k w2] =>
      set (rest := k);
      assert (forall a, emits notWithdraw (rest a)) as Hrest
  end.
  { intros xAccount. subst rest. cbv beta.
    repeat first
      [ eapply emits_weaken;
        [| first [ apply getTokenBalances_emits
                 | apply swapIfSignificant_emits ] ];
        [ first [ exact balanceEvent_notWithdraw | exact swapEvent_notWithdraw ] ]
      | apply createNewPosition_notWithdraw
      | emits_step ]. }
  rewrite bind_run, await_run.
  destruct (r_getTokenAccounts (env (clock w2)) TokenX) as [xAccount | e].
  - match goal with
    | |- context [rest xAccount ?w3] =>
        destruct (Hrest xAccount w3) as (_ & _ & _ & _ & evs & Ht & Hn)
    end.
    unfold worldOf in Ht. exists evs. rewrite Ht. simpl.
    rewrite <- app_assoc. split; [reflexivity | exact Hn].
  - exists []. split; [reflexivity | constructor].
Qed.

(** C7, as the specification states it, fails in its first part.  The
    pool prepares two transactions for the withdraw step; the first is
    not confirmed, and every later submission would be.  The second
    transaction is never submitted, although the rebalance goes on and
    succeeds. *)
Lemma withdraw_best_effort_counterexample :
  let withdraw :=
    removePositionLiquidity firstSubmissionFails idle scenarioPosition
      initialWorld in
  let run :=
    rebalancePosition firstSubmissionFails idle scenarioPosition initialWorld in
  r_removeLiquidity (firstSubmissionFails 0) = Returned (ManyTxs [1%nat; 2%nat]) /\
  r_sendAndConfirm (firstSubmissionFails 2) = Returned "signature" /\
  trace (worldOf withdraw) =
    [EvRemoveLiquidity "P" (Some 100) (Some 110)
       (Returned (ManyTxs [1%nat; 2%nat]));
     EvSendAndConfirm 1%nat UserOnly (Thrown (JsError "block height exceeded"));
     EvSend (MsgRemoveFailed "P" (JsError "block height exceeded"))] /\
  countEvents (isSubmission 1%nat) (trace (worldOf run)) = 1%nat /\
  countEvents (isSubmission 2%nat) (trace (worldOf run)) = 0%nat /\
  outcomeOf run = Returned tt.
Proof. vm_compute. repeat split. Qed.

(** C7, amended.  In a rebalance that holds the lock:

    - when the pool prepares the transactions of the withdraw step (a
      single transaction or an array), some are confirmed and the next
      is not, this failure is reported by one notification, nothing
      more is done in the withdraw step (the transactions that remain
      are not submitted), and the rebalance goes on with the query of
      the balances;
    - a failure of the swap step or of a transaction of the deposit
      step makes the rebalance throw, and after a failure of the swap
      step no deposit is attempted. *)
Theorem withdraw_failure_ends_withdraw_other_failures_abort env position w :
  isRebalancing w = false ->
  let run := rebalancePosition env idle position w in
  (forall prepared (done : list (Transaction * string)) tx rest e,
     r_removeLiquidity (env (clock w)) = Returned prepared ->
     prepared = ManyTxs (map fst done ++ tx :: rest) \/
     (prepared = OneTx tx /\ done = [] /\ rest = []) ->
     (forall i t txHash,
        done !! i = Some (t, txHash) ->
        r_sendAndConfirm (env (S (clock w) + i)%nat) = Returned txHash) ->
     r_sendAndConfirm (env (S (clock w) + length done)%nat) = Thrown e ->
     exists balanceQuery afterwards,
       trace (worldOf run) =
         trace w
         ++ [EvSend MsgStarting;
             EvRemoveLiquidity (publicKey position)
               (head (positionBinData position))
               (last (positionBinData position))
               (Returned prepared)]
         ++ removedEvents (publicKey position) done
         ++ [EvSendAndConfirm tx UserOnly (Thrown e);
             EvSend (MsgRemoveFailed (publicKey position) e);
             EvGetTokenAccounts TokenX balanceQuery]
         ++ afterwards /\
       Forall notWithdraw afterwards) /\
  (exists evs,
     trace (worldOf run) = trace w ++ evs /\
     (Exists swapFailure evs \/ Exists depositFailure evs ->
      exists error, outcomeOf run = Thrown error) /\
     (Exists swapFailure evs -> Forall notDeposit evs)).
Proof.
  intros Hflag run. subst run. rewrite (rebalancePosition_run _ _ _ Hflag).
  set (w0 := setRebalancing true w).
  split.
  - intros prepared done tx rest e Hremove Hprepared Hdone Hfail.
    destruct (withdraw_failure_stops_loop env position prepared done tx rest e
                (log (EvSend MsgStarting) w0) Hremove Hprepared Hdone Hfail)
      as [Hout Htrace].
    destruct (removePositionLiquidity env idle position
                (log (EvSend MsgStarting) w0)) as [w2 r] eqn:Hwithdraw.
    simpl in Hout, Htrace. subst r.
    destruct (rebalanceTry_after_withdraw env position w0 w2 Hwithdraw)
      as (evs & Ht & Hn).
    unfold worldOf in Ht.
    destruct (rebalanceTry env idle position w0) as [w1 [a | error]];
      simpl in Ht;
      [| destruct (messageOrUnknown error) as [errorMessage | typeError]].
    + exists (r_getTokenAccounts (env (clock w2)) TokenX), evs.
      split; [| exact Hn].
      simpl. rewrite Ht, Htrace. simpl.
      rewrite <- ?app_assoc. simpl. rewrite <- ?app_assoc. reflexivity.
    + exists (r_getTokenAccounts (env (clock w2)) TokenX),
        (evs ++ [EvSend (MsgRebalanceFailed errorMessage)]).
      split.
      * simpl. rewrite Ht, Htrace. simpl.
        rewrite <- ?app_assoc. simpl. rewrite <- ?app_assoc. reflexivity.
      * apply Forall_app. split; [exact Hn |].
        repeat constructor. unfold notWithdraw. simpl. tauto.
    + exists (r_getTokenAccounts (env (clock w2)) TokenX), evs.
      split; [| exact Hn].
      simpl. rewrite Ht, Htrace. simpl.
      rewrite <- ?app_assoc. simpl. rewrite <- ?app_assoc. reflexivity.
  - subst w0.
    destruct (rebalanceTry_depositsOnlyAfterSwap env position
                (setRebalancing true w))
      as (evs & Ht & Hdep).
    pose proof (rebalanceTry_returnsWith env position (setRebalancing true w))
      as Hret.
    unfold worldOf in Ht.
    destruct (rebalanceTry env idle position (setRebalancing true w))
      as [w1 [a | error]];
      simpl in Ht;
      [| destruct (messageOrUnknown error) as [errorMessage | typeError]].
    + destruct (Hret w1 a eq_refl) as (evs' & Ht' & Hn). simpl in Ht'.
      assert (evs' = evs) as ->
        by (apply (app_inv_head (trace w)); congruence).
      exists evs. split; [exact Ht |]. split; [| exact Hdep].
      intros [Hex | Hex]; apply Exists_exists in Hex as (ev & Hin & Hfail);
        rewrite Forall_forall in Hn; destruct (Hn ev Hin) as [Hs Hd]; tauto.
    + exists (evs ++ [EvSend (MsgRebalanceFailed errorMessage)]).
      split; [simpl; rewrite Ht; symmetry; apply app_assoc |].
      split; [intros _; exists error; reflexivity |].
      intros Hex. apply Exists_app in Hex as [Hex | Hex].
      * apply Forall_app. split; [exact (Hdep Hex) |].
        repeat constructor. unfold notDeposit. simpl. tauto.
      * apply Exists_exists in Hex as (ev & Hin & Hfail).
        apply list_elem_of_singleton in Hin as ->. destruct Hfail.
    + exists evs. split; [exact Ht |].
      split; [intros _; exists typeError; reflexivity | exact Hdep].
Qed.

Lemma withdraw_failure_ends_withdraw_other_failures_abort_witness :
  let run :=
    rebalancePosition firstSubmissionFails idle scenarioPosition initialWorld in
  isRebalancing initialWorld = false /\
  (exists balanceQuery afterwards,
     trace (worldOf run) =
       trace initialWorld
       ++ [EvSend MsgStarting;
           EvRemoveLiquidity "P" (Some 100) (Some 110)
             (Returned (ManyTxs [1%nat; 2%nat]))]
       ++ removedEvents "P" []
       ++ [EvSendAndConfirm 1%nat UserOnly
             (Thrown (JsError "block height exceeded"));
           EvSend (MsgRemoveFailed "P" (JsError "block height exceeded"));
           EvGetTokenAccounts TokenX balanceQuery]
       ++ afterwards /\
     Forall notWithdraw afterwards) /\
  (exists evs,
     trace (worldOf run) = trace initialWorld ++ evs /\
     (Exists swapFailure evs -> Forall notDeposit evs)).
Proof.
  intros run.
  destruct (withdraw_failure_ends_withdraw_other_failures_abort
              firstSubmissionFails scenarioPosition initialWorld eq_refl)
    as (Hwithdraw & evs & Ht & _ & Hdep).
  split; [reflexivity |]. split.
  - apply (Hwithdraw (ManyTxs [1%nat; 2%nat]) [] 1%nat [2%nat]
             (JsError "block height exceeded"));
      [reflexivity | left; reflexivity
      | intros i t txHash Hi; discriminate Hi | reflexivity].
  - exists evs. split; [exact Ht | exact Hdep].
Defined.

(** ** A trigger that comes while a rebalance is in flight *)

Section Related.

Variable env : nat -> Responses.
Variables hook1 hook2 : World -> World.
Variable R : World -> World -> Prop.

Hypothesis R_hook : forall w1 w2, R w1 w2 -> R (hook1 w1) (hook2 w2).
Hypothesis R_clock : forall w1 w2, R w1 w2 -> clock w1 = clock w2.
Hypothesis R_log : forall ev w1 w2, R w1 w2 -> R (log ev w1) (log ev w2).
Hypothesis R_tick : forall w1 w2, R w1 w2 -> R (tick w1) (tick w2).

Lemma related_ret {A} (a : A) : related R (ret a) (ret a).
Proof. intros w1 w2 H. split; [exact H | reflexivity]. Qed.

Lemma related_throw {A} (e : JsThrown) : related R (@throw A e) (throw e).
Proof. intros w1 w2 H. split; [exact H | reflexivity]. Qed.

Lemma related_eval {A} (r : Outcome A) : related R (eval r) (eval r).
Proof. intros w1 w2 H. split; [exact H | reflexivity]. Qed.

Lemma related_bind {A B} (m1 m2 : M A) (k1 k2 : A -> M B) :
  related R m1 m2 -> (forall a, related R (k1 a) (k2 a)) ->
  related R (bind m1 k1) (bind m2 k2).
Proof.
  intros Hm Hk w1 w2 H. destruct (Hm w1 w2 H) as [Hw Ho].
  unfold worldOf, outcomeOf in *. rewrite !bind_run.
  destruct (m1 w1) as [w1' r1], (m2 w2) as [w2' r2]. simpl in Hw, Ho.
  subst r2. destruct r1 as [a | e].
  - apply Hk, Hw.
  - split; [exact Hw | reflexivity].
Qed.

Lemma related_tryCatch {A} (m1 m2 : M A) (h1 h2 : JsThrown -> M A) :
  related R m1 m2 -> (forall e, related R (h1 e) (h2 e)) ->
  related R (tryCatch m1 h1) (tryCatch m2 h2).
Proof.
  intros Hm Hh w1 w2 H. destruct (Hm w1 w2 H) as [Hw Ho].
  unfold worldOf, outcomeOf, tryCatch in *.
  destruct (m1 w1) as [w1' r1], (m2 w2) as [w2' r2]. simpl in Hw, Ho.
  subst r2. destruct r1 as [a | e].
  - split; [exact Hw | reflexivity].
  - apply Hh, Hw.
Qed.

Lemma related_forOf {A} (xs : list A) (body1 body2 : A -> M unit) :
  (forall x, related R (body1 x) (body2 x)) ->
  related R (forOf xs body1) (forOf xs body2).
Proof.
  intros Hbody. induction xs as [| x xs IH].
  - apply related_ret.
  - rewrite !forOf_cons. apply related_bind; [apply Hbody | intros _; exact IH].
Qed.

Lemma related_await {A} (answer : Responses -> Outcome A)
    (record : Outcome A -> Event) :
  related R (await env hook1 answer record) (await env hook2 answer record).
Proof.
  intros w1 w2 H. apply R_hook in H. unfold worldOf, outcomeOf, await. simpl.
  rewrite (R_clock _ _ H). split; [| reflexivity].
  apply R_log, R_tick, H.
Qed.

Lemma related_sendMessage (m : Message) :
  related R (sendMessage hook1 m) (sendMessage hook2 m).
Proof. intros w1 w2 H. split; [apply R_log, R_hook, H | reflexivity]. Qed.

Lemma related_sleep (ms : Z) : related R (sleep hook1 ms) (sleep hook2 ms).
Proof. intros w1 w2 H. split; [apply R_log, R_hook, H | reflexivity]. Qed.

Lemma related_generateKeypair :
  related R (generateKeypair env) (generateKeypair env).
Proof.
  intros w1 w2 H. unfold worldOf, outcomeOf, generateKeypair. simpl.
  rewrite (R_clock _ _ H). split; [exact H | reflexivity].
Qed.

(** One step of the proof that a function is related to itself under
    the other hook. *)
Ltac related_step :=
  match goal with
  | |- related _ (bind _ _) (bind _ _) => apply related_bind; [| intros ?]
  | |- related _ (tryCatch _ _) (tryCatch _ _) =>
      apply related_tryCatch; [| intros ?]
  | |- related _ (forOf _ _) (forOf _ _) => apply related_forOf; intros ?
  | |- related _ (await _ _ _ _) (await _ _ _ _) => apply related_await
  | |- related _ (sendMessage _ _) (sendMessage _ _) =>
      apply related_sendMessage
  | |- related _ (sleep _ _) (sleep _ _) => apply related_sleep
  | |- related _ (generateKeypair _) (generateKeypair _) =>
      apply related_generateKeypair
  | |- related _ (ret _) (ret _) => apply related_ret
  | |- related _ (throw _) (throw _) => apply related_throw
  | |- related _ (eval _) (eval _) => apply related_eval
  | |- related _ (match ?x with _ => _ end) (match ?x with _ => _ end) =>
      destruct x
  end.

Lemma related_rebalanceTry position :
  related R (rebalanceTry env hook1 position) (rebalanceTry env hook2 position).
Proof.
  unfold rebalanceTry, removePositionLiquidity, getTokenBalances,
    swapIfSignificant, swap, createNewPosition.
  repeat related_step.
Qed.

Lemma related_rebalanceCatch error :
  related R (rebalanceCatch hook1 error) (rebalanceCatch hook2 error).
Proof. unfold rebalanceCatch. repeat related_step. Qed.

End Related.

Lemma skipInserted_snoc ev (t1 t2 : list Event) :
  skipInserted t1 t2 -> skipInserted (t1 ++ [ev]) (t2 ++ [ev]).
Proof.
  intros (before & after & -> & ->). exists before, (after ++ [ev]).
  split; [symmetry; apply app_assoc |].
  rewrite <- app_assoc. reflexivity.
Qed.

(** A call of [rebalancePosition] that finds the flag up. *)
Lemma rebalancePosition_skips env hook position w :
  isRebalancing w = true ->
  rebalancePosition env hook position w
  = (log (EvSend MsgSkipping) (hook w), Returned tt).
Proof. intros Hflag. unfold rebalancePosition. rewrite Hflag. reflexivity. Qed.

Lemma shadows_hook env k position' w1 w2 :
  shadows k w1 w2 -> shadows k (triggerAt env k position' w1) (idle w2).
Proof.
  intros (Hf1 & Hf2 & Hs & Hc & Ht). unfold triggerAt, idle.
  destruct (Nat.eqb_spec (suspensions w1) k) as [Heq | Hne].
  - rewrite (rebalancePosition_skips _ _ _ _ Hf1). simpl.
    repeat split; try assumption. simpl.
    right. split; [lia |].
    destruct Ht as [[_ Ht] | [Hlt _]]; [| lia].
    exists (trace w2), []. rewrite Ht.
    split; [symmetry; apply app_nil_r | reflexivity].
  - simpl. repeat split; try assumption. simpl.
    destruct Ht as [[Hle Ht] | [Hlt Ht]]; [left | right]; split;
      try assumption; lia.
Qed.

Lemma shadows_log k ev w1 w2 : shadows k w1 w2 -> shadows k (log ev w1) (log ev w2).
Proof.
  intros (Hf1 & Hf2 & Hs & Hc & Ht). repeat split; try assumption. simpl.
  destruct Ht as [[Hle Ht] | [Hlt Ht]]; [left | right]; split;
    try assumption.
  - rewrite Ht. reflexivity.
  - apply skipInserted_snoc, Ht.
Qed.

Lemma shadows_tick k w1 w2 : shadows k w1 w2 -> shadows k (tick w1) (tick w2).
Proof.
  intros (Hf1 & Hf2 & Hs & Hc & Ht). repeat split; try assumption.
  simpl. rewrite Hc. reflexivity.
Qed.

Lemma shadows_clock k w1 w2 : shadows k w1 w2 -> clock w1 = clock w2.
Proof. intros (_ & _ & _ & Hc & _). exact Hc. Qed.

(** C4.  A call of [rebalancePosition] that finds the flag up sends the
    notification that the rebalance is skipped, makes no other call,
    changes nothing else in the world and returns.  Hence, when a
    second trigger comes at a suspension point of a rebalance in
    flight, the pipeline runs once, as if alone, and one such
    notification is sent. *)
Theorem rebalance_in_flight_skips_second_trigger env position position'
    (k : nat) w w0 :
  isRebalancing w = true ->
  isRebalancing w0 = false ->
  (suspensions w0 <= k)%nat ->
  let skipped := rebalancePosition env idle position w in
  let alone := rebalancePosition env idle position w0 in
  let both := rebalancePosition env (triggerAt env k position') position w0 in
  (outcomeOf skipped = Returned tt /\
   trace (worldOf skipped) = trace w ++ [EvSend MsgSkipping] /\
   isRebalancing (worldOf skipped) = true /\
   positionStatuses (worldOf skipped) = positionStatuses w /\
   clock (worldOf skipped) = clock w /\
   suspensions (worldOf skipped) = suspensions w) /\
  (outcomeOf both = outcomeOf alone /\
   isRebalancing (worldOf both) = false /\
   positionStatuses (worldOf both) = positionStatuses (worldOf alone) /\
   clock (worldOf both) = clock (worldOf alone) /\
   ((suspensions (worldOf both) <= k)%nat /\
    trace (worldOf both) = trace (worldOf alone)
    \/
    (k < suspensions (worldOf both))%nat /\
    skipInserted (trace (worldOf both)) (trace (worldOf alone)))).
Proof.
  intros Hflag Hflag0 Hk skipped alone both. split.
  - subst skipped. rewrite (rebalancePosition_skips _ _ _ _ Hflag).
    unfold idle. simpl. repeat split; assumption.
  - subst alone both. unfold rebalancePosition. rewrite Hflag0.
    unfold tryFinally.
    assert (shadows k (setRebalancing true w0) (setRebalancing true w0)) as Hstart.
    { repeat split. left. split; [exact Hk | reflexivity]. }
    pose proof (related_tryCatch (shadows k) _ _ _ _
                  (related_rebalanceTry env (triggerAt env k position') idle
                     (shadows k) (shadows_hook env k position')
                     (shadows_clock k) (shadows_log k) (shadows_tick k) position)
                  (related_rebalanceCatch (triggerAt env k position') idle
                     (shadows k) (shadows_hook env k position') (shadows_log k))
                  _ _ Hstart) as [Hend Hout].
    unfold worldOf, outcomeOf in *.
    destruct (tryCatch (rebalanceTry env (triggerAt env k position') position)
                (rebalanceCatch (triggerAt env k position'))
                (setRebalancing true w0)) as [w1 r1].
    destruct (tryCatch (rebalanceTry env idle position) (rebalanceCatch idle)
                (setRebalancing true w0)) as [w2 r2].
    simpl in *. destruct Hend as (_ & _ & Hs & Hc & Ht).
    repeat split; assumption.
Qed.

Lemma rebalance_in_flight_skips_second_trigger_witness :
  (isRebalancing (setRebalancing true initialWorld) = true /\
   isRebalancing initialWorld = false /\
   (suspensions initialWorld <= 3)%nat) /\
  outcomeOf
    (rebalancePosition calm (triggerAt calm 3 scenarioPosition) scenarioPosition
       initialWorld)
  = outcomeOf (rebalancePosition calm idle scenarioPosition initialWorld).
Proof.
  assert (suspensions initialWorld <= 3)%nat as Hk by (simpl; lia).
  split; [repeat split; exact Hk |].
  pose proof (rebalance_in_flight_skips_second_trigger calm scenarioPosition
                scenarioPosition 3 (setRebalancing true initialWorld)
                initialWorld eq_refl eq_refl Hk) as H.
  destruct H as [_ [H _]]. exact H.
Defined.

(** The trigger comes at the suspension point number 3 of a rebalance
    that succeeds: one notification more, and nothing else. *)
Example second_trigger_scenario :
  let alone :=
    worldOf (rebalancePosition calm idle scenarioPosition initialWorld) in
  let both :=
    worldOf (rebalancePosition calm (triggerAt calm 3 scenarioPosition)
               scenarioPosition initialWorld) in
  countEvents isSkip (trace alone) = 0%nat /\
  countEvents isSkip (trace both) = 1%nat /\
  length (trace both) = S (length (trace alone)) /\
  isRebalancing both = false.
Proof. vm_compute. repeat split. Qed.


(** * Further properties of the code *)

(** ** The out-of-range message *)

(** X1.  For a position that is out of range, the distance reported by
    [generateOutOfRangeMessage] is a positive number of bins, counted
    below the lower bound when the active bin is under it and above the
    upper bound otherwise. *)
Theorem out_of_range_distance_is_positive position activeBinId :
  inRangeAt activeBinId position = false ->
  exists n,
    0 < n /\
    generateOutOfRangeMessage position activeBinId
      (lowerBinId position) (upperBinId position)
    = MsgOutOfRange (publicKey position) activeBinId
        (lowerBinId position) (upperBinId position)
        (if activeBinId <? lowerBinId position then BinsBelow n else BinsAbove n)
        (totalXAmount position) (totalYAmount position) /\
    (if activeBinId <? lowerBinId position
     then activeBinId + n = lowerBinId position
     else upperBinId position + n = activeBinId).
Proof.
  unfold inRangeAt, generateOutOfRangeMessage. intros Hout.
  destruct (activeBinId <? lowerBinId position) eqn:Hlow.
  - exists (lowerBinId position - activeBinId).
    apply Z.ltb_lt in Hlow. repeat split; lia.
  - exists (activeBinId - upperBinId position).
    apply Z.ltb_ge in Hlow. apply andb_false_iff in Hout as [Hout | Hout].
    + apply Z.leb_gt in Hout. lia.
    + apply Z.leb_gt in Hout. repeat split; lia.
Qed.

Lemma out_of_range_distance_is_positive_witness :
  inRangeAt 115 scenarioPosition = false /\
  exists n,
    0 < n /\
    generateOutOfRangeMessage scenarioPosition 115
      (lowerBinId scenarioPosition) (upperBinId scenarioPosition)
    = MsgOutOfRange (publicKey scenarioPosition) 115
        (lowerBinId scenarioPosition) (upperBinId scenarioPosition)
        (if 115 <? lowerBinId scenarioPosition then BinsBelow n else BinsAbove n)
        (totalXAmount scenarioPosition) (totalYAmount scenarioPosition) /\
    (if 115 <? lowerBinId scenarioPosition
     then 115 + n = lowerBinId scenarioPosition
     else upperBinId scenarioPosition + n = 115).
Proof.
  split; [reflexivity |].
  exact (out_of_range_distance_is_positive scenarioPosition 115 eq_refl).
Defined.

(** ** The planner, numerically *)

Lemma planSwap_values_nonneg (xQuantity yQuantity priceBN : Z) :
  0 <= xQuantity -> 0 <= yQuantity -> 0 <= priceBN ->
  let plan := planSwap xQuantity yQuantity priceBN in
  0 <= xValue plan /\ 0 <= yValue plan /\
  (if swapYToX plan
   then xValue plan <= yValue plan
   else yValue plan < xValue plan).
Proof.
  intros Hx Hy Hp plan.
  destruct (planSwap_fields xQuantity yQuantity priceBN)
    as (Hxv & Hyv & _ & _ & _ & Hdir & _).
  fold plan in Hxv, Hyv, Hdir.
  assert (0 <= yValue plan) by (rewrite Hyv; apply Z.quot_pos; nia).
  rewrite Hdir, Hxv. repeat split; try assumption.
  destruct (xQuantity >? yValue plan) eqn:Hgt; simpl.
  - apply Z.gtb_lt in Hgt. lia.
  - rewrite Z.gtb_ltb in Hgt. apply Z.ltb_ge in Hgt. lia.
Qed.

(** X2.  For balances and a price that are not negative, the threshold
    of one percent filters nothing but a side that is worth nothing:
    the side to sell is worth at least half of the total, so the test
    against [totalValue / 100] passes as soon as that side is worth
    anything, and the swap is made exactly when the amount to sell and
    the value of the side to sell are positive. *)
Theorem threshold_filters_only_worthless_side (xQuantity yQuantity priceBN : Z) :
  0 <= xQuantity -> 0 <= yQuantity -> 0 <= priceBN ->
  let plan := planSwap xQuantity yQuantity priceBN in
  (valueToCheck plan > minSwapThreshold plan <-> valueToCheck plan > 0) /\
  (shouldSwap plan = true <-> swapAmount plan > 0 /\ valueToCheck plan > 0).
Proof.
  intros Hx Hy Hp plan.
  destruct (planSwap_values_nonneg xQuantity yQuantity priceBN Hx Hy Hp)
    as (Hxv & Hyv & Hside).
  destruct (planSwap_fields xQuantity yQuantity priceBN)
    as (_ & _ & Htotal & Hthreshold & Hcheck & _ & _).
  fold plan in Hxv, Hyv, Hside, Htotal, Hthreshold, Hcheck.
  assert (valueToCheck plan > minSwapThreshold plan <-> valueToCheck plan > 0)
    as Hguard.
  { rewrite Hthreshold, Htotal, Hcheck.
    assert (0 <= xValue plan + yValue plan) as Hnonneg by lia.
    rewrite (Z.quot_div_nonneg _ 100 Hnonneg) by lia.
    pose proof (Z.div_le_upper_bound (xValue plan + yValue plan) 100
                  (xValue plan + yValue plan)) as Hup.
    pose proof (Z.div_pos (xValue plan + yValue plan) 100 Hnonneg) as Hlow.
    destruct (swapYToX plan); split; intros H.
    - assert (0 <= (xValue plan + yValue plan) / 100) by (apply Hlow; lia). lia.
    - assert ((xValue plan + yValue plan) / 100 < yValue plan); [| lia].
      apply Z.div_lt_upper_bound; lia.
    - assert (0 <= (xValue plan + yValue plan) / 100) by (apply Hlow; lia). lia.
    - assert ((xValue plan + yValue plan) / 100 < xValue plan); [| lia].
      apply Z.div_lt_upper_bound; lia. }
  split; [exact Hguard |].
  unfold shouldSwap. rewrite andb_true_iff, !Z.gtb_ltb, !Z.ltb_lt.
  split.
  - intros [Ha Hv]. split; [lia |]. apply Hguard. lia.
  - intros [Ha Hv]. split; [lia |]. apply Hguard in Hv. lia.
Qed.

Lemma threshold_filters_only_worthless_side_witness :
  (0 <= 1000 /\ 0 <= 200 /\ 0 <= 2000000) /\
  (shouldSwap (planSwap 1000 200 2000000) = true <->
   swapAmount (planSwap 1000 200 2000000) > 0 /\
   valueToCheck (planSwap 1000 200 2000000) > 0).
Proof.
  split; [lia |].
  pose proof (threshold_filters_only_worthless_side 1000 200 2000000) as H.
  destruct H as [_ H]; [lia | lia | lia |]. exact H.
Defined.


(** ** Reading the balances *)

(** Equal traces, up to the grouping of the appends. *)
Ltac trace_eq :=
  repeat rewrite <- app_assoc; simpl; repeat rewrite <- app_assoc; reflexivity.

(** [new BN(number)], case by case. *)
Lemma BN_ofNumber_cases (number : Z) :
  Z.abs number < 2 ^ 53 /\ BN_ofNumber number = Returned number \/
  2 ^ 53 <= Z.abs number /\
  BN_ofNumber number = Thrown (JsError "Assertion failed").
Proof.
  unfold BN_ofNumber.
  destruct (Z.ltb_spec (Z.abs number) (2 ^ 53)); [left | right]; split;
    (assumption || reflexivity).
Qed.

(** X3.  When [getTokenBalances] returns, it has asked, in this order,
    for the token accounts of the wallet for the mint of X, for the mint
    of X, for the native balance of the wallet and for the mint of Y.
    The Y balance is the native balance, which is below [2^53] in
    magnitude; the decimals are those of the two mints, X for X and Y
    for Y.  The X balance is read from the first token account only,
    queried by its key: it is zero when the wallet has no token account
    for X, in which case no account is queried (four calls instead of
    five), and zero when that account does not exist. *)
Theorem getTokenBalances_reads_first_account env w w' balances :
  getTokenBalances env idle w = (w', Returned balances) ->
  let c := clock w in
  exists accounts,
    r_getTokenAccounts (env c) TokenX = Returned accounts /\
    r_getMint (env (1 + c)%nat) TokenX = Returned (xDecimals balances) /\
    r_getBalance (env (2 + c)%nat) = Returned (yBalance balances) /\
    Z.abs (yBalance balances) < 2 ^ 53 /\
    r_getMint (env (3 + c)%nat) TokenY = Returned (yDecimals balances) /\
    let asked :=
      [EvGetTokenAccounts TokenX (Returned accounts);
       EvGetMint TokenX (Returned (xDecimals balances));
       EvGetBalance (Returned (yBalance balances));
       EvGetMint TokenY (Returned (yDecimals balances))] in
    match accounts with
    | [] =>
        xBalance balances = 0 /\
        clock w' = (4 + c)%nat /\
        trace w' = trace w ++ asked
    | first :: _ =>
        exists info,
          r_getAccountInfo (env (4 + c)%nat) first = Returned info /\
          xBalance balances = default 0 info /\
          clock w' = (5 + c)%nat /\
          trace w' = trace w ++ asked ++ [EvGetAccountInfo first (Returned info)]
    end.
Proof.
  unfold getTokenBalances. rewrite !bind_run, await_run.
  destruct (r_getTokenAccounts (env (clock w)) TokenX)
    as [accounts | e] eqn:Haccounts; [| discriminate].
  rewrite !bind_run, await_run. simpl clock.
  destruct (r_getMint (env (S (clock w))) TokenX) as [xMint | e] eqn:HxMint;
    [| discriminate].
  rewrite !bind_run, await_run. simpl clock.
  destruct (r_getBalance (env (S (S (clock w))))) as [solBalance | e] eqn:Hsol;
    [| discriminate].
  rewrite !bind_run, await_run. simpl clock.
  destruct (r_getMint (env (S (S (S (clock w))))) TokenY)
    as [yMint | e] eqn:HyMint; [| discriminate].
  rewrite !bind_run.
  destruct (BN_ofNumber_cases solBalance) as [[Hsmall HBN] | [_ HBN]].
  2: { destruct accounts as [| first others].
       - unfold ret at 1. rewrite bind_run, eval_run, HBN. discriminate.
       - rewrite !bind_run, await_run.
         destruct (r_getAccountInfo _ first) as [[amount |] | e];
           try discriminate;
           unfold ret at 1; rewrite bind_run, eval_run, HBN; discriminate. }
  destruct accounts as [| first others].
  - unfold ret at 1. rewrite bind_run, eval_run, HBN.
    intros [= <- <-]. exists []. simpl.
    repeat split; try assumption. trace_eq.
  - rewrite !bind_run, await_run. simpl clock.
    destruct (r_getAccountInfo (env (S (S (S (S (clock w)))))) first)
      as [info | e] eqn:Hinfo; [| discriminate].
    assert (forall w0,
              match info with
              | Some amount => ret amount
              | None => ret 0
              end w0 = (w0, Returned (default 0 info))) as Hamount
      by (intros w0; destruct info; reflexivity).
    rewrite Hamount, bind_run, eval_run, HBN.
    intros [= <- <-]. exists (first :: others). simpl.
    repeat split; try assumption.
    exists info. repeat split; try assumption. trace_eq.
Qed.

Lemma getTokenBalances_reads_first_account_witness :
  let run := getTokenBalances calm idle initialWorld in
  run = (worldOf run,
         Returned {| xBalance := 500; yBalance := 1000000000;
                     xDecimals := 6; yDecimals := 6 |}) /\
  trace (worldOf run)
  = [EvGetTokenAccounts TokenX (Returned ["account"]);
     EvGetMint TokenX (Returned 6);
     EvGetBalance (Returned 1000000000);
     EvGetMint TokenY (Returned 6);
     EvGetAccountInfo "account" (Returned (Some 500))].
Proof.
  intros run.
  assert (run = (worldOf run,
                 Returned {| xBalance := 500; yBalance := 1000000000;
                             xDecimals := 6; yDecimals := 6 |})) as Hrun
    by (vm_compute; reflexivity).
  split; [exact Hrun |].
  pose proof (getTokenBalances_reads_first_account calm initialWorld _ _ Hrun)
    as (accounts & Haccounts & _ & _ & _ & _ & Hrest).
  injection Haccounts as <-. cbv zeta in Hrest.
  destruct Hrest as (info & Hinfo & _ & _ & Htrace).
  injection Hinfo as <-. exact Htrace.
Defined.

(** X4.  [getTokenBalances] handles no error.  When it throws, every
    call that it made before had succeeded, and either the error is the
    one that its last call ended with, nothing being called after it;
    or all its calls succeeded, the native balance that it read is
    [2^53] or more in magnitude, and the error is the assertion that
    fails in [new BN(solBalance)]. *)
Theorem getTokenBalances_propagates_first_failure env w w' e :
  getTokenBalances env idle w = (w', Thrown e) ->
  exists before,
    Forall (fun ev => balanceEvent ev /\ eventError ev = None) before /\
    ((exists failed,
        trace w' = trace w ++ before ++ [failed] /\
        balanceEvent failed /\
        eventError failed = Some e)
     \/
     (trace w' = trace w ++ before /\
      e = JsError "Assertion failed" /\
      (length before = 4%nat \/ length before = 5%nat) /\
      exists solBalance,
        before !! 2%nat = Some (EvGetBalance (Returned solBalance)) /\
        2 ^ 53 <= Z.abs solBalance)).
Proof.
  unfold getTokenBalances. rewrite !bind_run, await_run.
  destruct (r_getTokenAccounts (env (clock w)) TokenX) as [accounts | e1].
  2: { intros [= <- <-]. exists []. split; [constructor |]. left.
       exists (EvGetTokenAccounts TokenX (Thrown e1)).
       repeat split; constructor. }
  rewrite !bind_run, await_run.
  match goal with
  | |- context [r_getMint ?x TokenX] =>
      destruct (r_getMint x TokenX) as [xMint | e1]
  end.
  2: { intros [= <- <-].
       exists [EvGetTokenAccounts TokenX (Returned accounts)].
       split; [repeat constructor |]. left.
       exists (EvGetMint TokenX (Thrown e1)).
       simpl. rewrite <- app_assoc. repeat split; repeat constructor. }
  rewrite !bind_run, await_run.
  match goal with
  | |- context [r_getBalance ?x] => destruct (r_getBalance x) as [solBalance | e1]
  end.
  2: { intros [= <- <-].
       exists [EvGetTokenAccounts TokenX (Returned accounts);
               EvGetMint TokenX (Returned xMint)].
       split; [repeat constructor |]. left.
       exists (EvGetBalance (Thrown e1)).
       simpl. rewrite <- !app_assoc. repeat split; repeat constructor. }
  rewrite !bind_run, await_run.
  match goal with
  | |- context [r_getMint ?x TokenY] =>
      destruct (r_getMint x TokenY) as [yMint | e1]
  end.
  2: { intros [= <- <-].
       exists [EvGetTokenAccounts TokenX (Returned accounts);
               EvGetMint TokenX (Returned xMint);
               EvGetBalance (Returned solBalance)].
       split; [repeat constructor |]. left.
       exists (EvGetMint TokenY (Thrown e1)).
       simpl. rewrite <- !app_assoc. repeat split; repeat constructor. }
  rewrite !bind_run.
  destruct accounts as [| first others].
  - unfold ret at 1. rewrite bind_run, eval_run.
    destruct (BN_ofNumber_cases solBalance) as [[_ ->] | [Hlarge ->]];
      [discriminate |].
    intros [= <- <-].
    exists [EvGetTokenAccounts TokenX (Returned []);
            EvGetMint TokenX (Returned xMint);
            EvGetBalance (Returned solBalance);
            EvGetMint TokenY (Returned yMint)].
    split; [repeat constructor |]. right.
    split; [simpl; trace_eq |]. split; [reflexivity |].
    split; [left; reflexivity |].
    exists solBalance. split; [reflexivity | exact Hlarge].
  - rewrite !bind_run, await_run.
    match goal with
    | |- context [r_getAccountInfo ?x first] =>
        destruct (r_getAccountInfo x first) as [info | e1]
    end.
    2: { intros [= <- <-].
         exists [EvGetTokenAccounts TokenX (Returned (first :: others));
                 EvGetMint TokenX (Returned xMint);
                 EvGetBalance (Returned solBalance);
                 EvGetMint TokenY (Returned yMint)].
         split; [repeat constructor |]. left.
         exists (EvGetAccountInfo first (Thrown e1)).
         simpl. rewrite <- !app_assoc. repeat split; repeat constructor. }
    assert (forall w0,
              match info with
              | Some amount => ret amount
              | None => ret 0
              end w0 = (w0, Returned (default 0 info))) as Hamount
      by (intros w0; destruct info; reflexivity).
    rewrite Hamount, bind_run, eval_run.
    destruct (BN_ofNumber_cases solBalance) as [[_ ->] | [Hlarge ->]];
      [discriminate |].
    intros [= <- <-].
    exists [EvGetTokenAccounts TokenX (Returned (first :: others));
            EvGetMint TokenX (Returned xMint);
            EvGetBalance (Returned solBalance);
            EvGetMint TokenY (Returned yMint);
            EvGetAccountInfo first (Returned info)].
    split; [repeat constructor |]. right.
    split; [simpl; trace_eq |]. split; [reflexivity |].
    split; [right; reflexivity |].
    exists solBalance. split; [reflexivity | exact Hlarge].
Qed.

Lemma getTokenBalances_propagates_first_failure_witness :
  let run := getTokenBalances noBalance idle initialWorld in
  run = (worldOf run, Thrown (JsError "fetch failed")) /\
  exists before,
    Forall (fun ev => balanceEvent ev /\ eventError ev = None) before /\
    ((exists failed,
        trace (worldOf run) = trace initialWorld ++ before ++ [failed] /\
        balanceEvent failed /\
        eventError failed = Some (JsError "fetch failed"))
     \/
     (trace (worldOf run) = trace initialWorld ++ before /\
      JsError "fetch failed" = JsError "Assertion failed" /\
      (length before = 4%nat \/ length before = 5%nat) /\
      exists solBalance,
        before !! 2%nat = Some (EvGetBalance (Returned solBalance)) /\
        2 ^ 53 <= Z.abs solBalance)).
Proof.
  intros run.
  assert (run = (worldOf run, Thrown (JsError "fetch failed"))) as Hrun
    by (vm_compute; reflexivity).
  split; [exact Hrun |].
  exact (getTokenBalances_propagates_first_failure noBalance initialWorld _ _ Hrun).
Defined.


(** Running a computation step by step. *)
Ltac run_steps :=
  repeat first
    [ rewrite bind_run
    | rewrite await_run
    | rewrite sendMessage_run
    | rewrite sleep_run
    | progress cbv beta iota ].

(** ** The swap *)

(** X5.  What [swap] does, in full.  It asks for routes once, for the
    amount and the direction given.  With a first route, it announces
    the swap, executes that route and no other, and on success reports
    the completion and returns.  A failed query, an empty list of
    routes (the error "No routes found for the swap") and a failed
    execution are caught: one failure message is sent, with the
    [message] of the caught value, or "Unknown error" when it has none
    or an empty one, and the caught value is thrown again; except that
    for a thrown [null] or [undefined] nothing is sent and an [Error]
    (the [TypeError] of reading their message) is thrown instead. *)
Theorem swap_executes_first_route_or_reports env amount direction w :
  let run := swap env idle amount direction w in
  let routes := r_getRoutes (env (clock w)) in
  let execution := r_executeRoute (env (S (clock w))) in
  let caught (error : JsThrown) (sent : list Event) :=
    match error with
    | JsError message | JsOther (Some message) =>
        trace (worldOf run) =
          trace w ++ sent
          ++ [EvSend (MsgSwapFailed
                        (if String.eqb message EmptyString
                         then "Unknown error" else message))] /\
        outcomeOf run = Thrown error
    | JsOther None =>
        trace (worldOf run) =
          trace w ++ sent ++ [EvSend (MsgSwapFailed "Unknown error")] /\
        outcomeOf run = Thrown error
    | JsNull | JsUndefined =>
        trace (worldOf run) = trace w ++ sent /\
        exists message, outcomeOf run = Thrown (JsError message)
    end in
  match routes with
  | Thrown error => caught error [EvGetRoutes amount direction routes]
  | Returned [] =>
      caught (JsError "No routes found for the swap")
        [EvGetRoutes amount direction routes]
  | Returned (bestRoute :: _) =>
      let begun :=
        [EvGetRoutes amount direction routes;
         EvSend (MsgExecutingSwap bestRoute direction);
         EvExecuteRoute bestRoute execution] in
      match execution with
      | Thrown error => caught error begun
      | Returned executedRoute =>
          trace (worldOf run) =
            trace w ++ begun
            ++ [EvSend (MsgSwapCompleted executedRoute direction)] /\
          outcomeOf run = Returned tt
      end
  end.
Proof.
  intros run routes execution caught. subst run routes execution caught.
  rewrite swap_run. cbv zeta.
  destruct (r_getRoutes (env (clock w))) as [[| bestRoute others] | error].
  - simpl. split; [trace_eq | reflexivity].
  - destruct (r_executeRoute (env (S (clock w)))) as [executedRoute | error].
    + simpl. split; [trace_eq | reflexivity].
    + destruct error as [[| c message] | [[| c message] |] | |]; simpl;
        (split; [trace_eq | first [reflexivity | eexists; reflexivity]]).
  - destruct error as [[| c message] | [[| c message] |] | |]; simpl;
      (split; [trace_eq | first [reflexivity | eexists; reflexivity]]).
Qed.

(** ** The withdraw step *)

(** X6.  [removePositionLiquidity] throws exactly when the pool cannot
    prepare the removal; it has then submitted nothing and sent no
    message.  A submission that fails never makes it throw. *)
Theorem removePositionLiquidity_throws_only_on_preparation env position w e :
  (outcomeOf (removePositionLiquidity env idle position w) = Thrown e <->
   r_removeLiquidity (env (clock w)) = Thrown e) /\
  (r_removeLiquidity (env (clock w)) = Thrown e ->
   trace (worldOf (removePositionLiquidity env idle position w)) =
   trace w ++ [EvRemoveLiquidity (publicKey position)
                 (head (positionBinData position))
                 (last (positionBinData position)) (Thrown e)]).
Proof.
  unfold removePositionLiquidity, tryCatch. rewrite bind_run, await_run.
  destruct (r_removeLiquidity (env (clock w))) as [txs | e1].
  - split; [| discriminate]. split; [| discriminate].
    destruct (forOf _ _ _) as [w1 [[] | e2]]; simpl; discriminate.
  - simpl. split; [| intros [= <-]; reflexivity].
    split; intros [= <-]; reflexivity.
Qed.

(** The loop of the withdraw step, when every submission succeeds. *)
Lemma withdraw_loop_success env key (done : list (Transaction * string)) w :
  (forall i t txHash,
     done !! i = Some (t, txHash) ->
     r_sendAndConfirm (env (clock w + i)%nat) = Returned txHash) ->
  exists w',
    forOf (map fst done)
      (fun tx =>
         txHash <- await env idle r_sendAndConfirm (EvSendAndConfirm tx UserOnly) ;;
         sendMessage idle (MsgRemoved key txHash)) w
    = (w', Returned tt) /\
    trace w' = trace w ++ removedEvents key done /\
    clock w' = (clock w + length done)%nat.
Proof.
  revert w. induction done as [| [t txHash] done IH]; intros w Hdone.
  - exists w. simpl. rewrite app_nil_r, Nat.add_0_r. repeat split.
  - simpl map. rewrite forOf_cons.
    pose proof (Hdone 0%nat t txHash eq_refl) as Hfirst.
    rewrite Nat.add_0_r in Hfirst.
    rewrite bind_run, bind_run, await_run, Hfirst, sendMessage_run.
    match goal with
    | |- context [forOf _ _ ?w1] => destruct (IH w1) as (w' & Hrun & Htrace & Hclock)
    end.
    + intros i t' txHash' Hi. simpl.
      rewrite <- (Hdone (S i) t' txHash' Hi). f_equal. f_equal. lia.
    + exists w'. split; [exact Hrun |]. split.
      * rewrite Htrace. simpl. rewrite <- !app_assoc. reflexivity.
      * rewrite Hclock. simpl. lia.
Qed.

(** X7.  When the pool prepares the transactions of the removal (one,
    or an array of any length, empty included) and every submission
    is confirmed, [removePositionLiquidity] submits each transaction
    once, in the order received, reports each confirmation, and
    returns. *)
Theorem withdraw_submits_every_transaction env position w
    (done : list (Transaction * string)) (prepared : RemoveLiquidityTxs) :
  r_removeLiquidity (env (clock w)) = Returned prepared ->
  prepared = ManyTxs (map fst done) \/
  (exists tx txHash, done = [(tx, txHash)] /\ prepared = OneTx tx) ->
  (forall i t txHash,
     done !! i = Some (t, txHash) ->
     r_sendAndConfirm (env (S (clock w) + i)%nat) = Returned txHash) ->
  let run := removePositionLiquidity env idle position w in
  outcomeOf run = Returned tt /\
  trace (worldOf run) =
    trace w
    ++ [EvRemoveLiquidity (publicKey position)
          (head (positionBinData position)) (last (positionBinData position))
          (Returned prepared)]
    ++ removedEvents (publicKey position) done /\
  clock (worldOf run) = (S (clock w) + length done)%nat.
Proof.
  intros Hremove Hprepared Hdone run. subst run.
  unfold removePositionLiquidity, tryCatch.
  rewrite bind_run, await_run, Hremove.
  assert (match prepared with
          | OneTx tx => [tx]
          | ManyTxs txs => txs
          end = map fst done) as ->.
  { destruct Hprepared as [-> | (tx & txHash & -> & ->)]; reflexivity. }
  match goal with
  | |- context [forOf _ _ ?w1] =>
      destruct (withdraw_loop_success env (publicKey position) done w1 Hdone)
        as (w' & Hrun & Htrace & Hclock)
  end.
  rewrite Hrun. simpl. rewrite Htrace, Hclock. simpl.
  rewrite <- !app_assoc. repeat split.
Qed.

Lemma withdraw_submits_every_transaction_witness :
  let done := [(1%nat, "signature"); (2%nat, "signature")] in
  let run := removePositionLiquidity calm idle scenarioPosition initialWorld in
  r_removeLiquidity (calm (clock initialWorld)) = Returned (ManyTxs (map fst done)) /\
  outcomeOf run = Returned tt /\
  clock (worldOf run) = (S (clock initialWorld) + length done)%nat.
Proof.
  intros done run.
  pose proof (withdraw_submits_every_transaction calm scenarioPosition
                initialWorld done (ManyTxs (map fst done)) eq_refl
                (or_introl eq_refl)) as H.
  destruct H as (Hout & _ & Hclock).
  - intros [| [| i]] t txHash Hi; simpl in Hi; try discriminate Hi;
      injection Hi as _ <-; reflexivity.
  - split; [reflexivity |]. split; [exact Hout | exact Hclock].
Defined.


(** ** The course of a rebalance *)

Ltac event_kind ::=
  first
    [ exact I
    | solve [ unfold noSwapFailure, notDeposit, notWithdraw, noStepFailure,
                earlyEvent, notTerminal, notActiveBinQuery, anyEvent;
              simpl; tauto ] ].

Lemma bind_trace_extends {A B} (P : Event -> Prop) (m : M A) (k : A -> M B) w :
  (forall a, emits P (k a)) ->
  exists evs,
    trace (worldOf (bind m k w)) = trace (worldOf (m w)) ++ evs /\ Forall P evs.
Proof.
  intros Hk. unfold worldOf. rewrite bind_run.
  destruct (m w) as [w1 [a | e]]; simpl.
  - destruct (Hk a w1) as (_ & _ & _ & _ & evs & Ht & Hp).
    exists evs. split; assumption.
  - exists []. split; [symmetry; apply app_nil_r | constructor].
Qed.

(** The rest of the rebalance, after the withdraw step, emits events of
    the kind [P] when its steps do. *)
Ltac emits_pipeline balances swaps creates :=
  repeat first
    [ eapply emits_weaken; [| apply getTokenBalances_emits ]; [ exact balances ]
    | eapply emits_weaken; [| apply swapIfSignificant_emits ]; [ exact swaps ]
    | apply creates
    | emits_step ].

(** X8.  A rebalance that takes the lock asks the pool to remove the
    liquidity of the position before anything else: the request comes
    right after the starting message, before the balances and the price
    are read and whatever they turn out to be. *)
Theorem rebalance_withdraws_first env position w :
  isRebalancing w = false ->
  exists evs,
    trace (worldOf (rebalancePosition env idle position w)) =
    trace w
    ++ [EvSend MsgStarting;
        EvRemoveLiquidity (publicKey position)
          (head (positionBinData position)) (last (positionBinData position))
          (r_removeLiquidity (env (clock w)))]
    ++ evs.
Proof.
  intros Hflag. rewrite (rebalancePosition_run _ _ _ Hflag).
  assert (exists evs,
            trace (worldOf (rebalanceTry env idle position (setRebalancing true w)))
            = trace w
              ++ [EvSend MsgStarting;
                  EvRemoveLiquidity (publicKey position)
                    (head (positionBinData position))
                    (last (positionBinData position))
                    (r_removeLiquidity (env (clock w)))]
              ++ evs) as (evs & Ht).
  { unfold rebalanceTry, worldOf. rewrite bind_run, sendMessage_run.
    cbv beta iota.
    match goal with
    | |- context [bind (removePositionLiquidity env idle position) ?k ?w1] =>
        destruct (bind_trace_extends pipelineEvent
                    (removePositionLiquidity env idle position) k w1)
          as (evs2 & Ht2 & _)
    end.
    { intros _.
      emits_pipeline balanceEvent_pipeline swapEvent_pipeline
        createNewPosition_emits. }
    unfold worldOf in Ht2. rewrite Ht2. clear Ht2.
    unfold removePositionLiquidity.
    match goal with
    | |- context [bind (await env idle r_removeLiquidity ?rec) ?k ?w1] =>
        destruct (bind_trace_extends withdrawEvent
                    (await env idle r_removeLiquidity rec) k w1)
          as (evs1 & Ht1 & _)
    end.
    { intros txs. emits_all. }
    unfold worldOf in Ht1. rewrite Ht1, await_run. simpl.
    exists (evs1 ++ evs2). rewrite <- !app_assoc. reflexivity. }
  unfold worldOf in *.
  destruct (rebalanceTry env idle position (setRebalancing true w))
    as [w1 [a | e]]; [| destruct (messageOrUnknown e) as [errorMessage |]];
    simpl in *.
  - exists evs. exact Ht.
  - exists (evs ++ [EvSend (MsgRebalanceFailed errorMessage)]).
    rewrite Ht. rewrite <- !app_assoc. reflexivity.
  - exists evs. exact Ht.
Qed.

Lemma rebalance_withdraws_first_witness :
  isRebalancing initialWorld = false /\
  exists evs,
    trace (worldOf (rebalancePosition noPrice idle scenarioPosition initialWorld)) =
    trace initialWorld
    ++ [EvSend MsgStarting;
        EvRemoveLiquidity (publicKey scenarioPosition)
          (head (positionBinData scenarioPosition))
          (last (positionBinData scenarioPosition))
          (r_removeLiquidity (noPrice (clock initialWorld)))]
    ++ evs.
Proof.
  split; [reflexivity |].
  exact (rebalance_withdraws_first noPrice scenarioPosition initialWorld eq_refl).
Defined.

(** How a rebalance ends. *)

Lemma endsWithCompleted_bind {A B} (m : M A) (k : A -> M B) :
  emits notTerminal m ->
  (forall a, endsWithCompleted (k a)) ->
  endsWithCompleted (bind m k).
Proof.
  intros Hm Hk w. rewrite bind_run.
  destruct (Hm w) as (_ & _ & _ & _ & evs1 & Ht1 & Hn1). unfold worldOf in Ht1.
  destruct (m w) as [w1 [a | e]]; simpl in Ht1.
  - destruct (Hk a w1) as (evs2 & Hn2 & Hend).
    exists (evs1 ++ evs2). split; [apply Forall_app; split; assumption |].
    destruct (k a w1) as [w2 [b | e]]; rewrite Hend, Ht1, <- !app_assoc;
      reflexivity.
  - exists evs1. split; assumption.
Qed.

Lemma endsWithCompleted_throw {A} (e : JsThrown) : endsWithCompleted (@throw A e).
Proof.
  intros w. exists []. split; [constructor |]. simpl. symmetry. apply app_nil_r.
Qed.

Lemma endsWithCompleted_send : endsWithCompleted (sendMessage idle MsgCompleted).
Proof. intros w. exists []. split; [constructor | reflexivity]. Qed.

Lemma balanceEvent_notTerminal ev : balanceEvent ev -> notTerminal ev.
Proof.
  unfold notTerminal.
  destruct ev as [[] | | | | | | | | ? [] | | | |]; simpl; tauto.
Qed.

Lemma withdrawEvent_notTerminal ev : withdrawEvent ev -> notTerminal ev.
Proof.
  unfold notTerminal.
  destruct ev as [[] | | | | | | | | ? [] | | | |]; simpl; tauto.
Qed.

Lemma swapEvent_notTerminal ev : swapEvent ev -> notTerminal ev.
Proof.
  unfold notTerminal.
  destruct ev as [[] | | | | | | | | ? [] | | | |]; simpl; tauto.
Qed.

Lemma createNewPosition_notTerminal env newPosition xAmount yAmount :
  emits notTerminal (createNewPosition env idle newPosition xAmount yAmount).
Proof. unfold createNewPosition. emits_all. Qed.

Lemma rebalanceTry_endsWithCompleted env position :
  endsWithCompleted (rebalanceTry env idle position).
Proof.
  unfold rebalanceTry.
  apply endsWithCompleted_bind; [emits_all | intros _].
  apply endsWithCompleted_bind; [| intros _].
  { eapply emits_weaken; [| apply removePositionLiquidity_emits].
    exact withdrawEvent_notTerminal. }
  apply endsWithCompleted_bind; [| intros balances].
  { eapply emits_weaken; [| apply getTokenBalances_emits].
    exact balanceEvent_notTerminal. }
  apply endsWithCompleted_bind; [emits_all | intros activeBin].
  destruct (priceScaled activeBin) as [scaled |];
    [| apply endsWithCompleted_throw].
  apply endsWithCompleted_bind; [emits_all | intros priceBN].
  cbv zeta.
  apply endsWithCompleted_bind; [| intros _].
  { eapply emits_weaken; [| apply swapIfSignificant_emits].
    exact swapEvent_notTerminal. }
  apply endsWithCompleted_bind; [emits_all | intros _].
  apply endsWithCompleted_bind; [| intros final].
  { eapply emits_weaken; [| apply getTokenBalances_emits].
    exact balanceEvent_notTerminal. }
  apply endsWithCompleted_bind; [emits_all | intros newPosition].
  apply endsWithCompleted_bind; [apply createNewPosition_notTerminal | intros _].
  apply endsWithCompleted_send.
Qed.

(** X9.  A rebalance that takes the lock sends at most one verdict, as
    the last thing it does, and neither verdict earlier.  When its
    [try] block returns, the verdict is the message of success and the
    rebalance returns.  When the block throws, the verdict is the
    message of failure with the [message] of the value thrown, or
    "Unknown error" when it has none or an empty one, and the rebalance
    throws that value; except when the value is [null] or [undefined]:
    then no verdict is sent at all, and the rebalance throws the
    [TypeError] of reading their message. *)
Theorem rebalance_ends_with_one_verdict env position w :
  isRebalancing w = false ->
  let run := rebalancePosition env idle position w in
  let failed (error : JsThrown) (errorMessage : string) (evs : list Event) :=
    outcomeOf run = Thrown error /\
    trace (worldOf run) =
      trace w ++ evs ++ [EvSend (MsgRebalanceFailed errorMessage)] in
  let silent (typeError : string) (evs : list Event) :=
    outcomeOf run = Thrown (JsError typeError) /\
    trace (worldOf run) = trace w ++ evs in
  exists evs,
    Forall notTerminal evs /\
    match outcomeOf (rebalanceTry env idle position (setRebalancing true w)) with
    | Returned _ =>
        outcomeOf run = Returned tt /\
        trace (worldOf run) = trace w ++ evs ++ [EvSend MsgCompleted]
    | Thrown (JsError message as error)
    | Thrown (JsOther (Some message) as error) =>
        failed error
          (if String.eqb message EmptyString then "Unknown error" else message)
          evs
    | Thrown (JsOther None as error) => failed error "Unknown error" evs
    | Thrown JsNull =>
        silent "Cannot read properties of null (reading 'message')" evs
    | Thrown JsUndefined =>
        silent "Cannot read properties of undefined (reading 'message')" evs
    end.
Proof.
  intros Hflag run failed silent. subst run failed silent.
  rewrite (rebalancePosition_run _ _ _ Hflag).
  destruct (rebalanceTry_endsWithCompleted env position (setRebalancing true w))
    as (evs & Hn & Hend).
  exists evs. split; [exact Hn |]. unfold outcomeOf, worldOf.
  destruct (rebalanceTry env idle position (setRebalancing true w))
    as [w1 [[] | e]]; simpl in *.
  - split; [reflexivity | exact Hend].
  - destruct e as [[| c message] | [[| c message] |] | |]; simpl;
      (split; [reflexivity | rewrite Hend; trace_eq]).
Qed.

Lemma rebalance_ends_with_one_verdict_witness :
  let run := rebalancePosition noPrice idle scenarioPosition initialWorld in
  isRebalancing initialWorld = false /\
  exists evs,
    Forall notTerminal evs /\
    outcomeOf run = Thrown (JsError "Could not get active bin price") /\
    trace (worldOf run) =
      trace initialWorld ++ evs
      ++ [EvSend (MsgRebalanceFailed "Could not get active bin price")].
Proof.
  intros run. split; [reflexivity |].
  pose proof (rebalance_ends_with_one_verdict noPrice scenarioPosition
                initialWorld eq_refl) as H.
  cbv zeta in H. destruct H as (evs & Hn & H).
  exists evs. split; [exact Hn |].
  assert (outcomeOf (rebalanceTry noPrice idle scenarioPosition
                       (setRebalancing true initialWorld))
          = Thrown (JsError "Could not get active bin price")) as Hattempt
    by (vm_compute; reflexivity).
  rewrite Hattempt in H. exact H.
Defined.


(** The first event of a kind in a list is where it is. *)
Lemma first_occurrence_unique (P : Event -> Prop)
    (pre pre' : list Event) x x' (post post' : list Event) :
  Forall (fun ev => ~ P ev) pre -> P x ->
  Forall (fun ev => ~ P ev) pre' -> P x' ->
  pre ++ x :: post = pre' ++ x' :: post' ->
  pre = pre' /\ x = x' /\ post = post'.
Proof.
  revert pre'. induction pre as [| a pre IH]; intros pre' Hpre Hx Hpre' Hx' Heq.
  - destruct pre' as [| a' pre'].
    + injection Heq as -> ->. repeat split.
    + injection Heq as -> _. inversion Hpre' as [| ? ? Ha' _]. contradiction.
  - destruct pre' as [| a' pre'].
    + injection Heq as -> _. inversion Hpre as [| ? ? Ha _]. contradiction.
    + injection Heq as -> Heq.
      inversion Hpre as [| ? ? _ Hpre1]. inversion Hpre' as [| ? ? _ Hpre1'].
      destruct (IH pre' Hpre1 Hx Hpre1' Hx' Heq) as (-> & -> & ->).
      repeat split.
Qed.

Lemma withdrawEvent_notActiveBinQuery ev : withdrawEvent ev -> notActiveBinQuery ev.
Proof.
  unfold notActiveBinQuery.
  destruct ev as [[] | | | | | | | | ? [] | | | |]; simpl; tauto.
Qed.

Lemma balanceEvent_notActiveBinQuery ev : balanceEvent ev -> notActiveBinQuery ev.
Proof.
  unfold notActiveBinQuery.
  destruct ev as [[] | | | | | | | | ? [] | | | |]; simpl; tauto.
Qed.

(** The withdraw step begins with the request to the pool, and goes on
    only when the pool has prepared the removal. *)
Lemma removePositionLiquidity_course env position w :
  let run := removePositionLiquidity env idle position w in
  exists submissions,
    Forall withdrawEvent submissions /\
    trace (worldOf run) =
      trace w
      ++ EvRemoveLiquidity (publicKey position)
           (head (positionBinData position)) (last (positionBinData position))
           (r_removeLiquidity (env (clock w)))
         :: submissions /\
    (isThrown (outcomeOf run) = false ->
     exists prepared, r_removeLiquidity (env (clock w)) = Returned prepared).
Proof.
  intros run. subst run. unfold removePositionLiquidity.
  match goal with
  | |- context [bind (await env idle r_removeLiquidity ?rec) ?k w] =>
      destruct (bind_trace_extends withdrawEvent
                  (await env idle r_removeLiquidity rec) k w)
        as (submissions & Ht & Hn); [intros txs; emits_all |];
      exists submissions; split; [exact Hn |];
      split; [rewrite Ht; unfold worldOf; rewrite await_run; trace_eq |]
  end.
  unfold outcomeOf. rewrite bind_run, await_run.
  destruct (r_removeLiquidity (env (clock w))) as [prepared | e].
  - intros _. exists prepared. reflexivity.
  - discriminate.
Qed.

(** The rebalance up to its query of the price: either it throws before
    the query, or it has sent the starting message, requested the
    removal, which the pool prepared, run the withdraw step and read
    the balances, and the query is its first query of the active bin;
    an answer without a price, like a failure, ends the [try] block
    there. *)
Lemma rebalanceTry_until_price env position w :
  let run := rebalanceTry env idle position w in
  (exists evs,
     Forall notActiveBinQuery evs /\
     trace (worldOf run) = trace w ++ evs /\
     isThrown (outcomeOf run) = true) \/
  (exists prepared submissions balances r rest,
     r_removeLiquidity (env (clock w)) = Returned prepared /\
     Forall withdrawEvent submissions /\
     Forall balanceEvent balances /\
     trace (worldOf run) =
       trace w
       ++ (EvSend MsgStarting
           :: EvRemoveLiquidity (publicKey position)
                (head (positionBinData position))
                (last (positionBinData position)) (Returned prepared)
           :: submissions ++ balances)
       ++ EvGetActiveBin r :: rest /\
     match r with
     | Thrown e => rest = [] /\ outcomeOf run = Thrown e
     | Returned activeBin =>
         priceScaled activeBin = None ->
         rest = [] /\
         outcomeOf run = Thrown (JsError "Could not get active bin price")
     end).
Proof.
  intros run. subst run. unfold rebalanceTry, worldOf, outcomeOf.
  rewrite bind_run, sendMessage_run. cbv beta iota. rewrite bind_run.
  destruct (removePositionLiquidity_course env position
              (log (EvSend MsgStarting) w))
    as (evs1 & Hn1 & Ht1 & Hprepared). unfold worldOf, outcomeOf in Ht1, Hprepared.
  simpl clock in Ht1, Hprepared.
  destruct (removePositionLiquidity env idle position (log (EvSend MsgStarting) w))
    as [w1 [[] | e]]; simpl in Ht1, Hprepared.
  2: { left.
       exists (EvSend MsgStarting
               :: EvRemoveLiquidity (publicKey position)
                    (head (positionBinData position))
                    (last (positionBinData position))
                    (r_removeLiquidity (env (clock w)))
               :: evs1).
       simpl. split; [| split; [rewrite Ht1; trace_eq | reflexivity]].
       constructor; [unfold notActiveBinQuery; simpl; tauto |].
       constructor; [unfold notActiveBinQuery; simpl; tauto |].
       eapply Forall_impl; [exact Hn1 | exact withdrawEvent_notActiveBinQuery]. }
  destruct (Hprepared eq_refl) as [prepared Hremove]. rewrite Hremove in Ht1.
  rewrite bind_run.
  destruct (getTokenBalances_emits env w1) as (_ & _ & _ & _ & evs2 & Ht2 & Hn2).
  unfold worldOf in Ht2.
  destruct (getTokenBalances env idle w1) as [w2 [balances | e]]; simpl in Ht2.
  2: { left.
       exists (EvSend MsgStarting
               :: EvRemoveLiquidity (publicKey position)
                    (head (positionBinData position))
                    (last (positionBinData position)) (Returned prepared)
               :: evs1 ++ evs2).
       simpl. split; [| split; [rewrite Ht2, Ht1; trace_eq | reflexivity]].
       constructor; [unfold notActiveBinQuery; simpl; tauto |].
       constructor; [unfold notActiveBinQuery; simpl; tauto |].
       apply Forall_app. split.
       - eapply Forall_impl; [exact Hn1 | exact withdrawEvent_notActiveBinQuery].
       - eapply Forall_impl; [exact Hn2 | exact balanceEvent_notActiveBinQuery]. }
  rewrite bind_run, await_run.
  right. exists prepared, evs1, evs2, (r_getActiveBin (env (clock w2))).
  destruct (r_getActiveBin (env (clock w2))) as [activeBin | e].
  - destruct (priceScaled activeBin) as [scaled |].
    + match goal with
      | |- context [bind (eval ?r) ?k ?w3] =>
          destruct (bind_trace_extends pipelineEvent (eval r) k w3)
            as (evs3 & Ht3 & _);
          [ intros priceBN; cbv zeta;
            emits_pipeline balanceEvent_pipeline swapEvent_pipeline
              createNewPosition_emits
          | ]
      end.
      unfold worldOf in Ht3. simpl in Ht3.
      exists evs3. do 3 (split; [assumption |]).
      split; [| discriminate].
      rewrite Ht3, Ht2, Ht1. trace_eq.
    + exists []. do 3 (split; [assumption |]). simpl.
      split; [rewrite Ht2, Ht1; trace_eq | intros _; split; reflexivity].
  - exists []. do 3 (split; [assumption |]). simpl.
    split; [rewrite Ht2, Ht1; trace_eq | split; reflexivity].
Qed.

(** X10.  In a rebalance that takes the lock, when the first answer to
    a query of the active bin comes without a price, the rebalance
    stops there: it throws the error "Could not get active bin price",
    and the only thing it still does is to send the message of failure
    with that text.  Before the query it has sent the starting message,
    requested the removal of the liquidity, which the pool prepared,
    gone through the withdraw step (whose submissions may have failed)
    and read the balances, and nothing else: nothing is swapped and
    nothing is deposited. *)
Theorem rebalance_without_price_stops env position w
    (pre post : list Event) activeBin :
  isRebalancing w = false ->
  trace (worldOf (rebalancePosition env idle position w)) =
    trace w ++ pre ++ EvGetActiveBin (Returned activeBin) :: post ->
  Forall notActiveBinQuery pre ->
  priceScaled activeBin = None ->
  outcomeOf (rebalancePosition env idle position w)
    = Thrown (JsError "Could not get active bin price") /\
  post = [EvSend (MsgRebalanceFailed "Could not get active bin price")] /\
  exists prepared submissions balances,
    r_removeLiquidity (env (clock w)) = Returned prepared /\
    Forall withdrawEvent submissions /\
    Forall balanceEvent balances /\
    pre = EvSend MsgStarting
          :: EvRemoveLiquidity (publicKey position)
               (head (positionBinData position))
               (last (positionBinData position)) (Returned prepared)
          :: submissions ++ balances.
Proof.
  intros Hflag Htrace Hpre Hprice.
  rewrite (rebalancePosition_run _ _ _ Hflag) in *.
  destruct (rebalanceTry_until_price env position (setRebalancing true w))
    as [(evs & Hn & Ht & Hthrown)
       | (prepared & submissions & balances & r & rest
          & Hremove & Hn1 & Hn2 & Ht & Hr)];
    unfold worldOf, outcomeOf in *;
    destruct (rebalanceTry env idle position (setRebalancing true w))
      as [w1 [a | e]]; simpl in *; try discriminate.
  - exfalso.
    assert (exists verdict,
              Forall notActiveBinQuery verdict /\
              trace w ++ pre ++ EvGetActiveBin (Returned activeBin) :: post
              = trace w ++ evs ++ verdict) as (verdict & Hv & Heq).
    { destruct (messageOrUnknown e) as [errorMessage | typeError];
        simpl in Htrace; rewrite <- Htrace, Ht.
      - exists [EvSend (MsgRebalanceFailed errorMessage)].
        split; [| trace_eq].
        repeat constructor. unfold notActiveBinQuery. simpl. tauto.
      - exists []. split; [constructor | rewrite app_nil_r; reflexivity]. }
    apply app_inv_head in Heq.
    assert (Forall notActiveBinQuery (evs ++ verdict)) as Hall
      by (apply Forall_app; split; assumption).
    rewrite <- Heq in Hall. apply Forall_app in Hall as [_ Hall].
    inversion Hall as [| ? ? Hbad _]. apply Hbad. exact I.
  - assert (Forall notActiveBinQuery
              (EvSend MsgStarting
               :: EvRemoveLiquidity (publicKey position)
                    (head (positionBinData position))
                    (last (positionBinData position)) (Returned prepared)
               :: submissions ++ balances)) as Hearly.
    { constructor; [unfold notActiveBinQuery; simpl; tauto |].
      constructor; [unfold notActiveBinQuery; simpl; tauto |].
      apply Forall_app. split.
      - eapply Forall_impl; [exact Hn1 | exact withdrawEvent_notActiveBinQuery].
      - eapply Forall_impl; [exact Hn2 | exact balanceEvent_notActiveBinQuery]. }
    rewrite Ht in Htrace. apply app_inv_head in Htrace.
    destruct (first_occurrence_unique isActiveBinQuery _ pre
                (EvGetActiveBin r) (EvGetActiveBin (Returned activeBin))
                rest post Hearly I Hpre I Htrace) as (_ & Hr' & _).
    injection Hr' as Hr'.
    subst r. destruct (Hr Hprice) as [_ Hout]. discriminate Hout.
  - assert (Forall notActiveBinQuery
              (EvSend MsgStarting
               :: EvRemoveLiquidity (publicKey position)
                    (head (positionBinData position))
                    (last (positionBinData position)) (Returned prepared)
               :: submissions ++ balances)) as Hearly.
    { constructor; [unfold notActiveBinQuery; simpl; tauto |].
      constructor; [unfold notActiveBinQuery; simpl; tauto |].
      apply Forall_app. split.
      - eapply Forall_impl; [exact Hn1 | exact withdrawEvent_notActiveBinQuery].
      - eapply Forall_impl; [exact Hn2 | exact balanceEvent_notActiveBinQuery]. }
    destruct (messageOrUnknown e) as [errorMessage | typeError] eqn:Hmsg;
      simpl in Htrace; rewrite Ht in Htrace.
    + assert ((EvSend MsgStarting
               :: EvRemoveLiquidity (publicKey position)
                    (head (positionBinData position))
                    (last (positionBinData position)) (Returned prepared)
               :: submissions ++ balances)
              ++ EvGetActiveBin r
                 :: rest ++ [EvSend (MsgRebalanceFailed errorMessage)]
              = pre ++ EvGetActiveBin (Returned activeBin) :: post) as Heq
        by (apply (app_inv_head (trace w)); rewrite <- Htrace; trace_eq).
      destruct (first_occurrence_unique isActiveBinQuery _ pre
                  (EvGetActiveBin r) (EvGetActiveBin (Returned activeBin))
                  _ post Hearly I Hpre I Heq)
        as (Hpre' & Hr' & Hpost).
      injection Hr' as Hr'.
      subst r. destruct (Hr Hprice) as [-> [= ->]].
      simpl in Hmsg. injection Hmsg as <-. simpl in Hpost.
      split; [reflexivity |]. split; [symmetry; exact Hpost |].
      exists prepared, submissions, balances.
      repeat split; try assumption. symmetry. exact Hpre'.
    + assert ((EvSend MsgStarting
               :: EvRemoveLiquidity (publicKey position)
                    (head (positionBinData position))
                    (last (positionBinData position)) (Returned prepared)
               :: submissions ++ balances)
              ++ EvGetActiveBin r :: rest
              = pre ++ EvGetActiveBin (Returned activeBin) :: post) as Heq
        by (apply (app_inv_head (trace w)); rewrite <- Htrace; trace_eq).
      destruct (first_occurrence_unique isActiveBinQuery _ pre
                  (EvGetActiveBin r) (EvGetActiveBin (Returned activeBin))
                  _ post Hearly I Hpre I Heq)
        as (_ & Hr' & _).
      injection Hr' as Hr'.
      subst r. destruct (Hr Hprice) as [_ [= ->]].
      discriminate Hmsg.
Qed.

Lemma rebalance_without_price_stops_witness :
  let run := rebalancePosition noPrice idle scenarioPosition initialWorld in
  let pre :=
    [EvSend MsgStarting;
     EvRemoveLiquidity "P" (Some 100) (Some 110)
       (Returned (ManyTxs [1%nat; 2%nat]));
     EvSendAndConfirm 1%nat UserOnly (Returned "signature");
     EvSend (MsgRemoved "P" "signature");
     EvSendAndConfirm 2%nat UserOnly (Returned "signature");
     EvSend (MsgRemoved "P" "signature");
     EvGetTokenAccounts TokenX (Returned ["account"]);
     EvGetMint TokenX (Returned 6); EvGetBalance (Returned 1000000000);
     EvGetMint TokenY (Returned 6);
     EvGetAccountInfo "account" (Returned (Some 500))] in
  let post := [EvSend (MsgRebalanceFailed "Could not get active bin price")] in
  (isRebalancing initialWorld = false /\
   trace (worldOf run) =
     trace initialWorld ++ pre
     ++ EvGetActiveBin (Returned {| binId := 115; priceScaled := None |}) :: post /\
   Forall notActiveBinQuery pre) /\
  outcomeOf run = Thrown (JsError "Could not get active bin price").
Proof.
  intros run pre post.
  assert (trace (worldOf run) =
            trace initialWorld ++ pre
            ++ EvGetActiveBin (Returned {| binId := 115; priceScaled := None |})
               :: post) as Htrace by (vm_compute; reflexivity).
  assert (Forall notActiveBinQuery pre) as Hpre
    by (repeat constructor; unfold notActiveBinQuery; simpl; tauto).
  split; [repeat split; assumption |].
  exact (proj1 (rebalance_without_price_stops noPrice scenarioPosition
                  initialWorld pre post _ eq_refl Htrace Hpre eq_refl)).
Defined.


(** ** What an observation writes *)

Lemma world_eta (w : World) :
  {| isRebalancing := isRebalancing w;
     positionStatuses := positionStatuses w;
     clock := clock w;
     suspensions := suspensions w;
     trace := trace w |} = w.
Proof. destruct w. reflexivity. Qed.

(** The class version, for one position: the entry written, and the
    message sent if any. *)
Lemma monitor_checkPosition_writes activeBinId position w :
  let key := publicKey position in
  let inRange := inRangeAt activeBinId position in
  exists sent,
    MeteoraMonitor.checkPosition idle activeBinId position w =
    ({| isRebalancing := isRebalancing w;
        positionStatuses := <[key := observedStatus inRange]> (positionStatuses w);
        clock := clock w;
        suspensions := suspensions w;
        trace := trace w ++ sent |},
     Returned tt) /\
    (sent = [] \/
     sent = [EvSend (generateOutOfRangeMessage position activeBinId
                       (lowerBinId position) (upperBinId position))] \/
     sent = [EvSend (MsgBackInRange key activeBinId)]) /\
    (positionStatuses w !! key = Some (observedStatus inRange) -> sent = []).
Proof.
  intros key inRange. rewrite monitor_checkPosition_run. fold key inRange.
  unfold observedStatus.
  destruct inRange,
    (lastNotified (default unseenStatus (positionStatuses w !! key))) eqn:Hn;
    simpl.
  - exists [EvSend (MsgBackInRange key activeBinId)].
    split; [reflexivity |]. split; [auto |].
    intros Hentry. rewrite Hentry in Hn. discriminate Hn.
  - exists []. rewrite app_nil_r. split; [reflexivity |]. split; auto.
  - exists []. rewrite app_nil_r. split; [reflexivity |]. split; auto.
  - eexists. split; [reflexivity |]. split; [auto |].
    intros Hentry. rewrite Hentry in Hn. discriminate Hn.
Qed.

(** The rebalancing version, for one position: what becomes of the map. *)
Lemma checkPosition_writes env activeBinId position w :
  let key := publicKey position in
  let inRange := inRangeAt activeBinId position in
  let run := checkPosition env idle activeBinId position w in
  match outcomeOf run with
  | Returned _ =>
      positionStatuses (worldOf run)
      = <[key := observedStatus inRange]> (positionStatuses w)
  | Thrown _ => positionStatuses (worldOf run) = positionStatuses w
  end.
Proof.
  intros key inRange run. subst run. rewrite checkPosition_run. fold key inRange.
  set (alert := EvSend (generateOutOfRangeMessage position activeBinId
                          (lowerBinId position) (upperBinId position))).
  pose proof (rebalancePosition_emits env position (log alert w)) as Hext.
  unfold worldOf in Hext.
  destruct (rebalancePosition env idle position (log alert w)) as [w1 r].
  destruct Hext as (_ & Hst & _). simpl in Hst.
  unfold observedStatus.
  destruct inRange,
    (lastNotified (default unseenStatus (positionStatuses w !! key)));
    simpl; try reflexivity.
  destruct r as [[] | e]; simpl; rewrite Hst; reflexivity.
Qed.

(** X11.  An observation changes one entry of the map and no other: in
    the class version, and in the rebalancing version when it returns,
    the map becomes the old map with the entry of the position
    replaced by its containment as just observed, with the opposite
    notification flag; when the observation throws, the map is
    unchanged. *)
Theorem observation_writes_one_entry env activeBinId position w :
  let key := publicKey position in
  let inRange := inRangeAt activeBinId position in
  let monitor := MeteoraMonitor.checkPosition idle activeBinId position w in
  let rebalancer := checkPosition env idle activeBinId position w in
  (outcomeOf monitor = Returned tt /\
   positionStatuses (worldOf monitor)
   = <[key := observedStatus inRange]> (positionStatuses w)) /\
  match outcomeOf rebalancer with
  | Returned _ =>
      positionStatuses (worldOf rebalancer)
      = <[key := observedStatus inRange]> (positionStatuses w)
  | Thrown _ => positionStatuses (worldOf rebalancer) = positionStatuses w
  end.
Proof.
  intros key inRange monitor rebalancer. split.
  - subst monitor.
    destruct (monitor_checkPosition_writes activeBinId position w)
      as (sent & -> & _). split; reflexivity.
  - apply checkPosition_writes.
Qed.

(** ** Invariants of the cycles *)

(** A property of the world that the two queries and every observation
    keep holds when the [try] block of [checkPositions] ends. *)
Lemma cycle_try_invariant (I : World -> Prop) env
    (body : Z -> Position -> M unit) :
  (forall w r, I w -> I (log (EvGetPositions r) (tick w))) ->
  (forall w r, I w -> I (log (EvGetActiveBin r) (tick w))) ->
  (forall activeBinId position w,
     I w -> I (worldOf (body activeBinId position w))) ->
  forall w,
    I w ->
    I (worldOf
         ((positions <- await env idle r_getPositions EvGetPositions ;;
           activeBin <- await env idle r_getActiveBin EvGetActiveBin ;;
           forOf positions (body (binId activeBin))) w)).
Proof.
  intros Hpos Hbin Hbody w Hw. unfold worldOf.
  rewrite bind_run, await_run.
  specialize (Hpos w (r_getPositions (env (clock w))) Hw).
  destruct (r_getPositions (env (clock w))) as [positions | e]; [| exact Hpos].
  rewrite bind_run, await_run.
  match goal with
  | |- context [r_getActiveBin ?x] =>
      specialize (Hbin _ (r_getActiveBin x) Hpos);
      destruct (r_getActiveBin x) as [activeBin | e]; [| exact Hbin]
  end.
  apply (forOf_invariant I positions _ (Hbody (binId activeBin)) _ Hbin).
Qed.

Lemma pipelineEvent_not_checkError ev : pipelineEvent ev -> isCheckError ev = false.
Proof. destruct ev as [[] | | | | | | | | | | | |]; simpl; tauto. Qed.

Lemma countEvents_snoc f ev (t : list Event) :
  countEvents f (t ++ [ev]) = (countEvents f t + (if f ev then 1 else 0))%nat.
Proof. rewrite countEvents_app. simpl. lia. Qed.

(** X12.  [checkPositions], in both versions, never throws and never
    changes the rebalance flag; in a cycle it sends at most one message
    that the check failed. *)
Theorem cycle_returns_and_keeps_flag env w :
  let sound (run : World * Outcome unit) :=
    outcomeOf run = Returned tt /\
    isRebalancing (worldOf run) = isRebalancing w /\
    (countEvents isCheckError (trace (worldOf run))
     <= countEvents isCheckError (trace w) + 1)%nat in
  sound (MeteoraMonitor.checkPositions env idle w) /\
  sound (checkPositions env idle w).
Proof.
  intros sound. subst sound.
  set (I := fun w' : World =>
              isRebalancing w' = isRebalancing w /\
              countEvents isCheckError (trace w')
              = countEvents isCheckError (trace w)).
  assert (forall w' r, I w' -> I (log (EvGetPositions r) (tick w'))) as Hpos.
  { intros w' r [Hf Hc]. split; [exact Hf |]. simpl.
    rewrite countEvents_snoc. simpl. lia. }
  assert (forall w' r, I w' -> I (log (EvGetActiveBin r) (tick w'))) as Hbin.
  { intros w' r [Hf Hc]. split; [exact Hf |]. simpl.
    rewrite countEvents_snoc. simpl. lia. }
  assert (forall block : M unit,
            I (worldOf (block w)) ->
            let run :=
              tryCatch block
                (fun error =>
                   sendMessage idle (MsgCheckError (checkErrorMessage error))) w in
            outcomeOf run = Returned tt /\
            isRebalancing (worldOf run) = isRebalancing w /\
            (countEvents isCheckError (trace (worldOf run))
             <= countEvents isCheckError (trace w) + 1)%nat) as Hcatch.
  { intros block [Hf Hc]. unfold tryCatch, worldOf, outcomeOf, sendMessage, idle in *.
    destruct (block w) as [w1 [[] | e]]; simpl in *.
    - repeat split; [exact Hf | lia].
    - repeat split; [exact Hf |]. rewrite countEvents_snoc. simpl. lia. }
  split.
  - apply Hcatch.
    apply (cycle_try_invariant I env (MeteoraMonitor.checkPosition idle) Hpos Hbin);
      [| split; reflexivity].
    intros activeBinId position w' [Hf Hc].
    destruct (monitor_checkPosition_writes activeBinId position w')
      as (sent & -> & Hsent & _).
    split; [exact Hf |]. simpl. rewrite countEvents_app.
    destruct Hsent as [-> | [-> | ->]]; simpl; lia.
  - apply Hcatch.
    apply (cycle_try_invariant I env (checkPosition env idle) Hpos Hbin);
      [| split; reflexivity].
    intros activeBinId position w' [Hf Hc].
    rewrite checkPosition_run.
    set (alert := EvSend (generateOutOfRangeMessage position activeBinId
                            (lowerBinId position) (upperBinId position))).
    pose proof (rebalancePosition_emits env position (log alert w')) as Hext.
    unfold worldOf in Hext.
    destruct (rebalancePosition env idle position (log alert w')) as [w1 r].
    destruct Hext as (Hf1 & _ & _ & _ & evs & Ht & Hp). simpl in Hf1, Ht.
    assert (countEvents isCheckError (trace w1)
            = countEvents isCheckError (trace w')) as Hc1.
    { rewrite Ht, !countEvents_app.
      rewrite (countEvents_none _ pipelineEvent evs
                 pipelineEvent_not_checkError Hp). simpl. lia. }
    destruct (inRangeAt activeBinId position),
      (lastNotified
         (default unseenStatus (positionStatuses w' !! publicKey position)));
      simpl; try destruct r as [[] | e]; unfold I; simpl;
      rewrite ?countEvents_snoc; simpl; split; congruence || lia.
Qed.


(** ** A rebalance that fails during a cycle *)

Lemma forOf_app {A} (xs ys : list A) (body : A -> M unit) w :
  forOf (xs ++ ys) body w = bind (forOf xs body) (fun _ => forOf ys body) w.
Proof.
  revert w. induction xs as [| x xs IH]; intros w; [reflexivity |].
  simpl app. rewrite !forOf_cons, !bind_run.
  destruct (body x w) as [w1 [[] | e]]; [| reflexivity].
  rewrite IH, bind_run. reflexivity.
Qed.

(** An observation throws only when it is out of range, not notified,
    and the rebalance that it starts with the lock free throws. *)
Lemma checkPosition_Thrown_inv env activeBinId position w w' e :
  checkPosition env idle activeBinId position w = (w', Thrown e) ->
  inRangeAt activeBinId position = false /\
  notifiedAt (publicKey position) w = false /\
  isRebalancing w = false /\
  positionStatuses w' = positionStatuses w /\
  exists evs,
    Forall pipelineEvent evs /\
    trace w' =
    trace w
    ++ EvSend (generateOutOfRangeMessage position activeBinId
                 (lowerBinId position) (upperBinId position))
       :: evs.
Proof.
  rewrite checkPosition_run. cbv zeta. fold (notifiedAt (publicKey position) w).
  set (alert := EvSend (generateOutOfRangeMessage position activeBinId
                          (lowerBinId position) (upperBinId position))).
  destruct (inRangeAt activeBinId position),
    (notifiedAt (publicKey position) w); simpl; try discriminate.
  destruct (isRebalancing w) eqn:Hflag.
  - rewrite (rebalancePosition_skips env idle position (log alert w) Hflag).
    discriminate.
  - destruct (rebalancePosition_emits env position (log alert w))
      as (_ & Hst & _ & _ & evs & Ht & Hp). unfold worldOf in Hst, Ht.
    destruct (rebalancePosition env idle position (log alert w))
      as [w1 [[] | e1]]; [discriminate |].
    intros [= <- <-]. simpl in *. repeat split; try assumption.
    exists evs. split; [exact Hp |]. rewrite Ht. trace_eq.
Qed.

(** X13.  In the rebalancing version, when the rebalance started for
    one position throws, the cycle ends there.  After the alert for
    that position the cycle has made only the calls of that rebalance:
    the positions listed after it are not observed in this cycle.  The
    entry of the position is not written.  The cycle then sends one
    message that the check failed, with the [message] of the value
    thrown when it is an [Error] and the text "Unknown error occurred"
    otherwise, and returns. *)
Theorem failed_rebalance_ends_cycle env w (before after : list Position)
    position activeBin wb wp e :
  r_getPositions (env (clock w)) = Returned (before ++ position :: after) ->
  r_getActiveBin (env (S (clock w))) = Returned activeBin ->
  forOf before (checkPosition env idle (binId activeBin))
    (log (EvGetActiveBin (Returned activeBin))
       (tick (log (EvGetPositions (Returned (before ++ position :: after)))
                (tick w))))
  = (wb, Returned tt) ->
  checkPosition env idle (binId activeBin) position wb = (wp, Thrown e) ->
  checkPositions env idle w
  = (log (EvSend (MsgCheckError
                    match e with
                    | JsError message => message
                    | _ => "Unknown error occurred"
                    end)) wp,
     Returned tt) /\
  positionStatuses wp = positionStatuses wb /\
  exists evs,
    Forall pipelineEvent evs /\
    trace wp =
    trace wb
    ++ EvSend (generateOutOfRangeMessage position (binId activeBin)
                 (lowerBinId position) (upperBinId position))
       :: evs.
Proof.
  intros Hpos Hbin Hbefore Hfail. split.
  - unfold checkPositions, tryCatch.
    rewrite bind_run, await_run, Hpos, bind_run, await_run. simpl clock.
    rewrite Hbin. cbv zeta.
    rewrite forOf_app, bind_run, Hbefore, forOf_cons, bind_run, Hfail.
    rewrite sendMessage_run. destruct e; reflexivity.
  - destruct (checkPosition_Thrown_inv _ _ _ _ _ _ Hfail)
      as (_ & _ & _ & Hst & evs & Hp & Ht).
    split; [exact Hst |]. exists evs. split; assumption.
Qed.

Lemma failed_rebalance_ends_cycle_witness :
  let asked :=
    log (EvGetActiveBin (Returned {| binId := 115; priceScaled := Some 2000000 |}))
      (tick (log (EvGetPositions (Returned ([] ++ scenarioPosition :: [])))
               (tick initialWorld))) in
  let wp := worldOf (checkPosition noRemoval idle 115 scenarioPosition asked) in
  checkPosition noRemoval idle 115 scenarioPosition asked
  = (wp, Thrown (JsError "pool unavailable")) /\
  checkPositions noRemoval idle initialWorld
  = (log (EvSend (MsgCheckError "pool unavailable")) wp, Returned tt).
Proof.
  intros asked wp.
  assert (checkPosition noRemoval idle 115 scenarioPosition asked
          = (wp, Thrown (JsError "pool unavailable"))) as Hfail
    by (vm_compute; reflexivity).
  split; [exact Hfail |].
  exact (proj1 (failed_rebalance_ends_cycle noRemoval initialWorld [] []
                  scenarioPosition
                  {| binId := 115; priceScaled := Some 2000000 |} asked wp
                  (JsError "pool unavailable") eq_refl eq_refl eq_refl Hfail)).
Defined.

(** X14.  In the rebalancing version, a position found out of range
    while another rebalance holds the lock is alerted and marked as
    notified although its rebalance was skipped; as long as it stays
    out of range, the following observations send nothing and start no
    rebalance for it. *)
Theorem alert_under_lock_is_not_retried env activeBinId position w :
  isRebalancing w = true ->
  inRangeAt activeBinId position = false ->
  notifiedAt (publicKey position) w = false ->
  let key := publicKey position in
  let run := checkPosition env idle activeBinId position w in
  run =
    (setStatuses (<[key := observedStatus false]> (positionStatuses w))
       (log (EvSend MsgSkipping)
          (log (EvSend (generateOutOfRangeMessage position activeBinId
                          (lowerBinId position) (upperBinId position))) w)),
     Returned tt) /\
  forall env2 activeBinId2 position2 w2,
    publicKey position2 = key ->
    inRangeAt activeBinId2 position2 = false ->
    positionStatuses w2 !! key = positionStatuses (worldOf run) !! key ->
    trace (worldOf (checkPosition env2 idle activeBinId2 position2 w2)) = trace w2 /\
    positionStatuses (worldOf (checkPosition env2 idle activeBinId2 position2 w2))
      !! key = Some (observedStatus false).
Proof.
  intros Hflag Hout Hnot key run.
  assert (run =
            (setStatuses (<[key := observedStatus false]> (positionStatuses w))
               (log (EvSend MsgSkipping)
                  (log (EvSend (generateOutOfRangeMessage position activeBinId
                                  (lowerBinId position) (upperBinId position)))
                     w)),
             Returned tt)) as Hrun.
  { subst run. rewrite checkPosition_run. cbv zeta.
    fold (notifiedAt (publicKey position) w). rewrite Hout, Hnot. simpl.
    rewrite rebalancePosition_skips by exact Hflag. reflexivity. }
  split; [exact Hrun |].
  intros env2 activeBinId2 position2 w2 Hkey Hout2 Hentry.
  rewrite Hrun in Hentry. simpl in Hentry. rewrite lookup_insert_eq in Hentry.
  rewrite checkPosition_run. cbv zeta. rewrite Hkey, Hentry, Hout2. simpl.
  split; [reflexivity | apply lookup_insert_eq].
Qed.

Lemma alert_under_lock_is_not_retried_witness :
  let w := setRebalancing true initialWorld in
  (isRebalancing w = true /\
   inRangeAt 115 scenarioPosition = false /\
   notifiedAt (publicKey scenarioPosition) w = false) /\
  checkPosition calm idle 115 scenarioPosition w =
    (setStatuses
       (<[publicKey scenarioPosition := observedStatus false]> (positionStatuses w))
       (log (EvSend MsgSkipping)
          (log (EvSend (generateOutOfRangeMessage scenarioPosition 115
                          (lowerBinId scenarioPosition)
                          (upperBinId scenarioPosition))) w)),
     Returned tt).
Proof.
  intros w. split; [repeat split |].
  exact (proj1 (alert_under_lock_is_not_retried calm 115 scenarioPosition w
                  eq_refl eq_refl eq_refl)).
Defined.

(** ** The two flags of an entry *)

Lemma flagsOpposed_insert key inRange statuses :
  flagsOpposed statuses ->
  flagsOpposed (<[key := observedStatus inRange]> statuses).
Proof.
  intros Hinv key' status. rewrite lookup_insert.
  destruct (decide (key = key')) as [_ | _].
  - intros [= <-]. reflexivity.
  - apply Hinv.
Qed.

Lemma monitor_checkPosition_flagsOpposed activeBinId position w :
  flagsOpposed (positionStatuses w) ->
  flagsOpposed
    (positionStatuses
       (worldOf (MeteoraMonitor.checkPosition idle activeBinId position w))).
Proof.
  intros Hinv.
  destruct (monitor_checkPosition_writes activeBinId position w)
    as (sent & -> & _).
  apply flagsOpposed_insert, Hinv.
Qed.

Lemma checkPosition_flagsOpposed env activeBinId position w :
  flagsOpposed (positionStatuses w) ->
  flagsOpposed
    (positionStatuses (worldOf (checkPosition env idle activeBinId position w))).
Proof.
  intros Hinv.
  pose proof (checkPosition_writes env activeBinId position w) as H.
  cbv zeta in H.
  destruct (outcomeOf (checkPosition env idle activeBinId position w));
    rewrite H; [apply flagsOpposed_insert |]; exact Hinv.
Qed.

(** X15.  In every world that the process reaches by running monitoring
    cycles, of either version, the notification flag of every entry of
    the map is the opposite of its in-range flag: a position stored as
    in range is never marked as notified, and one stored as out of
    range always is. *)
Theorem flags_are_always_opposite w :
  reachable (fun env => MeteoraMonitor.checkPositions env idle) w \/
  reachable (fun env => checkPositions env idle) w ->
  flagsOpposed (positionStatuses w).
Proof.
  intros [Hreach | Hreach]; induction Hreach as [| env w _ IH].
  - intros key status. simpl. rewrite lookup_empty. discriminate.
  - apply (cycle_invariant flagsOpposed env (MeteoraMonitor.checkPosition idle)
             monitor_checkPosition_flagsOpposed w IH).
  - intros key status. simpl. rewrite lookup_empty. discriminate.
  - apply (cycle_invariant flagsOpposed env (checkPosition env idle)
             (checkPosition_flagsOpposed env) w IH).
Qed.

Lemma flags_are_always_opposite_witness :
  reachable (fun env => MeteoraMonitor.checkPositions env idle)
    (worldOf (MeteoraMonitor.checkPositions calm idle initialWorld)) /\
  flagsOpposed
    (positionStatuses
       (worldOf (MeteoraMonitor.checkPositions calm idle initialWorld))).
Proof.
  assert (reachable (fun env => MeteoraMonitor.checkPositions env idle)
            (worldOf (MeteoraMonitor.checkPositions calm idle initialWorld)))
    as Hreach.
  { apply (reachable_cycle (fun env => MeteoraMonitor.checkPositions env idle)
             calm).
    apply reachable_start. }
  split; [exact Hreach |].
  exact (flags_are_always_opposite _ (or_introl Hreach)).
Defined.


(** ** Cycles over a settled map *)

Lemma monitor_observeAll_other key obs w :
  key ∉ map observedKey obs ->
  positionStatuses (observeAll (MeteoraMonitor.checkPosition idle) obs w) !! key
  = positionStatuses w !! key.
Proof.
  revert w. induction obs as [| [activeBinId position] obs IH]; intros w Hnot;
    [reflexivity |].
  simpl in Hnot. apply not_elem_of_cons in Hnot as [Hne Hnot].
  simpl observeAll. rewrite IH by exact Hnot.
  destruct (monitor_checkPosition_writes activeBinId position w)
    as (sent & -> & _). simpl.
  apply lookup_insert_ne. intros Heq. apply Hne. symmetry. exact Heq.
Qed.

(** After the observations of a cycle of the class version, every
    position observed is recorded as observed. *)
Lemma monitor_observeAll_settles obs w :
  NoDup (map observedKey obs) ->
  settled obs (observeAll (MeteoraMonitor.checkPosition idle) obs w).
Proof.
  revert w. induction obs as [| [activeBinId position] obs IH]; intros w Hnodup;
    [constructor |].
  simpl in Hnodup. apply NoDup_cons in Hnodup as [Hnot Hnodup].
  constructor; [| apply IH, Hnodup].
  simpl observeAll. rewrite monitor_observeAll_other by exact Hnot.
  destruct (monitor_checkPosition_writes activeBinId position w)
    as (sent & -> & _). simpl.
  apply lookup_insert_eq.
Qed.

(** Observations that find every position recorded as they observe it
    change nothing. *)
Lemma monitor_observeAll_settled obs w :
  settled obs w ->
  observeAll (MeteoraMonitor.checkPosition idle) obs w = w.
Proof.
  revert w. induction obs as [| [activeBinId position] obs IH]; intros w Hset;
    [reflexivity |].
  apply Forall_cons in Hset as [Hentry Hset].
  unfold observedKey, observedInRange in Hentry. simpl in Hentry.
  simpl observeAll.
  destruct (monitor_checkPosition_writes activeBinId position w)
    as (sent & Hrun & _ & Hsilent).
  rewrite (Hsilent Hentry), app_nil_r in Hrun.
  rewrite (insert_id _ _ _ Hentry), world_eta in Hrun.
  rewrite Hrun. simpl. apply IH, Hset.
Qed.

(** The handler of [checkPositions] makes every cycle return. *)
Lemma cycle_outcome (attempt : M unit) w :
  outcomeOf
    (tryCatch attempt
       (fun error => sendMessage idle (MsgCheckError (checkErrorMessage error)))
       w)
  = Returned tt.
Proof.
  unfold tryCatch, outcomeOf.
  destruct (attempt w) as [w1 [[] | e]]; [reflexivity |].
  rewrite sendMessage_run. reflexivity.
Qed.

Lemma monitor_observeAll_clock obs w :
  clock (observeAll (MeteoraMonitor.checkPosition idle) obs w) = clock w.
Proof.
  revert w. induction obs as [| [activeBinId position] obs IH]; intros w;
    [reflexivity |].
  simpl observeAll. rewrite IH.
  destruct (monitor_checkPosition_writes activeBinId position w)
    as (sent & -> & _). reflexivity.
Qed.

(** X16.  In the class version, a cycle that finds the pool as the
    cycle before it did (the same positions, each on the same side of
    its range, whatever the active bin now is) sends no message and
    leaves the map as it is: it only asks its two questions. *)
Theorem unchanged_pool_cycle_is_silent env w positions activeBin activeBin' :
  NoDup (map publicKey positions) ->
  r_getPositions (env (clock w)) = Returned positions ->
  r_getActiveBin (env (S (clock w))) = Returned activeBin ->
  r_getPositions (env (S (S (clock w)))) = Returned positions ->
  r_getActiveBin (env (S (S (S (clock w))))) = Returned activeBin' ->
  Forall (fun position =>
            inRangeAt (binId activeBin') position
            = inRangeAt (binId activeBin) position) positions ->
  let w1 := worldOf (MeteoraMonitor.checkPositions env idle w) in
  MeteoraMonitor.checkPositions env idle w1
  = (log (EvGetActiveBin (Returned activeBin'))
       (tick (log (EvGetPositions (Returned positions)) (tick w1))),
     Returned tt).
Proof.
  intros Hnodup Hpos Hbin Hpos' Hbin' Hsame w1.
  set (asked := log (EvGetActiveBin (Returned activeBin))
                  (tick (log (EvGetPositions (Returned positions)) (tick w)))).
  assert (w1 = observeAll (MeteoraMonitor.checkPosition idle)
                 (map (pair (binId activeBin)) positions) asked) as Hw1
    by (apply monitor_cycle_observes; assumption).
  assert (clock w1 = S (S (clock w))) as Hclock
    by (rewrite Hw1, monitor_observeAll_clock; reflexivity).
  assert (settled (map (pair (binId activeBin')) positions) w1) as Hset.
  { assert (settled (map (pair (binId activeBin)) positions) w1) as Hset.
    { rewrite Hw1. apply monitor_observeAll_settles.
      rewrite map_map. exact Hnodup. }
    clear - Hset Hsame. unfold settled in *.
    induction Hsame as [| position positions Heq _ IH]; [constructor |].
    simpl in Hset. apply Forall_cons in Hset as [Hentry Hset].
    constructor; [| apply IH, Hset].
    unfold observedKey, observedInRange in *. simpl in *.
    rewrite Heq. exact Hentry. }
  rewrite <- Hclock in Hpos', Hbin'.
  pose proof (monitor_cycle_observes env w1 positions activeBin' Hpos' Hbin')
    as Hsecond.
  rewrite monitor_observeAll_settled in Hsecond by exact Hset.
  assert (outcomeOf (MeteoraMonitor.checkPositions env idle w1) = Returned tt)
    as Hret by (unfold MeteoraMonitor.checkPositions; apply cycle_outcome).
  unfold worldOf, outcomeOf in Hsecond, Hret.
  destruct (MeteoraMonitor.checkPositions env idle w1) as [w2 r].
  simpl in Hsecond, Hret. subst w2 r. reflexivity.
Qed.

Lemma unchanged_pool_cycle_is_silent_witness :
  let w1 := worldOf (MeteoraMonitor.checkPositions calm idle initialWorld) in
  MeteoraMonitor.checkPositions calm idle w1
  = (log (EvGetActiveBin
            (Returned {| binId := 115; priceScaled := Some 2000000 |}))
       (tick (log (EvGetPositions (Returned [scenarioPosition])) (tick w1))),
     Returned tt).
Proof.
  assert (NoDup (map publicKey [scenarioPosition])) as Hnodup
    by (apply NoDup_singleton).
  assert (Forall (fun position =>
                    inRangeAt 115 position = inRangeAt 115 position)
            [scenarioPosition]) as Hsame
    by (repeat constructor).
  exact (unchanged_pool_cycle_is_silent calm initialWorld [scenarioPosition]
           {| binId := 115; priceScaled := Some 2000000 |}
           {| binId := 115; priceScaled := Some 2000000 |}
           Hnodup eq_refl eq_refl eq_refl eq_refl Hsame).
Defined.


(** ** The status command *)

(** X17.  The status command only asks the pool its two questions: it
    sends no message through the bot, and leaves the map and the
    rebalance flag alone.  It has no handler of its own: when a
    question fails, the error leaves the command, the second question
    is not asked after a failed first one, and no message that the
    check failed is sent, unlike in a monitoring cycle. *)
Theorem statusCommand_only_asks env w :
  let run := statusCommand env idle w in
  positionStatuses (worldOf run) = positionStatuses w /\
  isRebalancing (worldOf run) = isRebalancing w /\
  match r_getPositions (env (clock w)) with
  | Thrown error =>
      outcomeOf run = Thrown error /\
      trace (worldOf run) = trace w ++ [EvGetPositions (Thrown error)]
  | Returned positions =>
      trace (worldOf run)
      = trace w ++ [EvGetPositions (Returned positions);
                    EvGetActiveBin (r_getActiveBin (env (S (clock w))))] /\
      match r_getActiveBin (env (S (clock w))) with
      | Thrown error => outcomeOf run = Thrown error
      | Returned activeBin =>
          exists report,
            outcomeOf run = Returned report /\
            reportActiveBin report = binId activeBin /\
            map entryKey (reportEntries report) = map publicKey positions
      end
  end.
Proof.
  intros run. subst run. unfold statusCommand, worldOf, outcomeOf.
  rewrite bind_run, await_run.
  destruct (r_getPositions (env (clock w))) as [positions | error].
  - rewrite bind_run, await_run. simpl clock.
    destruct (r_getActiveBin (env (S (clock w)))) as [activeBin | error]; simpl.
    + repeat split; [trace_eq |].
      eexists. repeat split. simpl.
      clear. induction positions as [| position positions IH];
        simpl; congruence.
    + repeat split. trace_eq.
  - simpl. repeat split.
Qed.

(** X18.  What the status command reports agrees with what a monitoring
    cycle of the class version, given the same answers, stores: every
    position of the report is then in the map, recorded as in range
    exactly when the report says so, and marked as notified exactly
    when the report says that it is out of range. *)
Theorem status_report_matches_cycle env w positions activeBin :
  NoDup (map publicKey positions) ->
  r_getPositions (env (clock w)) = Returned positions ->
  r_getActiveBin (env (S (clock w))) = Returned activeBin ->
  exists report,
    outcomeOf (statusCommand env idle w) = Returned report /\
    length (reportEntries report) = length positions /\
    Forall (fun entry =>
              positionStatuses
                (worldOf (MeteoraMonitor.checkPositions env idle w))
                !! entryKey entry
              = Some {| isInRange := entryInRange entry;
                        lastNotified := negb (entryInRange entry) |})
           (reportEntries report).
Proof.
  intros Hnodup Hpos Hbin.
  unfold statusCommand, outcomeOf.
  rewrite bind_run, await_run, Hpos, bind_run, await_run. simpl clock.
  rewrite Hbin. simpl. eexists. split; [reflexivity |]. simpl.
  split; [apply length_map |].
  rewrite (monitor_cycle_observes env w positions activeBin Hpos Hbin).
  pose proof (monitor_observeAll_settles
                (map (pair (binId activeBin)) positions)
                (log (EvGetActiveBin (Returned activeBin))
                   (tick (log (EvGetPositions (Returned positions)) (tick w)))))
    as Hset.
  rewrite map_map in Hset. specialize (Hset Hnodup).
  unfold settled in Hset. rewrite Forall_map in Hset. rewrite Forall_map.
  exact Hset.
Qed.

Lemma status_report_matches_cycle_witness :
  exists report,
    outcomeOf (statusCommand calm idle initialWorld) = Returned report /\
    length (reportEntries report) = length [scenarioPosition] /\
    Forall (fun entry =>
              positionStatuses
                (worldOf (MeteoraMonitor.checkPositions calm idle initialWorld))
                !! entryKey entry
              = Some {| isInRange := entryInRange entry;
                        lastNotified := negb (entryInRange entry) |})
           (reportEntries report).
Proof.
  assert (NoDup (map publicKey [scenarioPosition])) as Hnodup
    by (apply NoDup_singleton).
  exact (status_report_matches_cycle calm initialWorld [scenarioPosition]
           {| binId := 115; priceScaled := Some 2000000 |}
           Hnodup eq_refl eq_refl).
Defined.

(** ** Entries are never removed *)

Lemma forOf_lookup_other (body : Position -> M unit) key :
  (forall position w,
     publicKey position <> key ->
     positionStatuses (worldOf (body position w)) !! key
     = positionStatuses w !! key) ->
  forall positions w,
    key ∉ map publicKey positions ->
    positionStatuses (worldOf (forOf positions body w)) !! key
    = positionStatuses w !! key.
Proof.
  intros Hbody positions.
  induction positions as [| position positions IH]; intros w Hnot;
    [reflexivity |].
  simpl in Hnot. apply not_elem_of_cons in Hnot as [Hne Hnot].
  rewrite forOf_cons. unfold worldOf. rewrite bind_run.
  assert (publicKey position <> key) as Hne' by congruence.
  specialize (Hbody position w Hne'). unfold worldOf in Hbody.
  destruct (body position w) as [w1 [[] | e]]; simpl in Hbody.
  - rewrite <- Hbody. apply IH, Hnot.
  - exact Hbody.
Qed.

Lemma cycle_lookup_other env (body : Z -> Position -> M unit) key w :
  (forall activeBinId position w,
     publicKey position <> key ->
     positionStatuses (worldOf (body activeBinId position w)) !! key
     = positionStatuses w !! key) ->
  (forall positions,
     r_getPositions (env (clock w)) = Returned positions ->
     key ∉ map publicKey positions) ->
  positionStatuses (worldOf
    (tryCatch
       (positions <- await env idle r_getPositions EvGetPositions ;;
        activeBin <- await env idle r_getActiveBin EvGetActiveBin ;;
        forOf positions (body (binId activeBin)))
       (fun error =>
          sendMessage idle (MsgCheckError (checkErrorMessage error))) w)) !! key
  = positionStatuses w !! key.
Proof.
  intros Hbody Hnot.
  unfold worldOf, tryCatch. rewrite bind_run, await_run.
  destruct (r_getPositions (env (clock w))) as [positions | e];
    [| rewrite sendMessage_run; reflexivity].
  specialize (Hnot positions eq_refl).
  rewrite bind_run, await_run. simpl clock.
  destruct (r_getActiveBin (env (S (clock w)))) as [activeBin | e];
    [| rewrite sendMessage_run; reflexivity].
  cbv zeta.
  match goal with
  | |- context [forOf positions ?b ?w0] =>
      pose proof (forOf_lookup_other b key (Hbody (binId activeBin))
                    positions w0 Hnot) as Hloop;
      unfold worldOf in Hloop;
      destruct (forOf positions b w0) as [w1 [[] | e]]
  end; [| rewrite sendMessage_run]; exact Hloop.
Qed.

Lemma is_Some_insert_keeps key key' (status : PositionStatus)
    (statuses : gmap string PositionStatus) :
  is_Some (statuses !! key) -> is_Some (<[key' := status]> statuses !! key).
Proof.
  intros Hsome. rewrite lookup_insert.
  destruct (decide (key' = key)); [eexists; reflexivity | exact Hsome].
Qed.

(** X19.  No cycle, of either version, removes an entry of the map; and
    the entry of a position that the pool does not list any more (one
    closed by a rebalance, for instance) is kept as it is, for ever. *)
Theorem entries_are_never_removed env w key :
  is_Some (positionStatuses w !! key) ->
  let monitor := worldOf (MeteoraMonitor.checkPositions env idle w) in
  let rebalancer := worldOf (checkPositions env idle w) in
  (is_Some (positionStatuses monitor !! key) /\
   is_Some (positionStatuses rebalancer !! key)) /\
  ((forall positions,
      r_getPositions (env (clock w)) = Returned positions ->
      key ∉ map publicKey positions) ->
   positionStatuses monitor !! key = positionStatuses w !! key /\
   positionStatuses rebalancer !! key = positionStatuses w !! key).
Proof.
  intros Hsome monitor rebalancer. subst monitor rebalancer. split; [split |].
  - apply (cycle_invariant (fun statuses => is_Some (statuses !! key)) env
             (MeteoraMonitor.checkPosition idle)); [| exact Hsome].
    intros activeBinId position w' Hw'.
    destruct (monitor_checkPosition_writes activeBinId position w')
      as (sent & -> & _). simpl. apply is_Some_insert_keeps, Hw'.
  - apply (cycle_invariant (fun statuses => is_Some (statuses !! key)) env
             (checkPosition env idle)); [| exact Hsome].
    intros activeBinId position w' Hw'.
    pose proof (checkPosition_writes env activeBinId position w') as H.
    cbv zeta in H.
    destruct (outcomeOf (checkPosition env idle activeBinId position w'));
      rewrite H; [apply is_Some_insert_keeps |]; exact Hw'.
  - intros Hgone. split.
    + apply (cycle_lookup_other env (MeteoraMonitor.checkPosition idle));
        [| exact Hgone].
      intros activeBinId position w' Hne.
      destruct (monitor_checkPosition_writes activeBinId position w')
        as (sent & -> & _). simpl. apply lookup_insert_ne, Hne.
    + apply (cycle_lookup_other env (checkPosition env idle)); [| exact Hgone].
      intros activeBinId position w' Hne.
      pose proof (checkPosition_writes env activeBinId position w') as H.
      cbv zeta in H.
      destruct (outcomeOf (checkPosition env idle activeBinId position w'));
        rewrite H; [apply lookup_insert_ne, Hne | reflexivity].
Qed.

Lemma entries_are_never_removed_witness :
  let w := worldOf (MeteoraMonitor.checkPositions calm idle initialWorld) in
  is_Some (positionStatuses w !! publicKey scenarioPosition) /\
  is_Some
    (positionStatuses (worldOf (checkPositions noPositions idle w))
       !! publicKey scenarioPosition).
Proof.
  intros w.
  assert (is_Some (positionStatuses w !! publicKey scenarioPosition)) as Hsome
    by (eexists; vm_compute; reflexivity).
  split; [exact Hsome |].
  exact (proj2 (proj1 (entries_are_never_removed noPositions w
                         (publicKey scenarioPosition) Hsome))).
Defined.
